(** * enclave-ts: the streaming client and the request executor

    A shallow embedding of [src/client/websocket/WebSocketClient.ts],
    of [EnclaveClient.request] in [src/client/EnclaveClient.ts] and of
    the [EnclaveApiError] class, followed by the properties of the
    subscription registry, of the connection life cycle and of the
    retry policy.

    Layout: [Js] holds the pieces of the JavaScript runtime the code
    leans on (insertion-ordered [Map] and [Set], [String.split],
    truthiness, completions), [Errors] the error values, [Ws] the
    streaming client as a machine over an explicit client state, [Http]
    the request executor.  The theorems come after the definitions. *)

From Stdlib Require Import List String Ascii ZArith Lia Bool Arith DecimalString.
Import ListNotations.
Open Scope string_scope.
Set Warnings "-register-all".

(* ===================================================================== *)
(** ** JavaScript runtime *)
(* ===================================================================== *)

Module Js.

(** Values produced by [JSON.parse].  Numbers are restricted to the
    integers. *)
Inductive json : Type :=
| JNull
| JBool (b : bool)
| JNumber (n : Z)
| JString (s : string)
| JArray (items : list json)
| JObject (fields : list (string * json)).

Definition string_of_Z (z : Z) : string :=
  NilZero.string_of_int (Z.to_int z).

Definition nl : string := String (ascii_of_nat 10) EmptyString.

(** [if (s)] on a string, and on an optional string. *)
Definition truthy (s : string) : bool := negb (String.eqb s "").

Definition truthy_opt (o : option string) : bool :=
  match o with
  | Some s => truthy s
  | None => false
  end.

(** [if (v)] on a parsed value. *)
Definition truthy_json (v : json) : bool :=
  match v with
  | JNull => false
  | JBool b => b
  | JNumber n => negb (n =? 0)%Z
  | JString s => truthy s
  | JArray _ | JObject _ => true
  end.

Fixpoint join (sep : string) (l : list string) : string :=
  match l with
  | [] => ""
  | [x] => x
  | x :: rest => x ++ sep ++ join sep rest
  end.

(** [String(v)], which is also what a template literal applies. *)
Fixpoint to_string (v : json) : string :=
  match v with
  | JNull => "null"
  | JBool true => "true"
  | JBool false => "false"
  | JNumber n => string_of_Z n
  | JString s => s
  | JArray items =>
      join "," (map (fun x => match x with
                              | JNull => ""
                              | _ => to_string x
                              end) items)
  | JObject _ => "[object Object]"
  end.

Fixpoint assoc (k : string) (fields : list (string * json)) : option json :=
  match fields with
  | [] => None
  | (k', v) :: rest => if String.eqb k k' then Some v else assoc k rest
  end.

(** [v?.k]: [undefined] on [null], on a missing property and on the
    primitives (the property names used below are not built in). *)
Definition opt_prop (v : json) (k : string) : option json :=
  match v with
  | JObject fields => assoc k fields
  | _ => None
  end.

(** [a ?? b] *)
Definition nullish (a : option json) (b : option json) : option json :=
  match a with
  | None | Some JNull => b
  | Some v => Some v
  end.

(** [s.split(sep)] for a one-character separator: never empty, the
    empty string splits into one empty piece. *)
Fixpoint split (sep : ascii) (s : string) : list string :=
  match s with
  | EmptyString => [EmptyString]
  | String c rest =>
      if Ascii.eqb c sep then EmptyString :: split sep rest
      else match split sep rest with
           | [] => [String c EmptyString]
           | piece :: pieces => String c piece :: pieces
           end
  end.

Definition colon : ascii := ":"%char.

(** *** [Map<string, V>]: iteration follows insertion order, [set] on
    a present key keeps its place. *)
Section MapOf.
Context {V : Type}.

Definition Map := list (string * V).

Fixpoint get (m : Map) (k : string) : option V :=
  match m with
  | [] => None
  | (k', v) :: rest => if String.eqb k k' then Some v else get rest k
  end.

Definition has (m : Map) (k : string) : bool :=
  match get m k with
  | Some _ => true
  | None => false
  end.

Fixpoint set (m : Map) (k : string) (v : V) : Map :=
  match m with
  | [] => [(k, v)]
  | (k', v') :: rest =>
      if String.eqb k k' then (k, v) :: rest else (k', v') :: set rest k v
  end.

Fixpoint delete (m : Map) (k : string) : Map :=
  match m with
  | [] => []
  | (k', v') :: rest =>
      if String.eqb k k' then delete rest k else (k', v') :: delete rest k
  end.

Definition keys (m : Map) : list string := map fst m.
End MapOf.
Arguments Map V : clear implicits.

(** *** [Set] of function references.  A reference is its identity,
    a natural number; iteration follows insertion order and adding a
    member twice keeps one. *)
Definition SetOf := list nat.

Definition set_has (s : SetOf) (h : nat) : bool := existsb (Nat.eqb h) s.

Definition set_add (s : SetOf) (h : nat) : SetOf :=
  if set_has s h then s else (s ++ [h])%list.

Definition set_delete (s : SetOf) (h : nat) : SetOf :=
  filter (fun x => negb (Nat.eqb h x)) s.

Definition size (s : SetOf) : nat := List.length s.

End Js.

(* ===================================================================== *)
(** ** Error values: [utils/errors] *)
(* ===================================================================== *)

Module Errors.

Record EnclaveApiError : Type := {
  message : string;
  statusCode : option Z;
  endpoint : string;
  method : string;
  responseBody : option string
}.

(** The [Response:] part of the message: the first 200 characters of
    the body, and three dots after them when the body is longer. *)
Definition response_excerpt (responseBody : string) : string :=
  String.substring 0 200 responseBody
  ++ (if (200 <? String.length responseBody)%nat then "..." else "").

Definition status_line (statusCode : option Z) : string :=
  match statusCode with
  | Some n =>
      if negb (n =? 0)%Z
      then "  Status Code: " ++ Js.string_of_Z n ++ Js.nl
      else ""
  | None => ""
  end.

Definition response_line (responseBody : option string) : string :=
  match responseBody with
  | Some b => if Js.truthy b then "  Response: " ++ response_excerpt b else ""
  | None => ""
  end.

(** [new EnclaveApiError(message, endpoint, method, statusCode?, responseBody?)] *)
Definition new_EnclaveApiError (msg endpoint0 method0 : string)
    (statusCode0 : option Z) (responseBody0 : option string)
  : EnclaveApiError :=
  let enhancedMessage :=
    "Enclave API Error: " ++ msg ++ Js.nl
    ++ "  Endpoint: " ++ method0 ++ " " ++ endpoint0 ++ Js.nl
    ++ status_line statusCode0
    ++ response_line responseBody0 in
  {| message := enhancedMessage;
     statusCode := statusCode0;
     endpoint := endpoint0;
     method := method0;
     responseBody := responseBody0 |}.

(** A thrown value: a plain [Error] (or one of the built-in
    subclasses, told apart by [name]) or an [EnclaveApiError]. *)
Inductive JsError : Type :=
| Error (name : string) (msg : string)
| ApiError (e : EnclaveApiError).

(** [String(e)] *)
Definition String_of_error (e : JsError) : string :=
  match e with
  | Error name msg => name ++ ": " ++ msg
  | ApiError a => "EnclaveApiError: " ++ message a
  end.

(** How a statement completes. *)
Inductive Completion (A : Type) : Type :=
| Normal (a : A)
| Throw (e : JsError).
Arguments Normal {A} a.
Arguments Throw {A} e.

End Errors.

(* ===================================================================== *)
(** ** The streaming client: [client/websocket/WebSocketClient.ts] *)
(* ===================================================================== *)

(** The [console] output under [config.debug] is left out; everything
    else the class does is kept, in the order of the source. *)

Module Ws.
Import Errors.

Inductive Environment : Type :=
| PROD | PROD_PERMISSIONLESS | SANDBOX | SANDBOX_PERMISSIONLESS.

Definition environment_value (e : Environment) : string :=
  match e with
  | PROD => "PROD"
  | PROD_PERMISSIONLESS => "PROD_PERMISSIONLESS"
  | SANDBOX => "SANDBOX"
  | SANDBOX_PERMISSIONLESS => "SANDBOX_PERMISSIONLESS"
  end.

Definition WS_URLS (e : Environment) : string :=
  match e with
  | PROD => "wss://api.enclave.market/ws"
  | PROD_PERMISSIONLESS => "wss://api.enclave.trade/ws"
  | SANDBOX => "wss://api-sandbox.enclave.market/ws"
  | SANDBOX_PERMISSIONLESS => "wss://api-sandbox.enclave.trade/ws"
  end.

Inductive WebSocketChannel : Type :=
| PRICES | TRADES | ORDERBOOK | ORDERS | POSITIONS | DEPOSITS.

Definition channel_value (c : WebSocketChannel) : string :=
  match c with
  | PRICES => "prices"
  | TRADES => "tradesPerps"
  | ORDERBOOK => "topOfBooksPerps"
  | ORDERS => "ordersPerps"
  | POSITIONS => "positionsPerps"
  | DEPOSITS => "deposits"
  end.

(** A handler is a function reference; the [Set] compares references,
    so the model keeps the identity and asks the runtime what a call
    does. *)
Definition MessageHandler := nat.

Record HmacAuth : Type := { apiKey : string; apiSecret : string }.

Record WebSocketConfig : Type := {
  auth : option HmacAuth;
  environment : option Environment;
  debug : option bool;
  reconnect : option bool;
  reconnectDelay : option Z;
  maxReconnectAttempts : option Z
}.

Record WebSocketMessage : Type := {
  channel : string;
  type : string;
  data : Js.json;
  sequence : option Z;
  timestamp : option Z
}.

(** What lies outside the class: what a handler does when it is
    called with a payload ([None]: it returns, [Some e]: it throws
    [e]; handlers do not call back into the client), and the keyed
    hash behind [HmacAuth.sign]. *)
Record Runtime : Type := {
  call : MessageHandler -> Js.json -> option JsError;
  hmac_sha256_hex : string -> string -> string
}.

Inductive ReadyState : Type := CONNECTING | OPEN | CLOSING | CLOSED.

Inductive WireMessage : Type :=
| OpSubscribe (channel : string) (market : option string)
| OpUnsubscribe (channel : string) (market : option string)
| OpAuth (timestamp : Z) (apiKey : string) (signature : string).

(** Events of the client's own [EventEmitter]. *)
Inductive Event : Type :=
| Connected
| Disconnected (code : Z) (reason : string)
| Subscribed (m : WebSocketMessage)
| Unsubscribed (m : WebSocketMessage)
| OnError (e : JsError)
| Message (m : WebSocketMessage).

(** What the client does to the outside, in order.  Sockets and
    timers are named by their number of creation. *)
Inductive Effect : Type :=
| Emit (ev : Event)
| WsNew (sock : nat) (url : string)
| WsSend (sock : nat) (m : WireMessage)
| WsPing (sock : nat)
| WsPong (sock : nat)
| WsClose (sock : nat)
| Call (h : MessageHandler) (payload : Js.json)
| SetTimeout (t : nat) (delay : Z)
| ClearTimeout (t : nat)
| SetInterval (t : nat) (ms : Z)
| ClearInterval (t : nat)
| Resolve (sock : nat)
| Reject (sock : option nat) (e : JsError)
| Uncaught (e : JsError).

(** The fields of the class, then the runtime objects they refer to:
    the sockets created so far with their [readyState], the pending
    [setTimeout] handles (every one of them runs the reconnect
    callback), the live [setInterval] handles (every one of them runs
    the heartbeat callback), and the number of ['error'] listeners
    attached to the client. *)
Record WebSocketClient : Type := {
  ws : option nat;
  config : WebSocketConfig;
  subscriptions : Js.Map Js.SetOf;
  isConnected : bool;
  reconnectAttempts : Z;
  heartbeatInterval : option nat;
  sequenceNumber : Z;
  reconnectTimeout : option nat;
  sockets : list ReadyState;
  timeouts : list nat;
  intervals : list nat;
  timerCount : nat;
  errorListeners : nat
}.

Definition orElse {A : Type} (o : option A) (d : A) : A :=
  match o with
  | Some a => a
  | None => d
  end.

Definition is_true (o : option bool) : bool := orElse o false.

(** [constructor(config)] *)
Definition new_WebSocketClient (cfg : WebSocketConfig) : WebSocketClient :=
  {| ws := None;
     config :=
       {| auth := auth cfg;
          environment := Some (orElse (environment cfg) PROD_PERMISSIONLESS);
          debug := Some (orElse (debug cfg) false);
          reconnect := Some (orElse (reconnect cfg) true);
          reconnectDelay := Some (orElse (reconnectDelay cfg) 5000%Z);
          maxReconnectAttempts := Some (orElse (maxReconnectAttempts cfg) 10%Z) |};
     subscriptions := [];
     isConnected := false;
     reconnectAttempts := 0;
     heartbeatInterval := None;
     sequenceNumber := 0;
     reconnectTimeout := None;
     sockets := [];
     timeouts := [];
     intervals := [];
     timerCount := 0;
     errorListeners := 0 |}.

(** Field updates. *)
Definition set_ws (v : option nat) (s : WebSocketClient) :=
  {| ws := v; config := config s; subscriptions := subscriptions s;
     isConnected := isConnected s; reconnectAttempts := reconnectAttempts s;
     heartbeatInterval := heartbeatInterval s; sequenceNumber := sequenceNumber s;
     reconnectTimeout := reconnectTimeout s; sockets := sockets s;
     timeouts := timeouts s; intervals := intervals s;
     timerCount := timerCount s; errorListeners := errorListeners s |}.

Definition set_reconnect (v : option bool) (c : WebSocketConfig) :=
  {| auth := auth c; environment := environment c; debug := debug c;
     reconnect := v; reconnectDelay := reconnectDelay c;
     maxReconnectAttempts := maxReconnectAttempts c |}.

Definition set_config (v : WebSocketConfig) (s : WebSocketClient) :=
  {| ws := ws s; config := v; subscriptions := subscriptions s;
     isConnected := isConnected s; reconnectAttempts := reconnectAttempts s;
     heartbeatInterval := heartbeatInterval s; sequenceNumber := sequenceNumber s;
     reconnectTimeout := reconnectTimeout s; sockets := sockets s;
     timeouts := timeouts s; intervals := intervals s;
     timerCount := timerCount s; errorListeners := errorListeners s |}.

Definition set_subscriptions (v : Js.Map Js.SetOf) (s : WebSocketClient) :=
  {| ws := ws s; config := config s; subscriptions := v;
     isConnected := isConnected s; reconnectAttempts := reconnectAttempts s;
     heartbeatInterval := heartbeatInterval s; sequenceNumber := sequenceNumber s;
     reconnectTimeout := reconnectTimeout s; sockets := sockets s;
     timeouts := timeouts s; intervals := intervals s;
     timerCount := timerCount s; errorListeners := errorListeners s |}.

Definition set_isConnected (v : bool) (s : WebSocketClient) :=
  {| ws := ws s; config := config s; subscriptions := subscriptions s;
     isConnected := v; reconnectAttempts := reconnectAttempts s;
     heartbeatInterval := heartbeatInterval s; sequenceNumber := sequenceNumber s;
     reconnectTimeout := reconnectTimeout s; sockets := sockets s;
     timeouts := timeouts s; intervals := intervals s;
     timerCount := timerCount s; errorListeners := errorListeners s |}.

Definition set_reconnectAttempts (v : Z) (s : WebSocketClient) :=
  {| ws := ws s; config := config s; subscriptions := subscriptions s;
     isConnected := isConnected s; reconnectAttempts := v;
     heartbeatInterval := heartbeatInterval s; sequenceNumber := sequenceNumber s;
     reconnectTimeout := reconnectTimeout s; sockets := sockets s;
     timeouts := timeouts s; intervals := intervals s;
     timerCount := timerCount s; errorListeners := errorListeners s |}.

Definition set_heartbeatInterval (v : option nat) (s : WebSocketClient) :=
  {| ws := ws s; config := config s; subscriptions := subscriptions s;
     isConnected := isConnected s; reconnectAttempts := reconnectAttempts s;
     heartbeatInterval := v; sequenceNumber := sequenceNumber s;
     reconnectTimeout := reconnectTimeout s; sockets := sockets s;
     timeouts := timeouts s; intervals := intervals s;
     timerCount := timerCount s; errorListeners := errorListeners s |}.

Definition set_sequenceNumber (v : Z) (s : WebSocketClient) :=
  {| ws := ws s; config := config s; subscriptions := subscriptions s;
     isConnected := isConnected s; reconnectAttempts := reconnectAttempts s;
     heartbeatInterval := heartbeatInterval s; sequenceNumber := v;
     reconnectTimeout := reconnectTimeout s; sockets := sockets s;
     timeouts := timeouts s; intervals := intervals s;
     timerCount := timerCount s; errorListeners := errorListeners s |}.

Definition set_reconnectTimeout (v : option nat) (s : WebSocketClient) :=
  {| ws := ws s; config := config s; subscriptions := subscriptions s;
     isConnected := isConnected s; reconnectAttempts := reconnectAttempts s;
     heartbeatInterval := heartbeatInterval s; sequenceNumber := sequenceNumber s;
     reconnectTimeout := v; sockets := sockets s;
     timeouts := timeouts s; intervals := intervals s;
     timerCount := timerCount s; errorListeners := errorListeners s |}.

Definition set_sockets (v : list ReadyState) (s : WebSocketClient) :=
  {| ws := ws s; config := config s; subscriptions := subscriptions s;
     isConnected := isConnected s; reconnectAttempts := reconnectAttempts s;
     heartbeatInterval := heartbeatInterval s; sequenceNumber := sequenceNumber s;
     reconnectTimeout := reconnectTimeout s; sockets := v;
     timeouts := timeouts s; intervals := intervals s;
     timerCount := timerCount s; errorListeners := errorListeners s |}.

Definition set_timeouts (v : list nat) (s : WebSocketClient) :=
  {| ws := ws s; config := config s; subscriptions := subscriptions s;
     isConnected := isConnected s; reconnectAttempts := reconnectAttempts s;
     heartbeatInterval := heartbeatInterval s; sequenceNumber := sequenceNumber s;
     reconnectTimeout := reconnectTimeout s; sockets := sockets s;
     timeouts := v; intervals := intervals s;
     timerCount := timerCount s; errorListeners := errorListeners s |}.

Definition set_intervals (v : list nat) (s : WebSocketClient) :=
  {| ws := ws s; config := config s; subscriptions := subscriptions s;
     isConnected := isConnected s; reconnectAttempts := reconnectAttempts s;
     heartbeatInterval := heartbeatInterval s; sequenceNumber := sequenceNumber s;
     reconnectTimeout := reconnectTimeout s; sockets := sockets s;
     timeouts := timeouts s; intervals := v;
     timerCount := timerCount s; errorListeners := errorListeners s |}.

Definition set_timerCount (v : nat) (s : WebSocketClient) :=
  {| ws := ws s; config := config s; subscriptions := subscriptions s;
     isConnected := isConnected s; reconnectAttempts := reconnectAttempts s;
     heartbeatInterval := heartbeatInterval s; sequenceNumber := sequenceNumber s;
     reconnectTimeout := reconnectTimeout s; sockets := sockets s;
     timeouts := timeouts s; intervals := intervals s;
     timerCount := v; errorListeners := errorListeners s |}.

Definition set_errorListeners (v : nat) (s : WebSocketClient) :=
  {| ws := ws s; config := config s; subscriptions := subscriptions s;
     isConnected := isConnected s; reconnectAttempts := reconnectAttempts s;
     heartbeatInterval := heartbeatInterval s; sequenceNumber := sequenceNumber s;
     reconnectTimeout := reconnectTimeout s; sockets := sockets s;
     timeouts := timeouts s; intervals := intervals s;
     timerCount := timerCount s; errorListeners := v |}.

(** *** Methods run in a monad of state, trace and exceptions.  A
    throw keeps the state and the trace reached so far. *)
Definition M (A : Type) : Type :=
  WebSocketClient -> Completion A * WebSocketClient * list Effect.

Definition ret {A : Type} (a : A) : M A := fun s => (Normal a, s, []).

Definition bind {A B : Type} (c : M A) (k : A -> M B) : M B :=
  fun s =>
    match c s with
    | (Normal a, s1, t1) =>
        match k a s1 with
        | (r, s2, t2) => (r, s2, (t1 ++ t2)%list)
        end
    | (Throw e, s1, t1) => (Throw e, s1, t1)
    end.

Definition get : M WebSocketClient := fun s => (Normal s, s, []).

Definition modify (f : WebSocketClient -> WebSocketClient) : M unit :=
  fun s => (Normal tt, f s, []).

Definition perform (e : Effect) : M unit := fun s => (Normal tt, s, [e]).

Definition throw {A : Type} (e : JsError) : M A := fun s => (Throw e, s, []).

Definition try_catch {A : Type} (c : M A) (handler : JsError -> M A) : M A :=
  fun s =>
    match c s with
    | (Normal a, s1, t1) => (Normal a, s1, t1)
    | (Throw e, s1, t1) =>
        match handler e s1 with
        | (r, s2, t2) => (r, s2, (t1 ++ t2)%list)
        end
    end.

Definition when (b : bool) (c : M unit) : M unit := if b then c else ret tt.

Fixpoint forEach {A : Type} (l : list A) (f : A -> M unit) : M unit :=
  match l with
  | [] => ret tt
  | x :: rest => bind (f x) (fun _ => forEach rest f)
  end.

Definition state_of {A : Type} (r : Completion A * WebSocketClient * list Effect)
  : WebSocketClient := snd (fst r).

Definition trace_of {A : Type} (r : Completion A * WebSocketClient * list Effect)
  : list Effect := snd r.

Definition completion_of {A : Type}
    (r : Completion A * WebSocketClient * list Effect) : Completion A :=
  fst (fst r).

Declare Scope ws_scope.
Delimit Scope ws_scope with ws.
Notation "x <- c1 ;; c2" := (bind c1 (fun x => c2))
  (at level 61, c1 at next level, right associativity) : ws_scope.
Notation "c1 ;; c2" := (bind c1 (fun _ => c2))
  (at level 61, right associativity) : ws_scope.
Local Open Scope ws_scope.

(** *** The emitter, the sockets and the timers *)

(** [this.emit(name, ...)].  Listeners are observers that return.
    An ['error'] event with no ['error'] listener attached is thrown
    by [emit] instead of being delivered. *)
Definition emit (ev : Event) : M unit :=
  s <- get ;;
  match ev with
  | OnError e =>
      if (errorListeners s =? 0)%nat then throw e else perform (Emit ev)
  | _ => perform (Emit ev)
  end.

Definition readyState (s : WebSocketClient) (i : nat) : option ReadyState :=
  nth_error (sockets s) i.

Definition is_open (s : WebSocketClient) (i : nat) : bool :=
  match readyState s i with
  | Some OPEN => true
  | _ => false
  end.

Fixpoint replace_nth {A : Type} (i : nat) (v : A) (l : list A) : list A :=
  match l, i with
  | [], _ => []
  | _ :: rest, O => v :: rest
  | x :: rest, S j => x :: replace_nth j v rest
  end.

Definition set_readyState (i : nat) (st : ReadyState) : M unit :=
  modify (fun s => set_sockets (replace_nth i st (sockets s)) s).

(** [new WebSocket(url)] *)
Definition new_WebSocket (url : string) : M nat :=
  s <- get ;;
  let i := List.length (sockets s) in
  modify (set_sockets (sockets s ++ [CONNECTING])%list) ;;
  perform (WsNew i url) ;;
  ret i.

(** [socket.close()]: nothing on a closed socket, otherwise the
    socket starts closing. *)
Definition ws_close (i : nat) : M unit :=
  s <- get ;;
  perform (WsClose i) ;;
  match readyState s i with
  | Some CLOSED | None => ret tt
  | Some _ => set_readyState i CLOSING
  end.

(** [socket.pong()]: throws while connecting, sends when open and
    does nothing otherwise. *)
Definition ws_pong (i : nat) : M unit :=
  s <- get ;;
  match readyState s i with
  | Some CONNECTING =>
      throw (Error "Error" "WebSocket is not open: readyState 0 (CONNECTING)")
  | Some OPEN => perform (WsPong i)
  | _ => ret tt
  end.

Definition remove_timer (t : nat) (l : list nat) : list nat :=
  filter (fun x => negb (Nat.eqb t x)) l.

Definition mem_timer (t : nat) (l : list nat) : bool := existsb (Nat.eqb t) l.

Definition setTimeout (delay : Z) : M nat :=
  s <- get ;;
  let t := timerCount s in
  modify (fun s => set_timerCount (S t) (set_timeouts (t :: timeouts s) s)) ;;
  perform (SetTimeout t delay) ;;
  ret t.

Definition clearTimeout (t : nat) : M unit :=
  modify (fun s => set_timeouts (remove_timer t (timeouts s)) s) ;;
  perform (ClearTimeout t).

Definition setInterval (ms : Z) : M nat :=
  s <- get ;;
  let t := timerCount s in
  modify (fun s => set_timerCount (S t) (set_intervals (t :: intervals s) s)) ;;
  perform (SetInterval t ms) ;;
  ret t.

Definition clearInterval (t : nat) : M unit :=
  modify (fun s => set_intervals (remove_timer t (intervals s)) s) ;;
  perform (ClearInterval t).

Section Methods.
Variable rt : Runtime.

(** [HmacAuth.sign] and [HmacAuth.getApiKey] *)
Definition sign (a : HmacAuth) (message : string) : string :=
  hmac_sha256_hex rt (apiSecret a) message.

Definition getApiKey (a : HmacAuth) : string := apiKey a.

(** [send(message)] *)
Definition send (message : WireMessage) : M unit :=
  s <- get ;;
  match ws s with
  | Some i => when (is_open s i) (perform (WsSend i message))
  | None => ret tt
  end.

(** [authenticate()]; [now] is what [Date.now()] returns. *)
Definition authenticate (now : Z) : M unit :=
  s <- get ;;
  match auth (config s) with
  | None => ret tt
  | Some a =>
      let timestamp := now in
      let message := Js.string_of_Z timestamp ++ "WS_AUTH" in
      let signature := sign a message in
      send (OpAuth timestamp (getApiKey a) signature)
  end.

(** The object [sendSubscribe] builds: [market] is set when truthy. *)
Definition subscribe_message (channel : string) (market : option string)
  : WireMessage :=
  OpSubscribe channel (if Js.truthy_opt market then market else None).

Definition unsubscribe_message (channel : string) (market : option string)
  : WireMessage :=
  OpUnsubscribe channel (if Js.truthy_opt market then market else None).

Definition sendSubscribe (channel : string) (market : option string) : M unit :=
  send (subscribe_message channel market).

Definition sendUnsubscribe (channel : string) (market : option string) : M unit :=
  send (unsubscribe_message channel market).

(** [getSubscriptionKey(channel, market?)].  The declared type of
    [market] is [string]; [handleMessage] passes whatever the frame
    holds, hence a parsed value. *)
Definition getSubscriptionKey (channel : string) (market : option Js.json)
  : string :=
  match market with
  | Some v =>
      if Js.truthy_json v then channel ++ ":" ++ Js.to_string v else channel
  | None => channel
  end.

(** The body of the loop of [resubscribeAll]:
    [const [channel, market] = key.split(':')]. *)
Definition resubscribe_message (key : string) : WireMessage :=
  let parts := Js.split Js.colon key in
  let channel := hd "" parts in
  let market := nth_error parts 1 in
  subscribe_message channel market.

Definition resubscribeAll : M unit :=
  s <- get ;;
  forEach (Js.keys (subscriptions s)) (fun key =>
    let parts := Js.split Js.colon key in
    let channel := hd "" parts in
    let market := nth_error parts 1 in
    sendSubscribe channel market).

Definition stopHeartbeat : M unit :=
  s <- get ;;
  match heartbeatInterval s with
  | Some t => clearInterval t ;; modify (set_heartbeatInterval None)
  | None => ret tt
  end.

(** The callback [startHeartbeat] hands to [setInterval]. *)
Definition heartbeat_tick : M unit :=
  s <- get ;;
  match ws s with
  | Some i => when (is_open s i) (perform (WsPing i))
  | None => ret tt
  end.

Definition startHeartbeat : M unit :=
  stopHeartbeat ;;
  t <- setInterval 30000 ;;
  modify (set_heartbeatInterval (Some t)).

(** [scheduleReconnect()]; the counter is at least 1 when the
    exponent is taken. *)
Definition scheduleReconnect : M unit :=
  modify (fun s => set_reconnectAttempts (reconnectAttempts s + 1) s) ;;
  s <- get ;;
  let delay :=
    (orElse (reconnectDelay (config s)) 5000
     * 2 ^ Z.min (reconnectAttempts s - 1) 5)%Z in
  t <- setTimeout delay ;;
  modify (set_reconnectTimeout (Some t)).

(** [handler(message.data)] *)
Definition invoke (handler : MessageHandler) (payload : Js.json) : M unit :=
  perform (Call handler payload) ;;
  match call rt handler payload with
  | None => ret tt
  | Some e => throw e
  end.

(** [handleMessage(message)] *)
Definition handleMessage (message : WebSocketMessage) : M unit :=
  if String.eqb (type message) "subscribed" then emit (Subscribed message)
  else if String.eqb (type message) "unsubscribed" then emit (Unsubscribed message)
  else if String.eqb (type message) "error" then
    let errorMessage :=
      orElse (Js.nullish (Js.opt_prop (data message) "message") None)
             (Js.JString "Unknown error") in
    emit (OnError (Error "Error" (Js.to_string errorMessage)))
  else
    let key :=
      getSubscriptionKey (channel message) (Js.opt_prop (data message) "market") in
    s <- get ;;
    match Js.get (subscriptions s) key with
    | Some handlers =>
        forEach handlers (fun handler =>
          try_catch (invoke handler (data message))
                    (fun error => emit (OnError error)))
    | None => ret tt
    end ;;
    match sequence message with
    | Some n => when (negb (n =? 0)%Z) (modify (set_sequenceNumber n))
    | None => ret tt
    end ;;
    emit (Message message).

(** [connect()]: the body up to the registration of the socket's
    listeners, which follow as [on_open] ... [on_ping]. *)
Definition connect : M unit :=
  s <- get ;;
  let environment := orElse (environment (config s)) PROD_PERMISSIONLESS in
  let wsUrl := WS_URLS environment in
  if negb (Js.truthy wsUrl) then
    perform (Reject None
               (Error "Error"
                  ("Invalid environment: " ++ environment_value environment)))
  else
    i <- new_WebSocket wsUrl ;;
    modify (set_ws (Some i)).

Definition on_open (i : nat) (now : Z) : M unit :=
  modify (set_isConnected true) ;;
  modify (set_reconnectAttempts 0) ;;
  emit Connected ;;
  startHeartbeat ;;
  s <- get ;;
  match auth (config s) with
  | Some _ => authenticate now
  | None => ret tt
  end ;;
  resubscribeAll ;;
  perform (Resolve i).

(** A frame is [Some message] when [JSON.parse] gives a message
    object and [None] when the [try] block fails before
    [handleMessage] is entered. *)
Definition on_message (i : nat) (frame : option WebSocketMessage) : M unit :=
  try_catch
    match frame with
    | Some message => handleMessage message
    | None => throw (Error "SyntaxError" "Unexpected token")
    end
    (fun _ => ret tt).

Definition on_error (i : nat) (error : JsError) : M unit :=
  emit (OnError error) ;;
  perform (Reject (Some i) error).

Definition on_close (i : nat) (code : Z) (reason : string) : M unit :=
  modify (set_isConnected false) ;;
  stopHeartbeat ;;
  emit (Disconnected code reason) ;;
  s <- get ;;
  when (is_true (reconnect (config s))
        && (reconnectAttempts s <? orElse (maxReconnectAttempts (config s)) 10)%Z)
       scheduleReconnect.

Definition on_ping (i : nat) : M unit :=
  s <- get ;;
  match ws s with
  | Some j => ws_pong j
  | None => ret tt
  end.

(** The callback [scheduleReconnect] hands to [setTimeout]:
    [this.connect().catch(...)]. *)
Definition reconnect_fire : M unit := connect.

(** [disconnect()] *)
Definition disconnect : M unit :=
  modify (fun s => set_config (set_reconnect (Some false) (config s)) s) ;;
  s <- get ;;
  match reconnectTimeout s with
  | Some t => clearTimeout t
  | None => ret tt
  end ;;
  stopHeartbeat ;;
  s <- get ;;
  match ws s with
  | Some i => ws_close i ;; modify (set_ws None)
  | None => ret tt
  end ;;
  modify (set_isConnected false) ;;
  emit (Disconnected 1000 "Client disconnect").

(** [subscribe(channel, handler, market?)] *)
Definition subscribe (channel : WebSocketChannel) (handler : MessageHandler)
    (market : option string) : M unit :=
  let key := getSubscriptionKey (channel_value channel)
                                (option_map Js.JString market) in
  s <- get ;;
  when (negb (Js.has (subscriptions s) key))
       (modify (fun s => set_subscriptions (Js.set (subscriptions s) key []) s)) ;;
  s <- get ;;
  match Js.get (subscriptions s) key with
  | Some handlers =>
      modify (set_subscriptions
                (Js.set (subscriptions s) key (Js.set_add handlers handler)))
  | None => throw (Error "TypeError" "Cannot read properties of undefined")
  end ;;
  s <- get ;;
  when (isConnected s) (sendSubscribe (channel_value channel) market).

(** [unsubscribe(channel, handler?, market?)] *)
Definition unsubscribe (channel : WebSocketChannel)
    (handler : option MessageHandler) (market : option string) : M unit :=
  let key := getSubscriptionKey (channel_value channel)
                                (option_map Js.JString market) in
  match handler with
  | None =>
      modify (fun s => set_subscriptions (Js.delete (subscriptions s) key) s)
  | Some h =>
      s <- get ;;
      match Js.get (subscriptions s) key with
      | Some handlers =>
          let handlers' := Js.set_delete handlers h in
          modify (set_subscriptions (Js.set (subscriptions s) key handlers')) ;;
          when (Js.size handlers' =? 0)%nat
               (modify (fun s =>
                  set_subscriptions (Js.delete (subscriptions s) key) s))
      | None => ret tt
      end
  end ;;
  s <- get ;;
  when (isConnected s && negb (Js.has (subscriptions s) key))
       (sendUnsubscribe (channel_value channel) market).

(** *** The client as a machine: calls of its public methods and
    what the sockets and the timers deliver.  A socket event is
    taken only in a [readyState] in which the socket can raise it. *)
Inductive Input : Type :=
| CallConnect
| CallDisconnect
| CallSubscribe (c : WebSocketChannel) (h : MessageHandler) (market : option string)
| CallUnsubscribe (c : WebSocketChannel) (h : option MessageHandler)
                  (market : option string)
| CallOnError
| SocketOpen (i : nat) (now : Z)
| SocketMessage (i : nat) (frame : option WebSocketMessage)
| SocketError (i : nat) (e : JsError)
| SocketClose (i : nat) (code : Z) (reason : string)
| SocketPing (i : nat)
| TimeoutFires (t : nat)
| IntervalFires (t : nat).

Definition step (inp : Input) : M unit :=
  match inp with
  | CallConnect => connect
  | CallDisconnect => disconnect
  | CallSubscribe c h market => subscribe c h market
  | CallUnsubscribe c h market => unsubscribe c h market
  | CallOnError =>
      modify (fun s => set_errorListeners (S (errorListeners s)) s)
  | SocketOpen i now =>
      s <- get ;;
      match readyState s i with
      | Some CONNECTING => set_readyState i OPEN ;; on_open i now
      | _ => ret tt
      end
  | SocketMessage i frame =>
      s <- get ;;
      match readyState s i with
      | Some OPEN | Some CLOSING => on_message i frame
      | _ => ret tt
      end
  | SocketError i e =>
      s <- get ;;
      match readyState s i with
      | Some CLOSED | None => ret tt
      | Some _ => set_readyState i CLOSING ;; on_error i e
      end
  | SocketClose i code reason =>
      s <- get ;;
      match readyState s i with
      | Some CLOSED | None => ret tt
      | Some _ => set_readyState i CLOSED ;; on_close i code reason
      end
  | SocketPing i =>
      s <- get ;;
      match readyState s i with
      | Some OPEN => on_ping i
      | _ => ret tt
      end
  | TimeoutFires t =>
      s <- get ;;
      if mem_timer t (timeouts s) then
        modify (fun s => set_timeouts (remove_timer t (timeouts s)) s) ;;
        reconnect_fire
      else ret tt
  | IntervalFires t =>
      s <- get ;;
      if mem_timer t (intervals s) then heartbeat_tick else ret tt
  end.

Definition uncaught {A : Type} (r : Completion A) : list Effect :=
  match r with
  | Normal _ => []
  | Throw e => [Uncaught e]
  end.

Fixpoint run (inputs : list Input) (s : WebSocketClient)
  : WebSocketClient * list Effect :=
  match inputs with
  | [] => (s, [])
  | inp :: rest =>
      match step inp s with
      | (r, s1, t1) =>
          let (s2, t2) := run rest s1 in
          (s2, (t1 ++ uncaught r ++ t2)%list)
      end
  end.

(** The wire messages of a trace, with the socket they went to. *)
Fixpoint sent (t : list Effect) : list (nat * WireMessage) :=
  match t with
  | [] => []
  | WsSend i m :: rest => (i, m) :: sent rest
  | _ :: rest => sent rest
  end.

(** The handler calls of a trace. *)
Fixpoint calls (t : list Effect) : list (MessageHandler * Js.json) :=
  match t with
  | [] => []
  | Call h d :: rest => (h, d) :: calls rest
  | _ :: rest => calls rest
  end.

(** The socket the client would send on. *)
Definition open_socket (s : WebSocketClient) : option nat :=
  match ws s with
  | Some i => if is_open s i then Some i else None
  | None => None
  end.

End Methods.

End Ws.

(* ===================================================================== *)
(** ** The request executor: [EnclaveClient.request] *)
(* ===================================================================== *)

(** The URL, the headers (those of the authentication included) and the
    [console] output under [debug] have no part in what [request]
    decides and are left out. *)

Module Http.
Import Errors.

(** The part of [ClientConfig] the executor reads. *)
Record ClientConfig : Type := {
  timeout : option Z;
  maxRetries : option Z;
  retryDelay : option Z
}.

(** The private fields the constructor fills from the configuration. *)
Record EnclaveClient : Type := {
  client_timeout : Z;
  client_maxRetries : Z;
  client_retryDelay : Z
}.

Definition new_EnclaveClient (config : ClientConfig) : EnclaveClient :=
  {| client_timeout := Ws.orElse (timeout config) 30000%Z;
     client_maxRetries := Ws.orElse (maxRetries config) 3%Z;
     client_retryDelay := Ws.orElse (retryDelay config) 1000%Z |}.

(** [JSON.parse] throws or returns a value. *)
Record Runtime : Type := {
  JSON_parse : string -> Completion Js.json;
  JSON_stringify : Js.json -> string
}.

(** What the request object of one attempt is told: the response has
    ended with a status and the concatenated chunks, the request
    failed, or the socket stayed idle for the configured time.  The
    remote side fixes, for each attempt number, the events delivered
    to that attempt's request, in order. *)
Inductive ReqEvent : Type :=
| ResEnd (statusCode : option Z) (data : string)
| ReqError (error : JsError)
| ReqTimeout.

Definition Remote := Z -> list ReqEvent.

Inductive Effect : Type :=
| HttpsRequest (method path bodyString : string) (attempt : Z)
| SetTimeout (delay : Z)
| ReqDestroy (attempt : Z).

(** The promise [request] returns: settled at most once. *)
Inductive Promise : Type :=
| Pending
| Resolved (value : Js.json)
| Rejected (reason : JsError).

Definition resolve (value : Js.json) (p : Promise) : Promise :=
  match p with
  | Pending => Resolved value
  | _ => p
  end.

Definition reject (reason : JsError) (p : Promise) : Promise :=
  match p with
  | Pending => Rejected reason
  | _ => p
  end.

(** [inner.then(resolve).catch(reject)] *)
Definition forward (inner : Promise) (p : Promise) : Promise :=
  match inner with
  | Pending => p
  | Resolved v => resolve v p
  | Rejected e => reject e p
  end.

(** What a listener of the request does. *)
Inductive Action : Type :=
| DoResolve (value : Js.json)
| DoReject (reason : JsError)
| DoRetry (delay : Z).

Section Request.
Variable rt : Runtime.
Variable this : EnclaveClient.
Variable remote : Remote.

(** [this.retryDelay * Math.pow(2, attempt - 1)]; attempts count
    from 1. *)
Definition backoff (attempt : Z) : Z :=
  (client_retryDelay this * 2 ^ (attempt - 1))%Z.

(** [v.k] on a parsed value: a [TypeError] on [null]. *)
Definition prop (v : Js.json) (k : string) : Completion (option Js.json) :=
  match v with
  | Js.JNull => Throw (Error "TypeError" ("Cannot read properties of null (reading '" ++ k ++ "')"))
  | _ => Normal (Js.opt_prop v k)
  end.

(** The [try] block of the ['end'] listener. *)
Definition on_end_try (method path : string) (attempt : Z)
    (statusCode : option Z) (data : string) : Completion Action :=
  match statusCode with
  | None => Throw (ApiError (new_EnclaveApiError "No status code received" path method None None))
  | Some status =>
      if (status =? 0)%Z then
        Throw (ApiError (new_EnclaveApiError "No status code received" path method None None))
      else if (status =? 429)%Z && (attempt <=? client_maxRetries this)%Z then
        Normal (DoRetry (backoff attempt))
      else
        match (if Js.truthy data then JSON_parse rt data
               else Normal (Js.JObject [])) with
        | Throw e => Throw e
        | Normal parsed =>
            if (200 <=? status)%Z && (status <? 300)%Z then
              Normal (DoResolve parsed)
            else
              match prop parsed "error" with
              | Throw e => Throw e
              | Normal error_ =>
                  let errorMessage :=
                    Ws.orElse
                      (Js.nullish error_
                         (Js.nullish (Js.opt_prop parsed "message")
                            (Some (Js.JString data))))
                      (Js.JString "Request failed") in
                  Normal (DoReject
                            (ApiError
                               (new_EnclaveApiError (Js.to_string errorMessage)
                                  path method (Some status) (Some data))))
              end
        end
  end.

(** The ['end'] listener with its [catch]. *)
Definition on_end (method path : string) (attempt : Z)
    (statusCode : option Z) (data : string) : Action :=
  match on_end_try method path attempt statusCode data with
  | Normal a => a
  | Throw e =>
      DoReject
        (ApiError
           (new_EnclaveApiError
              ("Failed to parse response: " ++ String_of_error e)
              path method statusCode (Some data)))
  end.

(** The ['error'] listener. *)
Definition on_error (attempt : Z) (error : JsError) : Action :=
  if (attempt <=? client_maxRetries this)%Z then DoRetry (backoff attempt)
  else DoReject error.

(** The ['timeout'] listener, after its [req.destroy()]. *)
Definition on_timeout : Action :=
  DoReject
    (Error "Error"
       ("Request timeout after " ++ Js.string_of_Z (client_timeout this) ++ "ms")).

(** Events of one attempt, in order: the promise, the trace and the
    number of retries the listeners scheduled. *)
Definition act (a : Action) (st : Promise * list Effect * nat)
  : Promise * list Effect * nat :=
  match st with
  | (p, log, retries) =>
      match a with
      | DoResolve v => (resolve v p, log, retries)
      | DoReject e => (reject e p, log, retries)
      | DoRetry delay => (p, (log ++ [SetTimeout delay])%list, S retries)
      end
  end.

Definition deliver_one (method path : string) (attempt : Z) (ev : ReqEvent)
    (st : Promise * list Effect * nat) : Promise * list Effect * nat :=
  match ev with
  | ResEnd statusCode data => act (on_end method path attempt statusCode data) st
  | ReqError error => act (on_error attempt error) st
  | ReqTimeout =>
      match st with
      | (p, log, retries) =>
          act on_timeout (p, (log ++ [ReqDestroy attempt])%list, retries)
      end
  end.

Fixpoint deliver (method path : string) (attempt : Z) (events : list ReqEvent)
    (st : Promise * list Effect * nat) : Promise * list Effect * nat :=
  match events with
  | [] => st
  | ev :: rest =>
      deliver method path attempt rest (deliver_one method path attempt ev st)
  end.

(** The scheduled retries run once their delay has passed, after
    the events of the attempt that scheduled them; each settles the
    outer promise through [forward]. *)
Fixpoint run_retries (n : nat) (inner : option (Promise * list Effect))
    (p : Promise) (log : list Effect) : option (Promise * list Effect) :=
  match n with
  | O => Some (p, log)
  | S n' =>
      match inner with
      | None => None
      | Some (pi, li) => run_retries n' inner (forward pi p) (log ++ li)%list
      end
  end.

Definition bodyString_of (body : option Js.json) : string :=
  match body with
  | Some b => if Js.truthy_json b then JSON_stringify rt b else ""
  | None => ""
  end.

(** [request(method, path, body, attempt)], by recursion on a bound
    on the attempts still to come ([None] when the bound is too
    small). *)
Fixpoint request_fuel (fuel : nat) (method path : string)
    (body : option Js.json) (attempt : Z)
  : option (Promise * list Effect) :=
  match fuel with
  | O => None
  | S fuel' =>
      let bodyString := bodyString_of body in
      match deliver method path attempt (remote attempt)
              (Pending, [HttpsRequest method path bodyString attempt], O) with
      | (p, log, retries) =>
          run_retries retries
            (request_fuel fuel' method path body (attempt + 1)%Z) p log
      end
  end.

(** A retry is scheduled only while [attempt <= maxRetries], so the
    attempts from [attempt] on are at most
    [maxRetries + 1 - attempt], plus the one that gives up. *)
Definition request (method path : string) (body : option Js.json)
    (attempt : Z) : option (Promise * list Effect) :=
  request_fuel (S (Z.to_nat (client_maxRetries this + 1 - attempt)))
               method path body attempt.

(** The requests issued in a trace. *)
Fixpoint attempts (log : list Effect) : list Z :=
  match log with
  | [] => []
  | HttpsRequest _ _ _ a :: rest => a :: attempts rest
  | _ :: rest => attempts rest
  end.

(** The delays of the timers set in a trace. *)
Fixpoint delays (log : list Effect) : list Z :=
  match log with
  | [] => []
  | SetTimeout d :: rest => d :: delays rest
  | _ :: rest => delays rest
  end.

(** What an [async] method hands its caller. *)
Inductive Outcome : Type :=
| Unsettled
| Fulfilled (value : option Js.json)
| Failed (reason : JsError).

(** The body of [requestWithWrapper] after its [await]: a rejection of
    [request] is thrown on, a response whose [success] is falsy is
    turned into an [EnclaveApiError] built without status and body,
    and anything else yields its [result]. *)
Definition unwrap (method path : string) (p : Promise) : Outcome :=
  match p with
  | Pending => Unsettled
  | Rejected e => Failed e
  | Resolved response =>
      match prop response "success" with
      | Throw e => Failed e
      | Normal success =>
          if match success with
             | Some v => Js.truthy_json v
             | None => false
             end
          then Fulfilled (Js.opt_prop response "result")
          else
            Failed
              (ApiError
                 (new_EnclaveApiError
                    (Js.to_string
                       (Ws.orElse
                          (Js.nullish (Js.opt_prop response "error") None)
                          (Js.JString "Request failed")))
                    path method None None))
      end
  end.

(** [requestWithWrapper(method, path, body)] *)
Definition requestWithWrapper (method path : string) (body : option Js.json)
  : option (Outcome * list Effect) :=
  match request method path body 1 with
  | Some (p, log) => Some (unwrap method path p, log)
  | None => None
  end.

End Request.

End Http.

(* ===================================================================== *)
(** ** The streaming methods of [EnclaveClient] *)
(* ===================================================================== *)

Module Streaming.
Import Errors.

(** The fields of [EnclaveClient] its WebSocket methods read and write.
    The handlers passed in are the references the streaming client
    stores. *)
Record EnclaveClient : Type := {
  auth : option Ws.HmacAuth;
  environment : Ws.Environment;
  debug : bool;
  wsClient : option Ws.WebSocketClient
}.

Definition set_wsClient (v : option Ws.WebSocketClient) (e : EnclaveClient)
  : EnclaveClient :=
  {| auth := auth e; environment := environment e; debug := debug e;
     wsClient := v |}.

(** The client as the constructor leaves it, as far as streaming goes. *)
Definition new_EnclaveClient (auth0 : option Ws.HmacAuth)
    (environment0 : option Ws.Environment) (debug0 : option bool)
  : EnclaveClient :=
  {| auth := auth0;
     environment := Ws.orElse environment0 Ws.PROD_PERMISSIONLESS;
     debug := Ws.orElse debug0 false;
     wsClient := None |}.

Definition F (A : Type) : Type :=
  EnclaveClient -> Completion A * EnclaveClient * list Ws.Effect.

(** A method of the streaming client held in [wsClient], run on [w]. *)
Definition on_client {A : Type} (c : Ws.M A) (w : Ws.WebSocketClient) : F A :=
  fun e =>
    match c w with
    | (r, w', t) => (r, set_wsClient (Some w') e, t)
    end.

Definition not_connected {A : Type} : F A :=
  fun e =>
    (Throw (Error "Error" "WebSocket not connected. Call connectWebSocket() first."),
     e, []).

(** [connectWebSocket()] *)
Definition connectWebSocket : F unit :=
  fun e =>
    let w :=
      match wsClient e with
      | Some w => w
      | None =>
          Ws.new_WebSocketClient
            {| Ws.auth := auth e;
               Ws.environment := Some (environment e);
               Ws.debug := Some (debug e);
               Ws.reconnect := None;
               Ws.reconnectDelay := None;
               Ws.maxReconnectAttempts := None |}
      end in
    on_client Ws.connect w e.

(** [disconnectWebSocket()] *)
Definition disconnectWebSocket : F unit :=
  fun e =>
    match wsClient e with
    | Some w =>
        match Ws.disconnect w with
        | (Normal _, _, t) => (Normal tt, set_wsClient None e, t)
        | (Throw err, w', t) => (Throw err, set_wsClient (Some w') e, t)
        end
    | None => (Normal tt, e, [])
    end.

(** [subscribeTrades], [subscribeOrderBook]: a channel with a market. *)
Definition subscribe_public (c : Ws.WebSocketChannel) (market : string)
    (handler : Ws.MessageHandler) : F unit :=
  fun e =>
    match wsClient e with
    | None => not_connected e
    | Some w => on_client (Ws.subscribe c handler (Some market)) w e
    end.

Definition subscribeTrades := subscribe_public Ws.TRADES.
Definition subscribeOrderBook := subscribe_public Ws.ORDERBOOK.

(** [subscribeOrders], [subscribePositions]: a channel of the account. *)
Definition subscribe_private (c : Ws.WebSocketChannel) (what : string)
    (handler : Ws.MessageHandler) : F unit :=
  fun e =>
    match wsClient e with
    | None => not_connected e
    | Some w =>
        match auth e with
        | None =>
            (Throw (Error "Error"
                      ("Authentication required for " ++ what ++ " subscription.")),
             e, [])
        | Some _ => on_client (Ws.subscribe c handler None) w e
        end
    end.

Definition subscribeOrders := subscribe_private Ws.ORDERS "order".
Definition subscribePositions := subscribe_private Ws.POSITIONS "position".

(** [unsubscribeTrades], [unsubscribeOrderBook], [unsubscribeOrders],
    [unsubscribePositions] *)
Definition unsubscribe_from (c : Ws.WebSocketChannel) (market : option string)
    (handler : option Ws.MessageHandler) : F unit :=
  fun e =>
    match wsClient e with
    | Some w => on_client (Ws.unsubscribe c handler market) w e
    | None => (Normal tt, e, [])
    end.

Definition unsubscribeTrades (market : string) := unsubscribe_from Ws.TRADES (Some market).
Definition unsubscribeOrderBook (market : string) :=
  unsubscribe_from Ws.ORDERBOOK (Some market).
Definition unsubscribeOrders := unsubscribe_from Ws.ORDERS None.
Definition unsubscribePositions := unsubscribe_from Ws.POSITIONS None.

(** [isWebSocketConnected] *)
Definition isWebSocketConnected (e : EnclaveClient) : bool :=
  match wsClient e with
  | Some w => Ws.isConnected w
  | None => false
  end.

(** What happens to an [EnclaveClient]: calls of its streaming methods,
    and the socket and timer events of the streaming client it
    holds. *)
Inductive Action : Type :=
| ConnectWebSocket
| DisconnectWebSocket
| SubscribeTrades (market : string) (h : Ws.MessageHandler)
| SubscribeOrderBook (market : string) (h : Ws.MessageHandler)
| SubscribeOrders (h : Ws.MessageHandler)
| SubscribePositions (h : Ws.MessageHandler)
| UnsubscribeTrades (market : string) (h : option Ws.MessageHandler)
| UnsubscribeOrderBook (market : string) (h : option Ws.MessageHandler)
| UnsubscribeOrders (h : option Ws.MessageHandler)
| UnsubscribePositions (h : option Ws.MessageHandler)
| Deliver (ev : Ws.Input).

Definition is_event (inp : Ws.Input) : bool :=
  match inp with
  | Ws.SocketOpen _ _ | Ws.SocketMessage _ _ | Ws.SocketError _ _
  | Ws.SocketClose _ _ _ | Ws.SocketPing _ | Ws.TimeoutFires _
  | Ws.IntervalFires _ => true
  | _ => false
  end.

Section Run.
Variable rt : Ws.Runtime.

Definition act (a : Action) : F unit :=
  match a with
  | ConnectWebSocket => connectWebSocket
  | DisconnectWebSocket => disconnectWebSocket
  | SubscribeTrades market h => subscribeTrades market h
  | SubscribeOrderBook market h => subscribeOrderBook market h
  | SubscribeOrders h => subscribeOrders h
  | SubscribePositions h => subscribePositions h
  | UnsubscribeTrades market h => unsubscribeTrades market h
  | UnsubscribeOrderBook market h => unsubscribeOrderBook market h
  | UnsubscribeOrders h => unsubscribeOrders h
  | UnsubscribePositions h => unsubscribePositions h
  | Deliver ev =>
      fun e =>
        match wsClient e with
        | Some w => if is_event ev then on_client (Ws.step rt ev) w e
                    else (Normal tt, e, [])
        | None => (Normal tt, e, [])
        end
  end.

Fixpoint run (actions : list Action) (e : EnclaveClient)
  : EnclaveClient * list Ws.Effect :=
  match actions with
  | [] => (e, [])
  | a :: rest =>
      match act a e with
      | (r, e1, t1) =>
          let (e2, t2) := run rest e1 in
          (e2, (t1 ++ Ws.uncaught r ++ t2)%list)
      end
  end.

End Run.

End Streaming.

(* ===================================================================== *)
(** ** [HmacAuth.validateWebhookSignature] *)
(* ===================================================================== *)

Module Auth.
Import Errors.

Definition hex_digit (c : ascii) : option N :=
  let n := N_of_ascii c in
  if (48 <=? n)%N && (n <=? 57)%N then Some (n - 48)%N
  else if (97 <=? n)%N && (n <=? 102)%N then Some (n - 87)%N
  else if (65 <=? n)%N && (n <=? 70)%N then Some (n - 55)%N
  else None.

(** [Buffer.from(s, 'hex')]: one byte per pair of hexadecimal digits,
    cut at the first pair that is not one. *)
Fixpoint hex_decode (s : string) : list N :=
  match s with
  | String a (String b rest) =>
      match hex_digit a, hex_digit b with
      | Some x, Some y => (16 * x + y)%N :: hex_decode rest
      | _, _ => []
      end
  | _ => []
  end.

Fixpoint bytes_eqb (a b : list N) : bool :=
  match a, b with
  | [], [] => true
  | x :: a', y :: b' => (x =? y)%N && bytes_eqb a' b'
  | _, _ => false
  end.

(** [crypto.timingSafeEqual(a, b)]: buffers of different byte length
    are an error. *)
Definition timingSafeEqual (a b : list N) : Completion bool :=
  if (List.length a =? List.length b)%nat then Normal (bytes_eqb a b)
  else Throw (Error "RangeError" "Input buffers must have the same byte length").

Section Validate.
Variable rt : Ws.Runtime.

(** [validateWebhookSignature(signature, timestamp, body)] *)
Definition validateWebhookSignature (a : Ws.HmacAuth)
    (signature timestamp body : string) : Completion bool :=
  let payload := timestamp ++ body in
  let expectedSignature := Ws.hmac_sha256_hex rt (Ws.apiSecret a) payload in
  if negb (String.length signature =? String.length expectedSignature)%nat
  then Normal false
  else timingSafeEqual (hex_decode signature) (hex_decode expectedSignature).

End Validate.

End Auth.

(* ===================================================================== *)
(** ** [utils/rounding]: [getDecimalPlaces] *)
(* ===================================================================== *)

Module Rounding.

Definition dot : ascii := "."%char.

(** [getDecimalPlaces(increment)] *)
Definition getDecimalPlaces (increment : string) : nat :=
  let parts := Js.split dot increment in
  if (1 <? List.length parts)%nat
  then match nth_error parts 1 with
       | Some part => String.length part
       | None => 0%nat
       end
  else 0%nat.

End Rounding.

(* ===================================================================== *)
(** ** Vocabulary of the statements *)
(* ===================================================================== *)

Import Errors.
Local Open Scope ws_scope.

(** The wire messages an open socket [j] is handed, one per element. *)
Definition sends_to (o : option nat) (ms : list Ws.WireMessage) : list Ws.Effect :=
  match o with
  | Some j => map (Ws.WsSend j) ms
  | None => []
  end.

(** *** A unary logic for the methods: [c] keeps [f] when no run of
    [c] changes what [f] reads from the client. *)
Definition keeps {X A : Type} (f : Ws.WebSocketClient -> X) (c : Ws.M A) : Prop :=
  forall s, f (Ws.state_of (c s)) = f s.

(** The key [subscribe] and [unsubscribe] compute. *)
Definition key_of (c : Ws.WebSocketChannel) (market : option string) : string :=
  Ws.getSubscriptionKey (Ws.channel_value c) (option_map Js.JString market).

(** The registry after [subscribe]. *)
Definition subscribed (m : Js.Map Js.SetOf) (key : string) (h : Ws.MessageHandler)
  : Js.Map Js.SetOf :=
  let m1 := if Js.has m key then m else Js.set m key [] in
  Js.set m1 key (Js.set_add (Ws.orElse (Js.get m1 key) []) h).

(** The registry after [unsubscribe]. *)
Definition unsubscribed (m : Js.Map Js.SetOf) (key : string)
    (h : option Ws.MessageHandler) : Js.Map Js.SetOf :=
  match h with
  | None => Js.delete m key
  | Some h =>
      match Js.get m key with
      | Some handlers =>
          let handlers' := Js.set_delete handlers h in
          if (Js.size handlers' =? 0)%nat
          then Js.delete (Js.set m key handlers') key
          else Js.set m key handlers'
      | None => m
      end
  end.

(** The invariants of the registry: one entry per key, and every entry
    holds a handler set without repetition that is not empty. *)
Definition registry_ok (m : Js.Map Js.SetOf) : Prop :=
  NoDup (Js.keys m) /\
  forall k hs, In (k, hs) m -> hs <> [] /\ NoDup hs.

(** Does a call of [subscribe] hand a message to a socket? *)
Definition sends_on_subscribe (c : Ws.WebSocketChannel) (h : Ws.MessageHandler)
    (market : option string) (s : Ws.WebSocketClient) : bool :=
  match Ws.sent (Ws.trace_of (Ws.subscribe c h market s)) with
  | [] => false
  | _ :: _ => true
  end.

(** Is the handler about to be registered the first one of its key? *)
Definition first_handler (c : Ws.WebSocketChannel) (market : option string)
    (s : Ws.WebSocketClient) : bool :=
  negb (Js.has (Ws.subscriptions s) (key_of c market)).

(** The part of a qualifier in front of its first colon. *)
Definition before_colon (q : string) : string := hd "" (Js.split Js.colon q).

Fixpoint has_colon (q : string) : bool :=
  match q with
  | EmptyString => false
  | String c rest => Ascii.eqb c Js.colon || has_colon rest
  end.

Definition has_colon_opt (q : option string) : bool :=
  match q with
  | Some s => has_colon s
  | None => false
  end.

(** The [auth] control message of [authenticate], if credentials are
    configured. *)
Definition auth_messages (rt : Ws.Runtime) (s : Ws.WebSocketClient) (now : Z)
  : list Ws.WireMessage :=
  match Ws.auth (Ws.config s) with
  | Some a =>
      [Ws.OpAuth now (Ws.getApiKey a)
         (Ws.sign rt a (Js.string_of_Z now ++ "WS_AUTH"))]
  | None => []
  end.

(** What a successful open puts on the wire: the [auth] message, then
    one [subscribe] per key of the registry, in iteration order. *)
Definition replay (rt : Ws.Runtime) (s : Ws.WebSocketClient) (now : Z)
  : list Ws.WireMessage :=
  (auth_messages rt s now
   ++ map Ws.resubscribe_message (Js.keys (Ws.subscriptions s)))%list.

(** *** Values for the worked examples *)

(** Handlers that return, except handler 1, which throws. *)
Definition example_runtime : Ws.Runtime :=
  {| Ws.call := fun h _ =>
       if Nat.eqb h 1 then Some (Error "Error" "handler failed") else None;
     Ws.hmac_sha256_hex := fun _ _ => "signature" |}.

Definition no_config : Ws.WebSocketConfig :=
  {| Ws.auth := None; Ws.environment := None; Ws.debug := None;
     Ws.reconnect := None; Ws.reconnectDelay := None;
     Ws.maxReconnectAttempts := None |}.

Definition config_with_auth : Ws.WebSocketConfig :=
  {| Ws.auth := Some {| Ws.apiKey := "key"; Ws.apiSecret := "secret" |};
     Ws.environment := None; Ws.debug := None;
     Ws.reconnect := None; Ws.reconnectDelay := None;
     Ws.maxReconnectAttempts := None |}.

Definition data_frame (channel market : string) (sequence : option Z)
  : Ws.WebSocketMessage :=
  {| Ws.channel := channel;
     Ws.type := "update";
     Ws.data := Js.JObject [("market", Js.JString market)];
     Ws.sequence := sequence;
     Ws.timestamp := None |}.

(** The control responses [handleMessage] answers before any routing. *)
Definition is_control (m : Ws.WebSocketMessage) : bool :=
  String.eqb (Ws.type m) "subscribed"
  || String.eqb (Ws.type m) "unsubscribed"
  || String.eqb (Ws.type m) "error".

(** The loop of [handleMessage] over the handlers of a key. *)
Definition dispatch (rt : Ws.Runtime) (handlers : Js.SetOf) (payload : Js.json)
  : Ws.M unit :=
  Ws.forEach handlers (fun handler =>
    Ws.try_catch (Ws.invoke rt handler payload)
                 (fun error => Ws.emit (Ws.OnError error))).

(** What that loop does, told from the number of ['error'] listeners:
    each handler is called in turn; the error of a throwing handler is
    emitted when somebody listens, and leaves the loop when nobody
    does. *)
Fixpoint dispatch_result (rt : Ws.Runtime) (listeners : nat)
    (handlers : Js.SetOf) (payload : Js.json)
  : Completion unit * list Ws.Effect :=
  match handlers with
  | [] => (Normal tt, [])
  | h :: rest =>
      match Ws.call rt h payload with
      | None =>
          let (r, t) := dispatch_result rt listeners rest payload in
          (r, Ws.Call h payload :: t)
      | Some e =>
          if (listeners =? 0)%nat then (Throw e, [Ws.Call h payload])
          else
            let (r, t) := dispatch_result rt listeners rest payload in
            (r, Ws.Call h payload :: Ws.Emit (Ws.OnError e) :: t)
      end
  end.

(** The sequence value [handleMessage] records for a data frame. *)
Definition recorded (m : Ws.WebSocketMessage) (before : Z) : Z :=
  match Ws.sequence m with
  | Some n => if (n =? 0)%Z then before else n
  | None => before
  end.

(** The highest sequence value among frames, from a starting value. *)
Definition highest (start : Z) (frames : list Ws.WebSocketMessage) : Z :=
  fold_left (fun acc m => Z.max acc (Ws.orElse (Ws.sequence m) acc)) frames start.

(** The key a data frame is routed by. *)
Definition routing_key (m : Ws.WebSocketMessage) : string :=
  Ws.getSubscriptionKey (Ws.channel m) (Js.opt_prop (Ws.data m) "market").

(** *** The heartbeat and the open of a socket *)

(** The client after [stopHeartbeat()], after [startHeartbeat()] and
    after the ['open'] listener. *)
Definition heartbeat_stopped (s : Ws.WebSocketClient) : Ws.WebSocketClient :=
  match Ws.heartbeatInterval s with
  | Some t =>
      Ws.set_heartbeatInterval None
        (Ws.set_intervals (Ws.remove_timer t (Ws.intervals s)) s)
  | None => s
  end.

Definition heartbeat_started (s : Ws.WebSocketClient) : Ws.WebSocketClient :=
  let s1 := heartbeat_stopped s in
  Ws.set_heartbeatInterval (Some (Ws.timerCount s1))
    (Ws.set_timerCount (S (Ws.timerCount s1))
       (Ws.set_intervals (Ws.timerCount s1 :: Ws.intervals s1) s1)).

Definition opened (s : Ws.WebSocketClient) : Ws.WebSocketClient :=
  heartbeat_started (Ws.set_reconnectAttempts 0 (Ws.set_isConnected true s)).

(** *** Shutdown *)

(** What [socket.close()] does to the table of sockets. *)
Definition closing (i : nat) (socks : list Ws.ReadyState) : list Ws.ReadyState :=
  match nth_error socks i with
  | Some Ws.CLOSED | None => socks
  | Some _ => Ws.replace_nth i Ws.CLOSING socks
  end.

(** The client after [disconnect()] and the trace of that call. *)
Definition disconnected (s : Ws.WebSocketClient) : Ws.WebSocketClient :=
  {| Ws.ws := None;
     Ws.config := Ws.set_reconnect (Some false) (Ws.config s);
     Ws.subscriptions := Ws.subscriptions s;
     Ws.isConnected := false;
     Ws.reconnectAttempts := Ws.reconnectAttempts s;
     Ws.heartbeatInterval := None;
     Ws.sequenceNumber := Ws.sequenceNumber s;
     Ws.reconnectTimeout := Ws.reconnectTimeout s;
     Ws.sockets :=
       match Ws.ws s with
       | Some i => closing i (Ws.sockets s)
       | None => Ws.sockets s
       end;
     Ws.timeouts :=
       match Ws.reconnectTimeout s with
       | Some t => Ws.remove_timer t (Ws.timeouts s)
       | None => Ws.timeouts s
       end;
     Ws.intervals :=
       match Ws.heartbeatInterval s with
       | Some t => Ws.remove_timer t (Ws.intervals s)
       | None => Ws.intervals s
       end;
     Ws.timerCount := Ws.timerCount s;
     Ws.errorListeners := Ws.errorListeners s |}.

Definition disconnect_trace (s : Ws.WebSocketClient) : list Ws.Effect :=
  (match Ws.reconnectTimeout s with
   | Some t => [Ws.ClearTimeout t]
   | None => []
   end
   ++ match Ws.heartbeatInterval s with
      | Some t => [Ws.ClearInterval t]
      | None => []
      end
   ++ match Ws.ws s with
      | Some i => [Ws.WsClose i]
      | None => []
      end
   ++ [Ws.Emit (Ws.Disconnected 1000 "Client disconnect")])%list.

(** An effect that is no connection attempt, no scheduling of one, and
    no traffic on a socket. *)
Definition calm (e : Ws.Effect) : Prop :=
  match e with
  | Ws.WsNew _ _ | Ws.SetTimeout _ _ | Ws.WsPing _ | Ws.WsPong _
  | Ws.WsSend _ _ => False
  | _ => True
  end.

(** The client is shut: reconnection is off, no reconnect timer is
    pending, and no socket is held. *)
Definition shut (s : Ws.WebSocketClient) : Prop :=
  Ws.is_true (Ws.reconnect (Ws.config s)) = false
  /\ Ws.timeouts s = []
  /\ Ws.ws s = None.

(** [c] keeps a shut client shut and calm. *)
Definition quiet {A : Type} (c : Ws.M A) : Prop :=
  forall s, shut s -> shut (Ws.state_of (c s)) /\ Forall calm (Ws.trace_of (c s)).

Definition is_connect (inp : Ws.Input) : bool :=
  match inp with
  | Ws.CallConnect => true
  | _ => false
  end.

(** *** The request executor *)

(** [a, a+1, ..., a+n-1] *)
Fixpoint zseq (a : Z) (n : nat) : list Z :=
  match n with
  | O => []
  | S k => a :: zseq (a + 1) k
  end.

(** The trace of a call that is answered with the rate-limit status at
    [attempt] and at the [retries] attempts after it: every attempt but
    the last is followed by the timer of its retry. *)
Fixpoint rate_limited_log (this : Http.EnclaveClient)
    (method path bodyString : string) (attempt : Z) (retries : nat)
  : list Http.Effect :=
  match retries with
  | O => [Http.HttpsRequest method path bodyString attempt]
  | S k =>
      Http.HttpsRequest method path bodyString attempt
      :: Http.SetTimeout (Http.backoff this attempt)
      :: rate_limited_log this method path bodyString (attempt + 1) k
  end.

(** A status of the success range. *)
Definition is_success (status : Z) : bool :=
  (200 <=? status)%Z && (status <? 300)%Z.

(** Values for the worked examples: a parser that fails on ["<html>"]
    and otherwise returns an object with an [error] property, and the
    client built from an empty configuration. *)
Definition example_http_runtime : Http.Runtime :=
  {| Http.JSON_parse := fun s =>
       if String.eqb s "<html>"
       then Throw (Error "SyntaxError" "Unexpected token <")
       else Normal (Js.JObject [("error", Js.JString "rejected")]);
     Http.JSON_stringify := fun _ => "{}" |}.

Definition default_client : Http.EnclaveClient :=
  Http.new_EnclaveClient
    {| Http.timeout := None; Http.maxRetries := None; Http.retryDelay := None |}.

(** *** The close of a socket and the reconnect timer *)

(** The timers a trace sets, with their delays. *)
Fixpoint scheduled (t : list Ws.Effect) : list (nat * Z) :=
  match t with
  | [] => []
  | Ws.SetTimeout id delay :: rest => (id, delay) :: scheduled rest
  | _ :: rest => scheduled rest
  end.

(** The test of the ['close'] listener. *)
Definition will_reconnect (s : Ws.WebSocketClient) : bool :=
  Ws.is_true (Ws.reconnect (Ws.config s))
  && (Ws.reconnectAttempts s
      <? Ws.orElse (Ws.maxReconnectAttempts (Ws.config s)) 10)%Z.

(** The delay [scheduleReconnect] computes when the counter stands at
    [reconnectAttempts s] before the call. *)
Definition reconnect_delay (s : Ws.WebSocketClient) : Z :=
  (Ws.orElse (Ws.reconnectDelay (Ws.config s)) 5000
   * 2 ^ Z.min (Ws.reconnectAttempts s) 5)%Z.

(** The client after [scheduleReconnect()] and after the ['close']
    listener. *)
Definition reconnecting (s : Ws.WebSocketClient) : Ws.WebSocketClient :=
  Ws.set_reconnectTimeout (Some (Ws.timerCount s))
    (Ws.set_timerCount (S (Ws.timerCount s))
       (Ws.set_timeouts (Ws.timerCount s :: Ws.timeouts s)
          (Ws.set_reconnectAttempts (Ws.reconnectAttempts s + 1) s))).

Definition after_close (s : Ws.WebSocketClient) : Ws.WebSocketClient :=
  let s1 := heartbeat_stopped (Ws.set_isConnected false s) in
  if will_reconnect s then reconnecting s1 else s1.

(** The reconnect counter stays within its budget. *)
Definition attempts_ok (s : Ws.WebSocketClient) : Prop :=
  (0 <= Ws.reconnectAttempts s
   <= Z.max 0 (Ws.orElse (Ws.maxReconnectAttempts (Ws.config s)) 10))%Z.

(** The live interval timers are the one the client remembers. *)
Definition heartbeat_ok (s : Ws.WebSocketClient) : Prop :=
  Ws.intervals s =
  match Ws.heartbeatInterval s with
  | Some t => [t]
  | None => []
  end.

(** What the timers and the budget are read from. *)
Definition timer_view (s : Ws.WebSocketClient)
  : Z * option Z * option nat * list nat :=
  (Ws.reconnectAttempts s, Ws.maxReconnectAttempts (Ws.config s),
   Ws.heartbeatInterval s, Ws.intervals s).

(** The client with its sequence counter masked. *)
Definition forget_sequence (s : Ws.WebSocketClient) : Ws.WebSocketClient :=
  Ws.set_sequenceNumber 0 s.

(** A frame of [channel] whose data carries [market]. *)
Definition frame_for (channel market : string) (type : string)
    (rest : list (string * Js.json)) (sequence : option Z)
  : Ws.WebSocketMessage :=
  {| Ws.channel := channel;
     Ws.type := type;
     Ws.data := Js.JObject (("market", Js.JString market) :: rest);
     Ws.sequence := sequence;
     Ws.timestamp := None |}.

(** The two invariants, with the budget they are measured against. *)
Definition timers_ok (budget : option Z) (s : Ws.WebSocketClient) : Prop :=
  Ws.maxReconnectAttempts (Ws.config s) = budget
  /\ attempts_ok s
  /\ heartbeat_ok s.

(** An effect that stays inside the process: a handler call or an
    event of the emitter. *)
Definition local_only (e : Ws.Effect) : Prop :=
  match e with
  | Ws.Call _ _ | Ws.Emit _ => True
  | _ => False
  end.

(** *** Retries of the request executor *)

(** An event on which the listeners of an attempt that may still retry
    set the retry timer: a response with the rate-limit status, or a
    failure of the request. *)
Definition retryable (ev : Http.ReqEvent) : bool :=
  match ev with
  | Http.ResEnd (Some status) _ => (status =? 429)%Z
  | Http.ReqError _ => true
  | _ => false
  end.

(** The trace of [retries] attempts from [attempt] on, each followed by
    the timer of its retry. *)
Fixpoint retry_log (this : Http.EnclaveClient)
    (method path bodyString : string) (attempt : Z) (retries : nat)
  : list Http.Effect :=
  match retries with
  | O => []
  | S k =>
      Http.HttpsRequest method path bodyString attempt
      :: Http.SetTimeout (Http.backoff this attempt)
      :: retry_log this method path bodyString (attempt + 1) k
  end.

(** [data ? JSON.parse(data) : {}] *)
Definition parsed_body (rt : Http.Runtime) (data : string) : Completion Js.json :=
  if Js.truthy data then Http.JSON_parse rt data else Normal (Js.JObject []).

(** The promise has been resolved or rejected. *)
Definition settled (p : Http.Promise) : bool :=
  match p with
  | Http.Pending => false
  | _ => true
  end.

(** [!response.success] on a parsed response that is not [null]. *)
Definition success_flag (response : Js.json) : bool :=
  match Js.opt_prop response "success" with
  | Some v => Js.truthy_json v
  | None => false
  end.

(** *** The streaming methods of [EnclaveClient] *)

(** What the streaming client is built with and no streaming method
    changes: its credentials and the number of its ['error']
    listeners. *)
Definition facade_view (s : Ws.WebSocketClient) : option Ws.HmacAuth * nat :=
  (Ws.auth (Ws.config s), Ws.errorListeners s).

(** The key of a public channel, as [subscribeTrades] and
    [subscribeOrderBook] register it. *)
Definition public_key (k : string) : Prop :=
  exists market,
    k = key_of Ws.TRADES (Some market) \/ k = key_of Ws.ORDERBOOK (Some market).

(** The client a streaming method leaves. *)
Definition client_after {A : Type}
    (x : Completion A * Streaming.EnclaveClient * list Ws.Effect)
  : Streaming.EnclaveClient :=
  snd (fst x).

(** The streaming client an [EnclaveClient] holds carries the client's
    credentials and no ['error'] listener, and without credentials its
    registry holds keys of public channels only. *)
Definition facade_inv (e : Streaming.EnclaveClient) : Prop :=
  match Streaming.wsClient e with
  | Some w =>
      facade_view w = (Streaming.auth e, 0%nat)
      /\ (Streaming.auth e = None ->
          Forall public_key (Js.keys (Ws.subscriptions w)))
  | None => True
  end.

(** The streaming client [connectWebSocket] builds on its first call. *)
Definition new_streaming_client (e : Streaming.EnclaveClient) : Ws.WebSocketClient :=
  Ws.new_WebSocketClient
    {| Ws.auth := Streaming.auth e;
       Ws.environment := Some (Streaming.environment e);
       Ws.debug := Some (Streaming.debug e);
       Ws.reconnect := None;
       Ws.reconnectDelay := None;
       Ws.maxReconnectAttempts := None |}.

(** A streaming client after [connect()]: a new socket, held in [ws]. *)
Definition connecting (w : Ws.WebSocketClient) : Ws.WebSocketClient :=
  Ws.set_ws (Some (List.length (Ws.sockets w)))
    (Ws.set_sockets (Ws.sockets w ++ [Ws.CONNECTING])%list w).

(** The [auth] message of a client with credentials, on socket 0. *)
Definition auth_on_first_socket (rt : Ws.Runtime) (auth0 : option Ws.HmacAuth)
    (now : Z) : list (nat * Ws.WireMessage) :=
  match auth0 with
  | Some a =>
      [(0%nat, Ws.OpAuth now (Ws.getApiKey a)
                 (Ws.sign rt a (Js.string_of_Z now ++ "WS_AUTH")))]
  | None => []
  end.

(** *** Webhook signatures and increments *)

(** Every character of [s] is a hexadecimal digit. *)
Fixpoint all_hex (s : string) : bool :=
  match s with
  | EmptyString => true
  | String c rest =>
      match Auth.hex_digit c with
      | Some _ => all_hex rest
      | None => false
      end
  end.

(** The signature [validateWebhookSignature] compares with. *)
Definition expected_signature (rt : Ws.Runtime) (a : Ws.HmacAuth)
    (timestamp body : string) : string :=
  Ws.sign rt a (timestamp ++ body).

Fixpoint has_dot (s : string) : bool :=
  match s with
  | EmptyString => false
  | String c rest => Ascii.eqb c Rounding.dot || has_dot rest
  end.
(* ===================================================================== *)
(** ** Properties of the runtime pieces *)
(* ===================================================================== *)

Section MapFacts.
Context {V : Type}.
Implicit Types (m : Js.Map V) (k : string) (v : V).

Lemma has_get m k : Js.has m k = true <-> exists v, Js.get m k = Some v.
Proof.
  unfold Js.has. destruct (Js.get m k) as [v|]; split; intros H.
  - now exists v.
  - reflexivity.
  - discriminate.
  - destruct H as [v H]. discriminate.
Qed.

Lemma has_In_keys m k : Js.has m k = true <-> In k (Js.keys m).
Proof.
  unfold Js.has, Js.keys.
  induction m as [|[k' v'] m IH]; simpl.
  - split; [discriminate | tauto].
  - destruct (String.eqb_spec k k') as [->|Hne].
    + split; auto.
    + rewrite IH. split; [auto | intros [H|H]; [congruence | exact H]].
Qed.

Lemma get_set_same m k v : Js.get (Js.set m k v) k = Some v.
Proof.
  induction m as [|[k' v'] m IH]; simpl.
  - now rewrite String.eqb_refl.
  - destruct (String.eqb_spec k k') as [->|Hne]; simpl.
    + now rewrite String.eqb_refl.
    + destruct (String.eqb_spec k k'); [congruence | exact IH].
Qed.

Lemma keys_set_present m k v :
  Js.has m k = true -> Js.keys (Js.set m k v) = Js.keys m.
Proof.
  unfold Js.has, Js.keys.
  induction m as [|[k' v'] m IH]; simpl; [discriminate|].
  destruct (String.eqb_spec k k') as [->|Hne]; simpl; intros H.
  - reflexivity.
  - now rewrite IH.
Qed.

Lemma keys_set_absent m k v :
  Js.has m k = false -> Js.keys (Js.set m k v) = (Js.keys m ++ [k])%list.
Proof.
  unfold Js.has, Js.keys.
  induction m as [|[k' v'] m IH]; simpl; [reflexivity|].
  destruct (String.eqb_spec k k') as [->|Hne]; simpl; intros H.
  - discriminate.
  - now rewrite IH.
Qed.

Lemma In_set m k v k0 v0 :
  In (k0, v0) (Js.set m k v) -> (k0 = k /\ v0 = v) \/ In (k0, v0) m.
Proof.
  induction m as [|[k' v'] m IH]; simpl.
  - intros [H|[]]. injection H as <- <-. now left.
  - destruct (String.eqb_spec k k') as [->|Hne]; simpl.
    + intros [H|H]; [injection H as <- <-; now left | right; now right].
    + intros [H|H]; [right; now left|].
      destruct (IH H) as [?|?]; [now left | right; now right].
Qed.

Lemma In_delete m k k0 v0 :
  In (k0, v0) (Js.delete m k) -> k0 <> k /\ In (k0, v0) m.
Proof.
  induction m as [|[k' v'] m IH]; simpl; [tauto|].
  destruct (String.eqb_spec k k') as [->|Hne]; simpl.
  - intros H. destruct (IH H). split; [assumption | now right].
  - intros [H|H].
    + injection H as <- <-. split; [congruence | now left].
    + destruct (IH H). split; [assumption | now right].
Qed.

Lemma In_keys_delete m k k0 :
  In k0 (Js.keys (Js.delete m k)) -> k0 <> k /\ In k0 (Js.keys m).
Proof.
  unfold Js.keys. rewrite !in_map_iff.
  intros [[k1 v1] [<- H]]. simpl.
  destruct (In_delete _ _ _ _ H) as [Hne Hin].
  split; [assumption|]. now exists (k1, v1).
Qed.

Lemma has_delete m k : Js.has (Js.delete m k) k = false.
Proof.
  destruct (Js.has (Js.delete m k) k) eqn:E; [|reflexivity].
  apply has_In_keys, In_keys_delete in E. now destruct E.
Qed.

Lemma NoDup_keys_delete m k :
  NoDup (Js.keys m) -> NoDup (Js.keys (Js.delete m k)).
Proof.
  unfold Js.keys.
  induction m as [|[k' v'] m IH]; simpl; [auto|].
  intros H. inversion H as [|? ? Hnin Hnd]; subst.
  destruct (String.eqb_spec k k') as [->|Hne]; simpl; [auto|].
  constructor; [|auto].
  intros Hin. apply Hnin. now apply (In_keys_delete m k k').
Qed.

Lemma NoDup_keys_set m k v :
  NoDup (Js.keys m) -> NoDup (Js.keys (Js.set m k v)).
Proof.
  intros H. destruct (Js.has m k) eqn:E.
  - now rewrite keys_set_present.
  - rewrite keys_set_absent by assumption.
    apply NoDup_app; repeat split.
    + assumption.
    + constructor; [intros [] | constructor].
    + intros x Hx [<-|[]].
      apply has_In_keys in Hx. congruence.
Qed.

Lemma get_set_other m k k' v :
  k' <> k -> Js.get (Js.set m k v) k' = Js.get m k'.
Proof.
  intros Hne. induction m as [|[k0 v0] m IH]; simpl.
  - destruct (String.eqb_spec k' k); [congruence | reflexivity].
  - destruct (String.eqb_spec k k0) as [->|Hk]; simpl.
    + destruct (String.eqb_spec k' k0); [congruence | reflexivity].
    + destruct (String.eqb_spec k' k0); [reflexivity | exact IH].
Qed.

Lemma get_delete_other m k k' :
  k' <> k -> Js.get (Js.delete m k) k' = Js.get m k'.
Proof.
  intros Hne. induction m as [|[k0 v0] m IH]; simpl; [reflexivity|].
  destruct (String.eqb_spec k k0) as [->|Hk]; simpl.
  - destruct (String.eqb_spec k' k0); [congruence | exact IH].
  - destruct (String.eqb_spec k' k0); [reflexivity | exact IH].
Qed.

Lemma get_delete_same m k : Js.get (Js.delete m k) k = None.
Proof.
  pose proof (has_delete m k) as H. unfold Js.has in H.
  now destruct (Js.get (Js.delete m k) k).
Qed.
End MapFacts.

Section SetFacts.
Implicit Types (s : Js.SetOf) (h : nat).

Lemma set_has_In s h : Js.set_has s h = true <-> In h s.
Proof.
  unfold Js.set_has. rewrite existsb_exists. split.
  - intros [x [Hin Heq]]. apply Nat.eqb_eq in Heq. now subst.
  - intros Hin. exists h. split; [assumption | apply Nat.eqb_refl].
Qed.

Lemma set_add_In s h : In h (Js.set_add s h).
Proof.
  unfold Js.set_add. destruct (Js.set_has s h) eqn:E.
  - now apply set_has_In.
  - apply in_or_app. right. now left.
Qed.

Lemma set_add_nonempty s h : Js.set_add s h <> [].
Proof.
  intros H. pose proof (set_add_In s h) as Hin. rewrite H in Hin. inversion Hin.
Qed.

Lemma set_add_NoDup s h : NoDup s -> NoDup (Js.set_add s h).
Proof.
  intros H. unfold Js.set_add. destruct (Js.set_has s h) eqn:E; [assumption|].
  apply NoDup_app; repeat split.
  - assumption.
  - constructor; [intros [] | constructor].
  - intros x Hx [<-|[]]. apply set_has_In in Hx. congruence.
Qed.

Lemma set_delete_NoDup s h : NoDup s -> NoDup (Js.set_delete s h).
Proof. intros H. unfold Js.set_delete. now apply NoDup_filter. Qed.

Lemma set_delete_not_In s h : ~ In h (Js.set_delete s h).
Proof.
  unfold Js.set_delete. rewrite filter_In. intros [_ H].
  now rewrite Nat.eqb_refl in H.
Qed.

Lemma set_add_In_iff s h x : In x (Js.set_add s h) <-> x = h \/ In x s.
Proof.
  unfold Js.set_add. destruct (Js.set_has s h) eqn:E.
  - apply set_has_In in E. split; [now right | intros [->|H]; assumption].
  - rewrite in_app_iff. simpl. split.
    + intros [H|[H|[]]]; [now right | now left].
    + intros [->|H]; [right; now left | now left].
Qed.

Lemma set_delete_In_iff s h x : In x (Js.set_delete s h) <-> In x s /\ x <> h.
Proof.
  unfold Js.set_delete. rewrite filter_In.
  destruct (Nat.eqb_spec h x) as [->|Hne]; simpl.
  - split; [intros [_ H]; discriminate | intros [_ H]; now destruct H].
  - split; [intros [H _]; split; [assumption | congruence] | intros [H _]; now split].
Qed.
End SetFacts.

(* ===================================================================== *)
(** ** The streaming client: how methods run *)
(* ===================================================================== *)


(** Running the building blocks. *)
Lemma run_bind {A B : Type} (c : Ws.M A) (k : A -> Ws.M B) s :
  Ws.bind c k s =
  match c s with
  | (Normal a, s1, t1) =>
      match k a s1 with
      | (r, s2, t2) => (r, s2, (t1 ++ t2)%list)
      end
  | (Throw e, s1, t1) => (Throw e, s1, t1)
  end.
Proof. reflexivity. Qed.

Lemma run_send (m : Ws.WireMessage) s :
  Ws.send m s =
  (Normal tt, s,
   match Ws.open_socket s with
   | Some i => [Ws.WsSend i m]
   | None => []
   end).
Proof.
  unfold Ws.send, Ws.open_socket, Ws.bind, Ws.get, Ws.when, Ws.perform, Ws.ret.
  destruct (Ws.ws s) as [i|]; [|reflexivity].
  destruct (Ws.is_open s i); reflexivity.
Qed.

Lemma sent_app (t1 t2 : list Ws.Effect) :
  Ws.sent (t1 ++ t2) = (Ws.sent t1 ++ Ws.sent t2)%list.
Proof.
  induction t1 as [|e t1 IH]; simpl; [reflexivity|].
  destruct e; simpl; now rewrite ?IH.
Qed.

Lemma calls_app (t1 t2 : list Ws.Effect) :
  Ws.calls (t1 ++ t2) = (Ws.calls t1 ++ Ws.calls t2)%list.
Proof.
  induction t1 as [|e t1 IH]; simpl; [reflexivity|].
  destruct e; simpl; now rewrite ?IH.
Qed.

Lemma run_forEach_send {A : Type} (f : A -> Ws.WireMessage) (l : list A) s :
  Ws.forEach l (fun x => Ws.send (f x)) s =
  (Normal tt, s, sends_to (Ws.open_socket s) (map f l)).
Proof.
  induction l as [|x l IH]; simpl.
  - unfold Ws.ret, sends_to. now destruct (Ws.open_socket s).
  - rewrite run_bind, run_send, IH. unfold sends_to.
    destruct (Ws.open_socket s); reflexivity.
Qed.

Lemma run_resubscribeAll s :
  Ws.resubscribeAll s =
  (Normal tt, s,
   sends_to (Ws.open_socket s)
            (map Ws.resubscribe_message (Js.keys (Ws.subscriptions s)))).
Proof.
  unfold Ws.resubscribeAll. rewrite run_bind. unfold Ws.get.
  unfold Ws.sendSubscribe.
  rewrite (run_forEach_send Ws.resubscribe_message). reflexivity.
Qed.

Section Keeps.
Context {X : Type} (f : Ws.WebSocketClient -> X).

Lemma keeps_ret {A} (a : A) : keeps f (Ws.ret a).
Proof. intros s. reflexivity. Qed.

Lemma keeps_get : keeps f Ws.get.
Proof. intros s. reflexivity. Qed.

Lemma keeps_perform e : keeps f (Ws.perform e).
Proof. intros s. reflexivity. Qed.

Lemma keeps_throw {A} e : keeps f (@Ws.throw A e).
Proof. intros s. reflexivity. Qed.

Lemma keeps_modify g : (forall s, f (g s) = f s) -> keeps f (Ws.modify g).
Proof. intros H s. apply H. Qed.

Lemma keeps_bind {A B} (c : Ws.M A) (k : A -> Ws.M B) :
  keeps f c -> (forall a, keeps f (k a)) -> keeps f (Ws.bind c k).
Proof.
  intros Hc Hk s. unfold Ws.bind, Ws.state_of.
  specialize (Hc s). unfold Ws.state_of in Hc.
  destruct (c s) as [[[a|e] s1] t1]; simpl in *; [|assumption].
  specialize (Hk a s1). unfold Ws.state_of in Hk.
  destruct (k a s1) as [[r s2] t2]; simpl in *. congruence.
Qed.

Lemma keeps_try_catch {A} (c : Ws.M A) (h : JsError -> Ws.M A) :
  keeps f c -> (forall e, keeps f (h e)) -> keeps f (Ws.try_catch c h).
Proof.
  intros Hc Hh s. unfold Ws.try_catch, Ws.state_of.
  specialize (Hc s). unfold Ws.state_of in Hc.
  destruct (c s) as [[[a|e] s1] t1]; simpl in *; [assumption|].
  specialize (Hh e s1). unfold Ws.state_of in Hh.
  destruct (h e s1) as [[r s2] t2]; simpl in *. congruence.
Qed.

Lemma keeps_when b (c : Ws.M unit) : keeps f c -> keeps f (Ws.when b c).
Proof. intros H. destruct b; [exact H | apply keeps_ret]. Qed.

Lemma keeps_forEach {A} (l : list A) (g : A -> Ws.M unit) :
  (forall a, keeps f (g a)) -> keeps f (Ws.forEach l g).
Proof.
  intros H. induction l as [|x l IH]; simpl.
  - apply keeps_ret.
  - apply keeps_bind; [apply H | intros _; exact IH].
Qed.
End Keeps.

(** One step towards [keeps f c] for a method [c] built from the blocks
    above; [keeps_field] closes the goal when [f] is a field no
    [modify] of [c] touches. *)
Ltac keeps_step :=
  first
    [ progress intros
    | progress cbv zeta
    | apply keeps_ret | apply keeps_get | apply keeps_perform | apply keeps_throw
    | apply keeps_bind | apply keeps_try_catch | apply keeps_when
    | apply keeps_forEach
    | apply keeps_modify; intros; reflexivity
    | match goal with
      | |- keeps _ (match ?x with _ => _ end) => destruct x
      | |- keeps _ (if ?x then _ else _) => destruct x
      end ].

Ltac keeps_field := repeat keeps_step.

Section RegistryUntouched.
Variable rt : Ws.Runtime.

Lemma keeps_subscriptions_emit ev : keeps Ws.subscriptions (Ws.emit ev).
Proof. unfold Ws.emit. keeps_field. Qed.

Lemma keeps_subscriptions_send m : keeps Ws.subscriptions (Ws.send m).
Proof. unfold Ws.send. keeps_field. Qed.

Lemma keeps_subscriptions_stopHeartbeat : keeps Ws.subscriptions Ws.stopHeartbeat.
Proof. unfold Ws.stopHeartbeat, Ws.clearInterval. keeps_field. Qed.

Lemma keeps_subscriptions_connect : keeps Ws.subscriptions Ws.connect.
Proof. unfold Ws.connect, Ws.new_WebSocket. keeps_field. Qed.

Lemma keeps_subscriptions_disconnect : keeps Ws.subscriptions Ws.disconnect.
Proof.
  unfold Ws.disconnect, Ws.clearTimeout, Ws.ws_close, Ws.set_readyState.
  keeps_field; try apply keeps_subscriptions_stopHeartbeat;
    apply keeps_subscriptions_emit.
Qed.

Lemma keeps_subscriptions_handleMessage m :
  keeps Ws.subscriptions (Ws.handleMessage rt m).
Proof.
  unfold Ws.handleMessage, Ws.invoke.
  keeps_field; apply keeps_subscriptions_emit.
Qed.

Lemma keeps_subscriptions_on_open i now :
  keeps Ws.subscriptions (Ws.on_open rt i now).
Proof.
  unfold Ws.on_open, Ws.startHeartbeat, Ws.authenticate, Ws.resubscribeAll,
    Ws.sendSubscribe, Ws.setInterval.
  keeps_field;
    first [ apply keeps_subscriptions_emit
          | apply keeps_subscriptions_stopHeartbeat
          | apply keeps_subscriptions_send ].
Qed.

Lemma keeps_subscriptions_on_close i code reason :
  keeps Ws.subscriptions (Ws.on_close i code reason).
Proof.
  unfold Ws.on_close, Ws.scheduleReconnect, Ws.setTimeout.
  keeps_field;
    first [ apply keeps_subscriptions_emit
          | apply keeps_subscriptions_stopHeartbeat ].
Qed.
End RegistryUntouched.

(* ===================================================================== *)
(** ** The subscription registry *)
(* ===================================================================== *)

Lemma run_subscribe c h market s :
  Ws.subscribe c h market s =
  (Normal tt,
   Ws.set_subscriptions (subscribed (Ws.subscriptions s) (key_of c market) h) s,
   if Ws.isConnected s
   then sends_to (Ws.open_socket s)
                 [Ws.subscribe_message (Ws.channel_value c) market]
   else []).
Proof.
  unfold Ws.subscribe, subscribed, key_of.
  set (key := Ws.getSubscriptionKey _ _).
  unfold Ws.bind, Ws.get, Ws.when, Ws.modify, Ws.ret, Ws.sendSubscribe.
  destruct (Js.has (Ws.subscriptions s) key) eqn:Hhas; cbn [negb].
  - apply has_get in Hhas. destruct Hhas as [hs Hget].
    cbn -[Ws.send]. rewrite Hget. cbn -[Ws.send].
    destruct (Ws.isConnected s); cbn -[Ws.send]; [|reflexivity].
    rewrite run_send. reflexivity.
  - cbn -[Ws.send]. rewrite get_set_same. cbn -[Ws.send].
    destruct (Ws.isConnected s); cbn -[Ws.send]; [|reflexivity].
    rewrite run_send. reflexivity.
Qed.

Lemma run_unsubscribe c h market s :
  Ws.unsubscribe c h market s =
  let m' := unsubscribed (Ws.subscriptions s) (key_of c market) h in
  (Normal tt,
   Ws.set_subscriptions m' s,
   if Ws.isConnected s && negb (Js.has m' (key_of c market))
   then sends_to (Ws.open_socket s)
                 [Ws.unsubscribe_message (Ws.channel_value c) market]
   else []).
Proof.
  unfold Ws.unsubscribe, unsubscribed, key_of.
  set (key := Ws.getSubscriptionKey _ _).
  unfold Ws.bind, Ws.get, Ws.when, Ws.modify, Ws.ret, Ws.sendUnsubscribe.
  destruct h as [h|]; cbn -[Ws.send].
  - destruct (Js.get (Ws.subscriptions s) key) as [hs|] eqn:Hget; cbn -[Ws.send].
    + destruct (Js.size (Js.set_delete hs h) =? 0)%nat; cbn -[Ws.send];
        destruct (Ws.isConnected s); cbn -[Ws.send]; try reflexivity;
        match goal with
        | |- context [negb ?b] => destruct b; cbn -[Ws.send]; try reflexivity
        end; rewrite run_send; reflexivity.
    + destruct (Ws.isConnected s); cbn -[Ws.send].
      * destruct (Js.has (Ws.subscriptions s) key); cbn -[Ws.send];
          [|rewrite run_send]; destruct s; reflexivity.
      * destruct s; reflexivity.
  - destruct (Ws.isConnected s); cbn -[Ws.send]; try reflexivity.
    match goal with
    | |- context [negb ?b] => destruct b; cbn -[Ws.send]; try reflexivity
    end.
    rewrite run_send. reflexivity.
Qed.

Lemma registry_ok_get m k hs :
  registry_ok m -> Js.get m k = Some hs -> hs <> [] /\ NoDup hs.
Proof.
  intros [_ H] Hget. apply (H k).
  induction m as [|[k' v'] m IH]; simpl in *; [discriminate|].
  destruct (String.eqb_spec k k') as [->|Hne].
  - injection Hget as ->. now left.
  - right. apply IH; [|assumption].
    intros k0 hs0 Hin. apply (H k0). now right.
Qed.

Lemma registry_ok_set m k hs :
  registry_ok m -> hs <> [] -> NoDup hs -> registry_ok (Js.set m k hs).
Proof.
  intros [Hnd Hall] Hne Hhs. split.
  - now apply NoDup_keys_set.
  - intros k0 hs0 Hin. apply In_set in Hin.
    destruct Hin as [[-> ->]|Hin]; [now split | now apply (Hall k0)].
Qed.

Lemma set_set {V : Type} (m : Js.Map V) k v1 v2 :
  Js.set (Js.set m k v1) k v2 = Js.set m k v2.
Proof.
  induction m as [|[k' v'] m IH]; simpl.
  - now rewrite String.eqb_refl.
  - destruct (String.eqb_spec k k') as [->|Hne]; simpl.
    + now rewrite String.eqb_refl.
    + destruct (String.eqb_spec k k'); [congruence | now rewrite IH].
Qed.

Lemma registry_ok_delete (m : Js.Map Js.SetOf) k :
  NoDup (Js.keys m) ->
  (forall k0 hs, In (k0, hs) m -> k0 <> k -> hs <> [] /\ NoDup hs) ->
  registry_ok (Js.delete m k).
Proof.
  intros Hnd Hall. split.
  - now apply NoDup_keys_delete.
  - intros k0 hs0 Hin. apply In_delete in Hin. destruct Hin as [Hne Hin].
    now apply (Hall k0).
Qed.

Lemma registry_ok_subscribed m key h :
  registry_ok m -> registry_ok (subscribed m key h).
Proof.
  intros Hok. unfold subscribed.
  destruct (Js.has m key) eqn:Hhas.
  - apply has_get in Hhas. destruct Hhas as [hs Hget]. rewrite Hget. simpl.
    destruct (registry_ok_get _ _ _ Hok Hget) as [_ Hnd].
    apply registry_ok_set; [assumption | apply set_add_nonempty |].
    now apply set_add_NoDup.
  - rewrite get_set_same, set_set. simpl.
    apply registry_ok_set; [assumption | apply (set_add_nonempty [] h) |].
    apply (set_add_NoDup [] h). constructor.
Qed.

Lemma registry_ok_unsubscribed m key h :
  registry_ok m -> registry_ok (unsubscribed m key h).
Proof.
  intros Hok. unfold unsubscribed.
  destruct h as [h|].
  - destruct (Js.get m key) as [hs|] eqn:Hget; [|assumption].
    destruct (registry_ok_get _ _ _ Hok Hget) as [_ Hnd].
    destruct (Nat.eqb_spec (Js.size (Js.set_delete hs h)) 0) as [Hz|Hnz].
    + destruct Hok as [Hk Hall]. apply registry_ok_delete.
      * now apply NoDup_keys_set.
      * intros k0 hs0 Hin Hne. apply In_set in Hin.
        destruct Hin as [[-> _]|Hin]; [congruence | now apply (Hall k0)].
    + apply registry_ok_set; [assumption | | now apply set_delete_NoDup].
      intros E. apply Hnz. unfold Js.size. now rewrite E.
  - destruct Hok as [Hk Hall]. apply registry_ok_delete; [assumption|].
    intros k0 hs0 Hin _. now apply (Hall k0).
Qed.

Section RegistryInvariant.
Variable rt : Ws.Runtime.

Lemma keeps_subscriptions_step inp :
  match inp with
  | Ws.CallSubscribe _ _ _ | Ws.CallUnsubscribe _ _ _ => True
  | _ => keeps Ws.subscriptions (Ws.step rt inp)
  end.
Proof.
  destruct inp; try exact I; unfold Ws.step, Ws.set_readyState,
    Ws.reconnect_fire, Ws.on_message, Ws.on_error, Ws.on_ping, Ws.ws_pong,
    Ws.heartbeat_tick;
    repeat first
      [ apply keeps_subscriptions_connect
      | apply keeps_subscriptions_disconnect
      | apply keeps_subscriptions_on_open
      | apply keeps_subscriptions_on_close
      | apply keeps_subscriptions_handleMessage
      | apply keeps_subscriptions_emit
      | keeps_step ].
Qed.

Lemma step_registry_ok inp s :
  registry_ok (Ws.subscriptions s) ->
  registry_ok (Ws.subscriptions (Ws.state_of (Ws.step rt inp s))).
Proof.
  intros Hok.
  pose proof (keeps_subscriptions_step inp) as Hk.
  destruct inp; try (rewrite Hk; exact Hok).
  - simpl. rewrite run_subscribe. now apply registry_ok_subscribed.
  - simpl. rewrite run_unsubscribe. now apply registry_ok_unsubscribed.
Qed.

Lemma run_registry_ok inputs s :
  registry_ok (Ws.subscriptions s) ->
  registry_ok (Ws.subscriptions (fst (Ws.run rt inputs s))).
Proof.
  revert s. induction inputs as [|inp inputs IH]; intros s Hok; simpl.
  - exact Hok.
  - pose proof (step_registry_ok inp s Hok) as Hstep.
    unfold Ws.state_of in Hstep.
    destruct (Ws.step rt inp s) as [[r s1] t1]. simpl in Hstep.
    specialize (IH s1 Hstep).
    destruct (Ws.run rt inputs s1) as [s2 t2]. exact IH.
Qed.

(** C9.  From the state the constructor builds, whatever the calls
    and the socket and timer events that follow, the registry holds
    one entry per key and no entry with an empty handler set (nor
    with a handler twice), and a further [subscribe] or [unsubscribe]
    keeps it so.  Subscribing to a key already present leaves the
    list of keys as it is, subscribing to a new key appends it, and
    either way the handlers of the key are then the handler given and
    the handlers it had before, no more and no fewer.  An
    [unsubscribe] without a handler leaves no entry for the key; one
    with a handler leaves for the key the handlers it had other than
    the one given, and leaves an entry exactly when there is such a
    handler, so removing the last handler deletes the entry.  None of
    the three calls changes the entry of another key. *)
Theorem registry_invariants :
  forall (cfg : Ws.WebSocketConfig) (inputs : list Ws.Input)
         (c : Ws.WebSocketChannel) (h : Ws.MessageHandler)
         (market : option string),
    let s := fst (Ws.run rt inputs (Ws.new_WebSocketClient cfg)) in
    let m := Ws.subscriptions s in
    let key := key_of c market in
    let after_subscribe :=
      Ws.subscriptions (Ws.state_of (Ws.subscribe c h market s)) in
    let after_bulk :=
      Ws.subscriptions (Ws.state_of (Ws.unsubscribe c None market s)) in
    let after_one :=
      Ws.subscriptions (Ws.state_of (Ws.unsubscribe c (Some h) market s)) in
    let handlers_of := fun r : Js.Map Js.SetOf => Ws.orElse (Js.get r key) [] in
    registry_ok m
    /\ Js.keys after_subscribe
       = (if Js.has m key then Js.keys m else Js.keys m ++ [key])%list
    /\ In h (handlers_of after_subscribe)
    /\ Js.has after_bulk key = false
    /\ Js.has after_one key
       = match Js.get m key with
         | Some handlers => negb (Js.size (Js.set_delete handlers h) =? 0)%nat
         | None => false
         end
    /\ (forall x, In x (handlers_of after_subscribe)
                  <-> x = h \/ In x (handlers_of m))
    /\ (forall x, In x (handlers_of after_one)
                  <-> In x (handlers_of m) /\ x <> h)
    /\ (Js.has after_one key = true
        <-> exists x, In x (handlers_of m) /\ x <> h)
    /\ (forall k, k <> key ->
                  Js.get after_subscribe k = Js.get m k
                  /\ Js.get after_bulk k = Js.get m k
                  /\ Js.get after_one k = Js.get m k)
    /\ registry_ok after_subscribe
    /\ registry_ok after_bulk
    /\ registry_ok after_one.
Proof.
  intros cfg inputs c h market s m key after_subscribe after_bulk after_one
    handlers_of.
  assert (Hok : registry_ok m).
  { apply run_registry_ok. split; [constructor | intros ? ? []]. }
  assert (Es : after_subscribe = subscribed m key h).
  { unfold after_subscribe. now rewrite run_subscribe. }
  assert (Eb : after_bulk = unsubscribed m key None).
  { unfold after_bulk. now rewrite run_unsubscribe. }
  assert (Eo : after_one = unsubscribed m key (Some h)).
  { unfold after_one. now rewrite run_unsubscribe. }
  rewrite Es, Eb, Eo. clear Es Eb Eo after_subscribe after_bulk after_one.
  assert (Hsub : forall x, In x (handlers_of (subscribed m key h))
                           <-> x = h \/ In x (handlers_of m)).
  { intros x. unfold handlers_of, subscribed.
    rewrite get_set_same. cbn [Ws.orElse]. rewrite set_add_In_iff.
    destruct (Js.has m key) eqn:Hhas; [reflexivity|].
    rewrite get_set_same. unfold Js.has in Hhas.
    destruct (Js.get m key); [discriminate | reflexivity]. }
  assert (Hone : forall x, In x (handlers_of (unsubscribed m key (Some h)))
                           <-> In x (handlers_of m) /\ x <> h).
  { intros x. unfold handlers_of, unsubscribed.
    destruct (Js.get m key) as [hs|] eqn:Hget; cbn [Ws.orElse].
    - rewrite <- set_delete_In_iff.
      destruct (Nat.eqb_spec (Js.size (Js.set_delete hs h)) 0) as [Hz|Hnz].
      + rewrite get_delete_same. cbn [Ws.orElse].
        unfold Js.size in Hz. apply length_zero_iff_nil in Hz.
        rewrite Hz. reflexivity.
      + rewrite get_set_same. reflexivity.
    - rewrite Hget. cbn [Ws.orElse]. split; [intros [] | intros [[] _]]. }
  assert (Hhas : Js.has (unsubscribed m key (Some h)) key
                 = match Js.get m key with
                   | Some handlers =>
                       negb (Js.size (Js.set_delete handlers h) =? 0)%nat
                   | None => false
                   end).
  { unfold unsubscribed. destruct (Js.get m key) as [hs|] eqn:Hget.
    - destruct (Js.size (Js.set_delete hs h) =? 0)%nat; simpl.
      + apply has_delete.
      + unfold Js.has. now rewrite get_set_same.
    - unfold Js.has. now rewrite Hget. }
  split; [exact Hok|].
  split.
  { unfold subscribed. destruct (Js.has m key) eqn:Hk.
    - now rewrite keys_set_present.
    - rewrite set_set. now rewrite keys_set_absent. }
  split; [apply Hsub; now left|].
  split; [apply has_delete|].
  split; [exact Hhas|].
  split; [exact Hsub|].
  split; [exact Hone|].
  split.
  { rewrite Hhas. unfold handlers_of.
    destruct (Js.get m key) as [hs|]; cbn [Ws.orElse].
    - unfold Js.size.
      destruct (Js.set_delete hs h) as [|x l] eqn:Ed; simpl.
      + split; [discriminate|]. intros [x Hx].
        apply set_delete_In_iff in Hx. rewrite Ed in Hx. destruct Hx.
      + split; [|reflexivity]. intros _. exists x.
        apply set_delete_In_iff. rewrite Ed. now left.
    - split; [discriminate | intros [x [[] _]]]. }
  split.
  { intros k Hk. unfold subscribed, unsubscribed. repeat split.
    - rewrite get_set_other by assumption.
      destruct (Js.has m key); [reflexivity | now apply get_set_other].
    - now apply get_delete_other.
    - destruct (Js.get m key) as [hs|]; [|reflexivity].
      destruct (Js.size (Js.set_delete hs h) =? 0)%nat.
      + rewrite get_delete_other by assumption. now apply get_set_other.
      + now apply get_set_other. }
  split; [now apply registry_ok_subscribed|].
  split; now apply registry_ok_unsubscribed.
Qed.
End RegistryInvariant.

(* ===================================================================== *)
(** ** [subscribe] and the wire *)
(* ===================================================================== *)

(** C1, as stated, fails.  On a connected client whose key
    [tradesPerps:BTC-USD.P] already has handler 5, subscribing handler
    2 to the same key sends a [subscribe] message although the handler
    is not the first of its key. *)
Lemma subscribe_second_handler_sends :
  let s :=
    fst (Ws.run example_runtime
           [Ws.CallConnect; Ws.SocketOpen 0 0;
            Ws.CallSubscribe Ws.TRADES 5 (Some "BTC-USD.P")]
           (Ws.new_WebSocketClient no_config)) in
  ~ (sends_on_subscribe Ws.TRADES 2 (Some "BTC-USD.P") s = true <->
     first_handler Ws.TRADES (Some "BTC-USD.P") s = true
     /\ Ws.isConnected s = true).
Proof.
  vm_compute. intros [H _]. destruct (H eq_refl) as [H1 _]. discriminate H1.
Qed.

(** C1, amended.  [subscribe] always completes and registers the
    handler under its key, which is then a key of the registry (so the
    next open replays it); what it puts on the wire is one [subscribe]
    message when [isConnected] is set and the current socket is open,
    and nothing otherwise, whether or not the key had a handler
    before. *)
Theorem subscribe_sends_when_connected :
  forall (c : Ws.WebSocketChannel) (h : Ws.MessageHandler)
         (market : option string) (s : Ws.WebSocketClient),
    let r := Ws.subscribe c h market s in
    let key := key_of c market in
    Ws.completion_of r = Normal tt
    /\ In h (Ws.orElse (Js.get (Ws.subscriptions (Ws.state_of r)) key) [])
    /\ In key (Js.keys (Ws.subscriptions (Ws.state_of r)))
    /\ Ws.trace_of r =
       (if Ws.isConnected s
        then sends_to (Ws.open_socket s)
                      [Ws.subscribe_message (Ws.channel_value c) market]
        else [])
    /\ (sends_on_subscribe c h market s = true <->
        Ws.isConnected s = true /\ Ws.open_socket s <> None).
Proof.
  intros c h market s r key. subst r.
  unfold sends_on_subscribe. rewrite run_subscribe.
  unfold Ws.completion_of, Ws.state_of, Ws.trace_of.
  cbn [fst snd Ws.subscriptions Ws.set_subscriptions]. fold key.
  assert (Hget : Js.get (subscribed (Ws.subscriptions s) key h) key
                 = Some (Js.set_add
                           (Ws.orElse
                              (Js.get (if Js.has (Ws.subscriptions s) key
                                       then Ws.subscriptions s
                                       else Js.set (Ws.subscriptions s) key [])
                                      key) []) h)).
  { unfold subscribed. apply get_set_same. }
  repeat split.
  - rewrite Hget. simpl. apply set_add_In.
  - apply has_In_keys. apply has_get. eexists. exact Hget.
  - destruct (Ws.isConnected s); [|discriminate].
    reflexivity.
  - destruct (Ws.isConnected s); [|discriminate].
    destruct (Ws.open_socket s); [discriminate | simpl in *; discriminate].
  - intros [Hc Ho]. rewrite Hc.
    destruct (Ws.open_socket s); [reflexivity | congruence].
Qed.

(* ===================================================================== *)
(** ** Keys and their replay *)
(* ===================================================================== *)

Lemma split_nonempty sep s : Js.split sep s <> [].
Proof.
  destruct s as [|c s]; simpl; [discriminate|].
  destruct (Ascii.eqb c sep); [discriminate|].
  destruct (Js.split sep s); discriminate.
Qed.

Lemma split_no_colon s : has_colon s = false -> Js.split Js.colon s = [s].
Proof.
  induction s as [|c s IH]; simpl; [reflexivity|].
  destruct (Ascii.eqb c Js.colon); simpl; [discriminate|].
  intros H. now rewrite IH.
Qed.

Lemma split_app_colon a b :
  has_colon a = false ->
  Js.split Js.colon (a ++ String Js.colon b) = a :: Js.split Js.colon b.
Proof.
  induction a as [|c a IH]; simpl.
  - intros _. reflexivity.
  - destruct (Ascii.eqb c Js.colon); simpl; [discriminate|].
    intros H. now rewrite IH.
Qed.

Lemma before_colon_no_colon q : has_colon (before_colon q) = false.
Proof.
  unfold before_colon.
  induction q as [|c q IH]; simpl; [reflexivity|].
  destruct (Ascii.eqb c Js.colon) eqn:E; simpl; [reflexivity|].
  destruct (Js.split Js.colon q) as [|p ps] eqn:Es; simpl in *.
  - now rewrite E.
  - now rewrite E, IH.
Qed.

Lemma channel_value_no_colon c : has_colon (Ws.channel_value c) = false.
Proof. destruct c; reflexivity. Qed.

Lemma has_colon_truthy q : has_colon q = true -> Js.truthy q = true.
Proof. destruct q; [discriminate | reflexivity]. Qed.

(** The message the replay loop builds from the key of a pair. *)
Lemma resubscribe_message_key c market :
  Ws.resubscribe_message (key_of c market) =
  Ws.subscribe_message (Ws.channel_value c) (option_map before_colon market).
Proof.
  unfold Ws.resubscribe_message, key_of, Ws.getSubscriptionKey.
  pose proof (channel_value_no_colon c) as Hc.
  destruct market as [q|]; simpl option_map; cbv iota beta.
  - simpl Js.truthy_json. simpl Js.to_string.
    destruct (Js.truthy q) eqn:Hq.
    + change (Ws.channel_value c ++ ":" ++ q)
        with (Ws.channel_value c ++ String Js.colon q).
      rewrite split_app_colon by assumption.
      unfold before_colon.
      pose proof (split_nonempty Js.colon q) as Hne.
      destruct (Js.split Js.colon q) as [|p ps]; [congruence|]. reflexivity.
    + rewrite split_no_colon by assumption.
      unfold Js.truthy in Hq. apply negb_false_iff, String.eqb_eq in Hq. subst q.
      reflexivity.
  - rewrite split_no_colon by assumption. reflexivity.
Qed.

(** C10.  After [subscribe(c, h, market)] on an empty registry, the
    replay loop sends the message [sendSubscribe] builds for the
    channel and the part of the qualifier in front of its first colon;
    that is the message of the original pair exactly when the qualifier
    holds no colon. *)
Theorem replay_key_roundtrip :
  forall (c : Ws.WebSocketChannel) (h : Ws.MessageHandler)
         (market : option string) (s : Ws.WebSocketClient),
    let s0 := Ws.set_subscriptions [] s in
    let s1 := Ws.state_of (Ws.subscribe c h market s0) in
    key_of c market =
      (match market with
       | Some q => if Js.truthy q then Ws.channel_value c ++ ":" ++ q
                   else Ws.channel_value c
       | None => Ws.channel_value c
       end)
    /\ Ws.trace_of (Ws.resubscribeAll s1) =
       sends_to (Ws.open_socket s)
         [Ws.subscribe_message (Ws.channel_value c)
                               (option_map before_colon market)]
    /\ (Ws.subscribe_message (Ws.channel_value c) (option_map before_colon market)
        = Ws.subscribe_message (Ws.channel_value c) market
        <-> has_colon_opt market = false).
Proof.
  intros c h market s s0 s1.
  split; [|split].
  - unfold key_of, Ws.getSubscriptionKey. destruct market as [q|]; reflexivity.
  - subst s1 s0. rewrite run_subscribe, run_resubscribeAll.
    unfold Ws.state_of, Ws.trace_of.
    cbn [fst snd Ws.subscriptions Ws.set_subscriptions].
    unfold subscribed. cbn [Js.has Js.get Js.set Js.keys map fst].
    rewrite String.eqb_refl. cbn [map fst].
    rewrite resubscribe_message_key. reflexivity.
  - destruct market as [q|]; simpl; [|tauto].
    split.
    + intros H. destruct (has_colon q) eqn:Hq; [exfalso | reflexivity].
      unfold Ws.subscribe_message in H. simpl in H.
      rewrite (has_colon_truthy q Hq) in H.
      pose proof (before_colon_no_colon q) as Hb.
      destruct (Js.truthy (before_colon q)); [|discriminate].
      injection H as H. rewrite H in Hb. congruence.
    + intros Hq. unfold before_colon. now rewrite split_no_colon.
Qed.

(* ===================================================================== *)
(** ** The open of a socket and the replay of the registry *)
(* ===================================================================== *)

Lemma sent_sends_to o ms :
  Ws.sent (sends_to o ms) =
  match o with
  | Some j => map (pair j) ms
  | None => []
  end.
Proof.
  destruct o as [j|]; simpl; [|reflexivity].
  induction ms as [|m ms IH]; simpl; [reflexivity | now rewrite IH].
Qed.

Lemma sends_to_app o ms1 ms2 :
  sends_to o (ms1 ++ ms2) = (sends_to o ms1 ++ sends_to o ms2)%list.
Proof. destruct o; simpl; [apply map_app | reflexivity]. Qed.

Lemma run_get_bind {B : Type} (k : Ws.WebSocketClient -> Ws.M B) s :
  Ws.bind Ws.get k s = k s s.
Proof.
  unfold Ws.bind, Ws.get. destruct (k s s) as [[r s2] t2]. reflexivity.
Qed.

Lemma run_modify_bind {B : Type} f (k : unit -> Ws.M B) s :
  Ws.bind (Ws.modify f) k s = k tt (f s).
Proof.
  unfold Ws.bind, Ws.modify. destruct (k tt (f s)) as [[r s2] t2]. reflexivity.
Qed.

Section Open.
Variable rt : Ws.Runtime.

Lemma run_emit_plain ev s :
  match ev with Ws.OnError _ => False | _ => True end ->
  Ws.emit ev s = (Normal tt, s, [Ws.Emit ev]).
Proof. destruct ev; intros H; try reflexivity. destruct H. Qed.

Lemma run_stopHeartbeat s :
  Ws.stopHeartbeat s =
  (Normal tt, heartbeat_stopped s,
   match Ws.heartbeatInterval s with
   | Some t => [Ws.ClearInterval t]
   | None => []
   end).
Proof.
  unfold Ws.stopHeartbeat, heartbeat_stopped. rewrite run_get_bind.
  destruct (Ws.heartbeatInterval s) as [t|]; [reflexivity|].
  destruct s; reflexivity.
Qed.

Lemma run_startHeartbeat s :
  Ws.startHeartbeat s =
  (Normal tt, heartbeat_started s,
   match Ws.heartbeatInterval s with
   | Some t => [Ws.ClearInterval t]
   | None => []
   end ++ [Ws.SetInterval (Ws.timerCount s) 30000])%list.
Proof.
  unfold Ws.startHeartbeat. rewrite run_bind, run_stopHeartbeat.
  cbv beta iota. unfold Ws.setInterval.
  rewrite run_bind, run_get_bind, run_modify_bind.
  unfold heartbeat_started, heartbeat_stopped.
  destruct (Ws.heartbeatInterval s); reflexivity.
Qed.

Lemma run_authenticate_if_configured now s :
  match Ws.auth (Ws.config s) with
  | Some _ => Ws.authenticate rt now
  | None => Ws.ret tt
  end s
  = (Normal tt, s, sends_to (Ws.open_socket s) (auth_messages rt s now)).
Proof.
  unfold auth_messages, Ws.authenticate.
  destruct (Ws.auth (Ws.config s)) as [a|] eqn:Ha.
  - rewrite run_get_bind, Ha, run_send. unfold sends_to.
    destruct (Ws.open_socket s); reflexivity.
  - unfold sends_to. destruct (Ws.open_socket s); reflexivity.
Qed.

Lemma open_socket_heartbeat_started s :
  Ws.open_socket (heartbeat_started s) = Ws.open_socket s.
Proof.
  unfold heartbeat_started, heartbeat_stopped.
  destruct (Ws.heartbeatInterval s); reflexivity.
Qed.

Lemma auth_messages_heartbeat_started s now :
  auth_messages rt (heartbeat_started s) now = auth_messages rt s now.
Proof.
  unfold heartbeat_started, heartbeat_stopped.
  destruct (Ws.heartbeatInterval s); reflexivity.
Qed.

Lemma subscriptions_heartbeat_started s :
  Ws.subscriptions (heartbeat_started s) = Ws.subscriptions s.
Proof.
  unfold heartbeat_started, heartbeat_stopped.
  destruct (Ws.heartbeatInterval s); reflexivity.
Qed.

(** The ['open'] listener, run. *)
Lemma run_on_open_eq i now s :
  Ws.on_open rt i now s =
  (Normal tt, opened s,
   (Ws.Emit Ws.Connected
    :: match Ws.heartbeatInterval s with
       | Some t => [Ws.ClearInterval t]
       | None => []
       end
    ++ [Ws.SetInterval (Ws.timerCount s) 30000]
    ++ sends_to (Ws.open_socket s) (replay rt s now)
    ++ [Ws.Resolve i])%list).
Proof.
  unfold Ws.on_open.
  rewrite !run_modify_bind.
  rewrite run_bind, run_emit_plain by exact I. cbv beta iota.
  rewrite run_bind, run_startHeartbeat. cbv beta iota.
  rewrite run_get_bind.
  rewrite run_bind, run_authenticate_if_configured. cbv beta iota.
  rewrite run_bind, run_resubscribeAll. cbv beta iota.
  unfold Ws.perform.
  rewrite open_socket_heartbeat_started, auth_messages_heartbeat_started,
    subscriptions_heartbeat_started.
  unfold replay. rewrite sends_to_app, <- !app_assoc. reflexivity.
Qed.

Lemma sent_hb_trace (o : option nat) (n : nat) (rest : list Ws.Effect) :
  Ws.sent (match o with
           | Some t => [Ws.ClearInterval t]
           | None => []
           end ++ [Ws.SetInterval n 30000] ++ rest)
  = Ws.sent rest.
Proof. destruct o; reflexivity. Qed.

Lemma run_on_open i now s :
  Ws.completion_of (Ws.on_open rt i now s) = Normal tt
  /\ Ws.sent (Ws.trace_of (Ws.on_open rt i now s))
     = Ws.sent (sends_to (Ws.open_socket s) (replay rt s now))
  /\ Ws.subscriptions (Ws.state_of (Ws.on_open rt i now s)) = Ws.subscriptions s
  /\ Ws.isConnected (Ws.state_of (Ws.on_open rt i now s)) = true.
Proof.
  rewrite run_on_open_eq.
  unfold Ws.completion_of, Ws.trace_of, Ws.state_of. cbn [fst snd].
  split; [reflexivity|]. split; [|split].
  - cbn [Ws.sent]. rewrite sent_hb_trace, sent_app. cbn [Ws.sent].
    apply app_nil_r.
  - unfold opened. now rewrite subscriptions_heartbeat_started.
  - unfold opened, heartbeat_started, heartbeat_stopped.
    cbn [Ws.heartbeatInterval Ws.set_reconnectAttempts Ws.set_isConnected].
    destruct (Ws.heartbeatInterval s); reflexivity.
Qed.

(** The [open] event of a socket, as [step] takes it. *)
Lemma step_open i now s :
  Ws.readyState s i = Some Ws.CONNECTING ->
  Ws.step rt (Ws.SocketOpen i now) s
  = Ws.on_open rt i now
      (Ws.set_sockets (Ws.replace_nth i Ws.OPEN (Ws.sockets s)) s).
Proof.
  intros Hst. unfold Ws.step. rewrite run_get_bind, Hst.
  unfold Ws.set_readyState. now rewrite run_modify_bind.
Qed.

Lemma nth_error_replace_nth {A : Type} (l : list A) i v x :
  nth_error l i = Some x -> nth_error (Ws.replace_nth i v l) i = Some v.
Proof.
  revert i. induction l as [|y l IH]; intros [|i] H; simpl in *;
    try discriminate; [reflexivity | now apply IH].
Qed.

(** C2, amended.  When the socket the client currently holds opens,
    the wire carries, on that socket and in this order, the [auth]
    message if credentials are configured and then one [subscribe] per
    key of the registry in iteration order, each built by splitting
    the key at its colons.  This holds of every open: a second
    [connect()] creates a new socket, and its open replays the
    registry again. *)
Theorem open_replays_registry :
  forall (i : nat) (now : Z) (s : Ws.WebSocketClient),
    Ws.ws s = Some i ->
    Ws.readyState s i = Some Ws.CONNECTING ->
    let r := Ws.step rt (Ws.SocketOpen i now) s in
    Ws.completion_of r = Normal tt
    /\ Ws.sent (Ws.trace_of r) = map (pair i) (replay rt s now)
    /\ replay rt s now
       = (auth_messages rt s now
          ++ map Ws.resubscribe_message (Js.keys (Ws.subscriptions s)))%list
    /\ List.length (replay rt s now)
       = (List.length (auth_messages rt s now)
          + List.length (Js.keys (Ws.subscriptions s)))%nat.
Proof.
  intros i now s Hws Hst r. subst r.
  rewrite (step_open i now s Hst).
  destruct (run_on_open i now
              (Ws.set_sockets (Ws.replace_nth i Ws.OPEN (Ws.sockets s)) s))
    as (Hc & Hs & _ & _).
  split; [exact Hc|]. split; [|split].
  - rewrite Hs, sent_sends_to.
    change (replay rt (Ws.set_sockets _ s) now) with (replay rt s now).
    unfold Ws.open_socket, Ws.is_open, Ws.readyState in *.
    cbn [Ws.ws Ws.sockets Ws.set_sockets]. rewrite Hws.
    now rewrite (nth_error_replace_nth _ _ _ _ Hst).
  - reflexivity.
  - unfold replay. now rewrite length_app, length_map.
Qed.
End Open.

(** C2, as stated, fails in its last part.  With latent subscriptions
    for two keys and the first connection open, a second [connect()]
    followed by the open of its socket sends both [subscribe] messages
    once more. *)
Lemma second_connect_replays_again :
  let s1 :=
    fst (Ws.run example_runtime
           [Ws.CallSubscribe Ws.TRADES 5 (Some "BTC-USD.P");
            Ws.CallSubscribe Ws.ORDERS 6 None;
            Ws.CallConnect; Ws.SocketOpen 0 0]
           (Ws.new_WebSocketClient no_config)) in
  Ws.sent (snd (Ws.run example_runtime [Ws.CallConnect; Ws.SocketOpen 1 1] s1))
  = [(1, Ws.OpSubscribe "tradesPerps" (Some "BTC-USD.P"));
     (1, Ws.OpSubscribe "ordersPerps" None)]
  /\ Ws.sent (snd (Ws.run example_runtime [Ws.CallConnect; Ws.SocketOpen 1 1] s1))
     <> [].
Proof. vm_compute. split; [reflexivity | discriminate]. Qed.

(** The same on a client with credentials and two latent
    subscriptions, at the open of its first socket. *)
Lemma open_replays_registry_witness :
  let s :=
    fst (Ws.run example_runtime
           [Ws.CallSubscribe Ws.TRADES 5 (Some "BTC-USD.P");
            Ws.CallSubscribe Ws.ORDERS 6 None; Ws.CallConnect]
           (Ws.new_WebSocketClient config_with_auth)) in
  Ws.sent (Ws.trace_of (Ws.step example_runtime (Ws.SocketOpen 0 7) s))
  = [(0, Ws.OpAuth 7 "key" "signature");
     (0, Ws.OpSubscribe "tradesPerps" (Some "BTC-USD.P"));
     (0, Ws.OpSubscribe "ordersPerps" None)].
Proof.
  intros s.
  destruct (open_replays_registry example_runtime 0 7 s
              ltac:(vm_compute; reflexivity) ltac:(vm_compute; reflexivity))
    as (_ & H & _).
  rewrite H. vm_compute. reflexivity.
Defined.


(* ===================================================================== *)
(** ** Inbound frames: dispatch and the sequence counter *)
(* ===================================================================== *)

Section Inbound.
Variable rt : Ws.Runtime.

Lemma run_guarded_call h payload s :
  Ws.try_catch (Ws.invoke rt h payload)
               (fun error => Ws.emit (Ws.OnError error)) s =
  match Ws.call rt h payload with
  | None => (Normal tt, s, [Ws.Call h payload])
  | Some e =>
      if (Ws.errorListeners s =? 0)%nat
      then (Throw e, s, [Ws.Call h payload])
      else (Normal tt, s, [Ws.Call h payload; Ws.Emit (Ws.OnError e)])
  end.
Proof.
  unfold Ws.try_catch, Ws.invoke, Ws.emit, Ws.bind, Ws.perform, Ws.get,
    Ws.throw, Ws.ret.
  destruct (Ws.call rt h payload) as [e|]; [|reflexivity].
  destruct (Ws.errorListeners s =? 0)%nat; reflexivity.
Qed.

Lemma run_dispatch handlers payload s :
  dispatch rt handlers payload s =
  (fst (dispatch_result rt (Ws.errorListeners s) handlers payload), s,
   snd (dispatch_result rt (Ws.errorListeners s) handlers payload)).
Proof.
  unfold dispatch.
  induction handlers as [|h rest IH]; simpl; [reflexivity|].
  rewrite run_bind, run_guarded_call.
  destruct (Ws.call rt h payload) as [e|].
  - destruct (Ws.errorListeners s =? 0)%nat; [reflexivity|].
    rewrite IH.
    destruct (dispatch_result rt (Ws.errorListeners s) rest payload).
    reflexivity.
  - rewrite IH.
    destruct (dispatch_result rt (Ws.errorListeners s) rest payload).
    reflexivity.
Qed.

(** A data frame: the handlers of its key, then the counter, then the
    ['message'] event; a throw out of the loop skips the last two. *)
Lemma run_handleMessage_data m s :
  is_control m = false ->
  Ws.handleMessage rt m s =
  let handlers := Ws.orElse (Js.get (Ws.subscriptions s) (routing_key m)) [] in
  match dispatch_result rt (Ws.errorListeners s) handlers (Ws.data m) with
  | (Normal _, t) =>
      (Normal tt, Ws.set_sequenceNumber (recorded m (Ws.sequenceNumber s)) s,
       (t ++ [Ws.Emit (Ws.Message m)])%list)
  | (Throw e, t) => (Throw e, s, t)
  end.
Proof.
  unfold is_control, Ws.handleMessage. intros Hc.
  apply orb_false_iff in Hc. destruct Hc as [Hc H3].
  apply orb_false_iff in Hc. destruct Hc as [H1 H2].
  rewrite H1, H2, H3. cbv zeta. fold (routing_key m).
  rewrite run_get_bind, run_bind.
  destruct (Js.get (Ws.subscriptions s) (routing_key m)) as [handlers|];
    cbn [Ws.orElse].
  - fold (dispatch rt handlers (Ws.data m)). rewrite run_dispatch.
    destruct (dispatch_result rt (Ws.errorListeners s) handlers (Ws.data m))
      as [[[]|e] t]; cbn [fst snd]; [|reflexivity].
    unfold recorded, Ws.bind, Ws.emit, Ws.when, Ws.modify, Ws.get, Ws.perform,
      Ws.ret.
    destruct (Ws.sequence m) as [n|]; [destruct (n =? 0)%Z|]; cbn;
      rewrite ?app_nil_r; destruct s; reflexivity.
  - unfold recorded, Ws.bind, Ws.emit, Ws.when, Ws.modify, Ws.get, Ws.perform,
      Ws.ret.
    destruct (Ws.sequence m) as [n|]; [destruct (n =? 0)%Z|]; cbn;
      destruct s; reflexivity.
Qed.

(** A control frame is answered with an event (or a throw) and leaves
    the client as it is. *)
Lemma keeps_state_emit ev : keeps (fun s => s) (Ws.emit ev).
Proof. unfold Ws.emit. keeps_field. Qed.

Lemma handleMessage_control m s :
  is_control m = true -> Ws.state_of (Ws.handleMessage rt m s) = s.
Proof.
  unfold is_control, Ws.handleMessage. intros Hc.
  destruct (String.eqb (Ws.type m) "subscribed");
    [apply (keeps_state_emit _ s)|].
  destruct (String.eqb (Ws.type m) "unsubscribed");
    [apply (keeps_state_emit _ s)|].
  destruct (String.eqb (Ws.type m) "error"); [|discriminate].
  apply (keeps_state_emit _ s).
Qed.

Lemma dispatch_result_calls listeners handlers payload :
  (0 < listeners)%nat ->
  fst (dispatch_result rt listeners handlers payload) = Normal tt
  /\ Ws.calls (snd (dispatch_result rt listeners handlers payload))
     = map (fun h => (h, payload)) handlers.
Proof.
  intros Hl. induction handlers as [|h rest [IH1 IH2]]; simpl; [now split|].
  destruct (Nat.eqb_spec listeners 0) as [Hz|_]; [lia|].
  destruct (dispatch_result rt listeners rest payload) as [r t]. simpl in *.
  destruct (Ws.call rt h payload); simpl; now rewrite IH2.
Qed.

(** With an ['error'] listener attached, a data frame reaches every
    handler of its key, in order, whatever the handlers throw, and
    [handleMessage] returns. *)
Lemma dispatch_isolated_with_error_listener m s :
  is_control m = false ->
  (0 < Ws.errorListeners s)%nat ->
  Ws.completion_of (Ws.handleMessage rt m s) = Normal tt
  /\ Ws.calls (Ws.trace_of (Ws.handleMessage rt m s))
     = map (fun h => (h, Ws.data m))
           (Ws.orElse (Js.get (Ws.subscriptions s) (routing_key m)) []).
Proof.
  intros Hc Hl. rewrite (run_handleMessage_data m s Hc). cbv zeta.
  destruct (dispatch_result_calls (Ws.errorListeners s)
              (Ws.orElse (Js.get (Ws.subscriptions s) (routing_key m)) [])
              (Ws.data m) Hl) as [H1 H2].
  destruct (dispatch_result rt _ _ _) as [[[]|e] t]; simpl in *;
    [|discriminate].
  split; [reflexivity|].
  unfold Ws.trace_of. simpl. rewrite calls_app, H2. simpl. apply app_nil_r.
Qed.

(** C4, amended.  [handleMessage] leaves the counter alone on a control
    frame and when a throw leaves the handler loop; otherwise the
    counter becomes the sequence value of the frame when the frame
    carries one that is not zero, and stays as it is when it does not.
    The counter is overwritten, not compared.  What [handleMessage]
    does and how it completes does not depend on the counter. *)
Theorem sequence_is_latest :
  forall (m : Ws.WebSocketMessage) (s : Ws.WebSocketClient),
    let r := Ws.handleMessage rt m s in
    Ws.sequenceNumber (Ws.state_of r)
    = (if is_control m then Ws.sequenceNumber s
       else match Ws.completion_of r with
            | Normal _ => recorded m (Ws.sequenceNumber s)
            | Throw _ => Ws.sequenceNumber s
            end)
    /\ forall n : Z,
         Ws.trace_of (Ws.handleMessage rt m (Ws.set_sequenceNumber n s))
         = Ws.trace_of r
         /\ Ws.completion_of (Ws.handleMessage rt m (Ws.set_sequenceNumber n s))
            = Ws.completion_of r.
Proof.
  intros m s r. subst r. split.
  - destruct (is_control m) eqn:Hc.
    + now rewrite handleMessage_control.
    + rewrite (run_handleMessage_data m s Hc). cbv zeta.
      destruct (dispatch_result rt _ _ _) as [[[]|e] t]; reflexivity.
  - intros n. destruct (is_control m) eqn:Hc.
    + unfold is_control in Hc. unfold Ws.handleMessage, Ws.emit.
      destruct (String.eqb (Ws.type m) "subscribed"); [split; reflexivity|].
      destruct (String.eqb (Ws.type m) "unsubscribed"); [split; reflexivity|].
      destruct (String.eqb (Ws.type m) "error"); [|discriminate].
      unfold Ws.bind, Ws.get. cbn.
      destruct (Ws.errorListeners s =? 0)%nat; split; reflexivity.
    + rewrite !(run_handleMessage_data m _ Hc). cbv zeta.
      cbn [Ws.subscriptions Ws.errorListeners Ws.set_sequenceNumber].
      destruct (dispatch_result rt _ _ _) as [[[]|e] t]; split; reflexivity.
Qed.
End Inbound.

(** C4, as stated, fails.  Two data frames arrive with sequence values
    5 and then 3: the counter ends at 3, while the highest value seen
    is 5. *)
Lemma sequence_not_highest :
  let frames := [data_frame "tradesPerps" "BTC-USD.P" (Some 5%Z);
                 data_frame "tradesPerps" "BTC-USD.P" (Some 3%Z)] in
  let s :=
    fst (Ws.run example_runtime
           ([Ws.CallConnect; Ws.SocketOpen 0 0]
            ++ map (fun m => Ws.SocketMessage 0 (Some m)) frames)
           (Ws.new_WebSocketClient no_config)) in
  Ws.sequenceNumber s = 3%Z
  /\ highest 0 frames = 5%Z
  /\ Ws.sequenceNumber s <> highest 0 frames.
Proof. vm_compute. repeat split; discriminate. Qed.

(** C5, on the failing input.  A client built the way
    [EnclaveClient.connectWebSocket] builds it has no ['error']
    listener.  Handlers 1 and 2 are registered for one key and handler
    1 throws: the frame reaches handler 1 only, the error leaves the
    loop and [handleMessage], handler 2 is never called, and neither
    the counter nor the ['message'] event follows. *)
Theorem dispatch_stops_without_error_listener :
  let s :=
    fst (Ws.run example_runtime
           [Ws.CallConnect; Ws.SocketOpen 0 0;
            Ws.CallSubscribe Ws.TRADES 1 (Some "BTC-USD.P");
            Ws.CallSubscribe Ws.TRADES 2 (Some "BTC-USD.P")]
           (Ws.new_WebSocketClient no_config)) in
  let m := data_frame "tradesPerps" "BTC-USD.P" (Some 9%Z) in
  Js.get (Ws.subscriptions s) (routing_key m) = Some [1; 2]%nat
  /\ Ws.errorListeners s = 0%nat
  /\ Ws.completion_of (Ws.handleMessage example_runtime m s)
     = Throw (Error "Error" "handler failed")
  /\ Ws.calls (Ws.trace_of (Ws.handleMessage example_runtime m s))
     = [(1%nat, Ws.data m)]
  /\ Ws.trace_of (Ws.step example_runtime (Ws.SocketMessage 0 (Some m)) s)
     = [Ws.Call 1 (Ws.data m)]
  /\ Ws.sequenceNumber
       (Ws.state_of (Ws.step example_runtime (Ws.SocketMessage 0 (Some m)) s))
     = 0%Z.
Proof. vm_compute. repeat split; reflexivity. Qed.

(* ===================================================================== *)
(** ** [disconnect] *)
(* ===================================================================== *)

Lemma run_disconnect s :
  Ws.disconnect s = (Normal tt, disconnected s, disconnect_trace s).
Proof.
  unfold Ws.disconnect, Ws.clearTimeout, Ws.stopHeartbeat, Ws.clearInterval,
    Ws.ws_close, Ws.set_readyState, Ws.emit, disconnected, disconnect_trace,
    closing, Ws.readyState.
  unfold Ws.bind, Ws.get, Ws.modify, Ws.perform, Ws.ret.
  destruct s as [ws0 cfg subs conn ra hb sq rto socks tos ivs tc el].
  destruct rto as [t|]; destruct hb as [u|]; destruct ws0 as [i|]; cbn;
    try reflexivity;
    destruct (nth_error socks i) as [[]|]; reflexivity.
Qed.

Lemma remove_timer_not_In t l : ~ In t (Ws.remove_timer t l).
Proof.
  unfold Ws.remove_timer. rewrite filter_In. intros [_ H].
  now rewrite Nat.eqb_refl in H.
Qed.

Lemma remove_timer_idem t l :
  Ws.remove_timer t (Ws.remove_timer t l) = Ws.remove_timer t l.
Proof.
  unfold Ws.remove_timer. induction l as [|x l IH]; simpl; [reflexivity|].
  destruct (Nat.eqb t x) eqn:E; simpl; [exact IH|].
  rewrite E. simpl. now rewrite IH.
Qed.

Lemma remove_timer_all t l :
  (forall x, In x l -> x = t) -> Ws.remove_timer t l = [].
Proof.
  intros H. unfold Ws.remove_timer. induction l as [|x l IH]; simpl; [reflexivity|].
  rewrite (H x (or_introl eq_refl)), Nat.eqb_refl. simpl.
  apply IH. intros y Hy. apply H. now right.
Qed.

Lemma mem_timer_nil t : Ws.mem_timer t [] = false.
Proof. reflexivity. Qed.

Lemma nth_error_replace_nth_neq {A : Type} (l : list A) i v :
  forall x, nth_error (Ws.replace_nth i v l) i = Some x -> x = v.
Proof.
  revert i. induction l as [|y l IH]; intros [|i] x H; simpl in *;
    try discriminate; [congruence | now apply (IH i)].
Qed.

Lemma closing_not_open i socks : nth_error (closing i socks) i <> Some Ws.OPEN.
Proof.
  unfold closing. destruct (nth_error socks i) as [st|] eqn:E.
  - destruct st; try (intros H; apply nth_error_replace_nth_neq in H; discriminate).
    rewrite E. discriminate.
  - rewrite E. discriminate.
Qed.

(** *** A shut client stays shut *)

Section Quiet.
Variable rt : Ws.Runtime.

Lemma quiet_ret {A} (a : A) : quiet (Ws.ret a).
Proof. intros s Hs. split; [exact Hs | constructor]. Qed.

Lemma quiet_throw {A} e : quiet (@Ws.throw A e).
Proof. intros s Hs. split; [exact Hs | constructor]. Qed.

Lemma quiet_perform e : calm e -> quiet (Ws.perform e).
Proof. intros He s Hs. split; [exact Hs | repeat constructor; exact He]. Qed.

Lemma quiet_modify f : (forall s, shut s -> shut (f s)) -> quiet (Ws.modify f).
Proof. intros H s Hs. split; [now apply H | constructor]. Qed.

Lemma quiet_bind {A B} (c : Ws.M A) (k : A -> Ws.M B) :
  quiet c -> (forall a, quiet (k a)) -> quiet (Ws.bind c k).
Proof.
  intros Hc Hk s Hs. unfold Ws.bind, Ws.state_of, Ws.trace_of.
  destruct (Hc s Hs) as [H1 H2]. unfold Ws.state_of, Ws.trace_of in H1, H2.
  destruct (c s) as [[[a|e] s1] t1]; simpl in *; [|now split].
  destruct (Hk a s1 H1) as [H3 H4]. unfold Ws.state_of, Ws.trace_of in H3, H4.
  destruct (k a s1) as [[r s2] t2]; simpl in *.
  split; [assumption | now apply Forall_app].
Qed.

(** Reading the client hands the continuation a shut client. *)
Lemma quiet_get_bind {B} (k : Ws.WebSocketClient -> Ws.M B) :
  (forall s0, shut s0 -> quiet (k s0)) -> quiet (Ws.bind Ws.get k).
Proof. intros H s Hs. rewrite run_get_bind. now apply H. Qed.

Lemma quiet_try_catch {A} (c : Ws.M A) (h : JsError -> Ws.M A) :
  quiet c -> (forall e, quiet (h e)) -> quiet (Ws.try_catch c h).
Proof.
  intros Hc Hh s Hs. unfold Ws.try_catch, Ws.state_of, Ws.trace_of.
  destruct (Hc s Hs) as [H1 H2]. unfold Ws.state_of, Ws.trace_of in H1, H2.
  destruct (c s) as [[[a|e] s1] t1]; simpl in *; [now split|].
  destruct (Hh e s1 H1) as [H3 H4]. unfold Ws.state_of, Ws.trace_of in H3, H4.
  destruct (h e s1) as [[r s2] t2]; simpl in *.
  split; [assumption | now apply Forall_app].
Qed.

Lemma quiet_when b (c : Ws.M unit) : quiet c -> quiet (Ws.when b c).
Proof. intros H. destruct b; [exact H | apply quiet_ret]. Qed.

Lemma quiet_forEach {A} (l : list A) (g : A -> Ws.M unit) :
  (forall a, quiet (g a)) -> quiet (Ws.forEach l g).
Proof.
  intros H. induction l as [|x l IH]; simpl.
  - apply quiet_ret.
  - apply quiet_bind; [apply H | intros _; exact IH].
Qed.

(** One step towards [quiet c]; a field update that leaves the three
    fields of [shut] alone is discharged by computation. *)
Ltac quiet_step :=
  first
    [ progress intros
    | progress cbv zeta
    | match goal with
      | H : Ws.ws ?s = None |- context [Ws.ws ?s] => rewrite H
      | H : Ws.timeouts ?s = [] |- context [Ws.timeouts ?s] =>
          rewrite H; try rewrite mem_timer_nil
      | H : Ws.is_true (Ws.reconnect (Ws.config ?s)) = false
        |- context [Ws.is_true (Ws.reconnect (Ws.config ?s))] =>
          rewrite H; cbn [andb]
      end
    | apply quiet_ret | apply quiet_throw
    | apply quiet_perform; exact I
    | apply quiet_modify; intros ? [? [? ?]]; repeat split; assumption
    | apply quiet_get_bind; intros ? [? [? ?]]
    | apply quiet_bind | apply quiet_try_catch | apply quiet_when
    | apply quiet_forEach
    | match goal with
      | |- quiet (match ?x with _ => _ end) => destruct x
      | |- quiet (if ?x then _ else _) => destruct x
      end ].

Lemma quiet_emit ev : quiet (Ws.emit ev).
Proof. unfold Ws.emit. repeat quiet_step. Qed.

Lemma quiet_send m : quiet (Ws.send m).
Proof. unfold Ws.send. repeat quiet_step. Qed.

Lemma quiet_stopHeartbeat : quiet Ws.stopHeartbeat.
Proof. unfold Ws.stopHeartbeat, Ws.clearInterval. repeat quiet_step. Qed.

Lemma quiet_on_open i now : quiet (Ws.on_open rt i now).
Proof.
  unfold Ws.on_open, Ws.startHeartbeat, Ws.setInterval, Ws.authenticate,
    Ws.resubscribeAll, Ws.sendSubscribe.
  repeat first [ apply quiet_emit | apply quiet_stopHeartbeat | apply quiet_send
               | quiet_step ].
Qed.

Lemma quiet_handleMessage m : quiet (Ws.handleMessage rt m).
Proof.
  unfold Ws.handleMessage, Ws.invoke.
  repeat first [ apply quiet_emit | quiet_step ].
Qed.

Lemma quiet_on_close i code reason : quiet (Ws.on_close i code reason).
Proof.
  unfold Ws.on_close.
  repeat first [ apply quiet_emit | apply quiet_stopHeartbeat | quiet_step ].
Qed.

Lemma quiet_disconnect : quiet Ws.disconnect.
Proof.
  intros s Hs. rewrite run_disconnect.
  unfold Ws.state_of, Ws.trace_of. cbn [fst snd].
  destruct Hs as (Hr & Ht & Hw). split.
  - unfold shut, disconnected. cbn. rewrite Ht.
    repeat split. now destruct (Ws.reconnectTimeout s).
  - unfold disconnect_trace. rewrite Hw.
    destruct (Ws.reconnectTimeout s), (Ws.heartbeatInterval s);
      repeat constructor.
Qed.

Lemma quiet_subscribe c h market : quiet (Ws.subscribe c h market).
Proof.
  intros s Hs. rewrite run_subscribe.
  unfold Ws.state_of, Ws.trace_of. cbn [fst snd].
  destruct Hs as (Hr & Ht & Hw). split; [repeat split; assumption|].
  unfold Ws.open_socket. rewrite Hw.
  destruct (Ws.isConnected s); constructor.
Qed.

Lemma quiet_unsubscribe c h market : quiet (Ws.unsubscribe c h market).
Proof.
  intros s Hs. rewrite run_unsubscribe. cbv zeta.
  unfold Ws.state_of, Ws.trace_of. cbn [fst snd].
  destruct Hs as (Hr & Ht & Hw). split; [repeat split; assumption|].
  unfold Ws.open_socket. rewrite Hw.
  match goal with |- context [if ?b then _ else _] => destruct b end;
    constructor.
Qed.

Lemma quiet_step_input inp : is_connect inp = false -> quiet (Ws.step rt inp).
Proof.
  destruct inp; simpl; intros Hc; try discriminate;
    unfold Ws.set_readyState, Ws.on_message, Ws.on_error, Ws.on_ping,
      Ws.heartbeat_tick;
    repeat first
      [ apply quiet_disconnect | apply quiet_subscribe | apply quiet_unsubscribe
      | apply quiet_on_open | apply quiet_on_close | apply quiet_handleMessage
      | apply quiet_emit
      | quiet_step ].
Qed.

Lemma quiet_run inputs s :
  forallb (fun inp => negb (is_connect inp)) inputs = true ->
  shut s ->
  shut (fst (Ws.run rt inputs s)) /\ Forall calm (snd (Ws.run rt inputs s)).
Proof.
  revert s. induction inputs as [|inp inputs IH]; intros s Hin Hs; simpl.
  - split; [exact Hs | constructor].
  - simpl in Hin. apply andb_true_iff in Hin. destruct Hin as [Hi Hin].
    apply negb_true_iff in Hi.
    destruct (quiet_step_input inp Hi s Hs) as [H1 H2].
    unfold Ws.state_of, Ws.trace_of in H1, H2.
    destruct (Ws.step rt inp s) as [[r s1] t1]. simpl in H1, H2.
    destruct (IH s1 Hin H1) as [H3 H4].
    destruct (Ws.run rt inputs s1) as [s2 t2]. simpl in *.
    split; [assumption|].
    apply Forall_app. split; [assumption|].
    apply Forall_app. split; [|assumption].
    destruct r; repeat constructor.
Qed.
Lemma disconnected_idem s : disconnected (disconnected s) = disconnected s.
Proof.
  unfold disconnected. cbn -[Ws.remove_timer closing].
  destruct (Ws.reconnectTimeout s); [rewrite remove_timer_idem|]; reflexivity.
Qed.

Lemma disconnect_shut s :
  (forall t, In t (Ws.timeouts s) -> Ws.reconnectTimeout s = Some t) ->
  shut (disconnected s).
Proof.
  intros H. unfold shut, disconnected. cbn -[Ws.remove_timer closing].
  repeat split.
  destruct (Ws.reconnectTimeout s) as [t0|] eqn:E.
  - apply remove_timer_all. intros x Hx. specialize (H x Hx). congruence.
  - destruct (Ws.timeouts s) as [|x l]; [reflexivity|].
    specialize (H x (or_introl eq_refl)). discriminate.
Qed.

(** C6, amended.  [disconnect()] returns, turns reconnection off,
    clears the reconnect timer the client scheduled last, stops the
    heartbeat timer, closes the socket the client holds and forgets it.
    If no reconnect timer other than the last scheduled one is pending,
    the client is then shut, and whatever calls and socket or timer
    events follow, short of a new [connect()], none of them creates a
    socket, schedules a reconnect or puts anything (a ping included) on
    a socket.  A repeated [disconnect()] leaves the client as the first
    left it, and is not silent: it emits ['disconnected'] again, after
    clearing the stale timer handle once more. *)
Theorem disconnect_shuts_down :
  forall s : Ws.WebSocketClient,
    (forall t, In t (Ws.timeouts s) -> Ws.reconnectTimeout s = Some t) ->
    let r := Ws.disconnect s in
    let s' := Ws.state_of r in
    Ws.completion_of r = Normal tt
    /\ Ws.reconnect (Ws.config s') = Some false
    /\ Ws.timeouts s' = []
    /\ Ws.heartbeatInterval s' = None
    /\ (forall t, Ws.heartbeatInterval s = Some t -> ~ In t (Ws.intervals s'))
    /\ Ws.ws s' = None
    /\ Ws.isConnected s' = false
    /\ (forall i, Ws.ws s = Some i ->
          In (Ws.WsClose i) (Ws.trace_of r) /\ Ws.is_open s' i = false)
    /\ (forall inputs,
          forallb (fun inp => negb (is_connect inp)) inputs = true ->
          shut (fst (Ws.run rt inputs s'))
          /\ Forall calm (snd (Ws.run rt inputs s')))
    /\ Ws.state_of (Ws.disconnect s') = s'
    /\ Ws.trace_of (Ws.disconnect s')
       = (match Ws.reconnectTimeout s with
          | Some t => [Ws.ClearTimeout t]
          | None => []
          end ++ [Ws.Emit (Ws.Disconnected 1000 "Client disconnect")])%list.
Proof.
  intros s H r s'. subst s' r. rewrite run_disconnect.
  unfold Ws.completion_of, Ws.state_of, Ws.trace_of. cbn [fst snd].
  pose proof (disconnect_shut s H) as Hshut.
  rewrite run_disconnect. cbn [fst snd].
  split; [reflexivity|]. split; [reflexivity|].
  split; [apply Hshut|]. split; [reflexivity|].
  split.
  { intros t Ht. unfold disconnected. cbn -[Ws.remove_timer closing].
    rewrite Ht. apply remove_timer_not_In. }
  split; [reflexivity|]. split; [reflexivity|].
  split.
  { intros i Hi. split.
    - unfold disconnect_trace. rewrite Hi.
      apply in_or_app. right. apply in_or_app. right. now left.
    - unfold Ws.is_open, Ws.readyState, disconnected.
      cbn -[Ws.remove_timer closing]. rewrite Hi.
      pose proof (closing_not_open i (Ws.sockets s)) as Hn.
      destruct (nth_error (closing i (Ws.sockets s)) i) as [[]|];
        congruence. }
  split.
  { intros inputs Hin. now apply quiet_run. }
  split; [apply disconnected_idem|].
  unfold disconnect_trace, disconnected. cbn -[Ws.remove_timer closing].
  reflexivity.
Qed.
End Quiet.

(** C6, as stated, fails twice.  A second [disconnect()] is not a
    no-op: it emits ['disconnected'] again.  And [disconnect()] cancels
    only the reconnect timer scheduled last: after two [connect()]
    calls whose sockets both close, two reconnect timers are pending;
    [disconnect()] clears the second, and when the first fires it calls
    [connect()], which creates a socket. *)
Lemma disconnect_not_final :
  let s1 :=
    fst (Ws.run example_runtime
           [Ws.CallConnect; Ws.SocketOpen 0 0; Ws.CallDisconnect]
           (Ws.new_WebSocketClient no_config)) in
  let s2 :=
    fst (Ws.run example_runtime
           [Ws.CallConnect; Ws.CallConnect;
            Ws.SocketClose 0 1006 ""; Ws.SocketClose 1 1006 "";
            Ws.CallDisconnect]
           (Ws.new_WebSocketClient no_config)) in
  Ws.trace_of (Ws.disconnect s1)
  = [Ws.Emit (Ws.Disconnected 1000 "Client disconnect")]
  /\ Ws.trace_of (Ws.disconnect s1) <> []
  /\ Ws.trace_of (Ws.step example_runtime (Ws.TimeoutFires 0) s2)
     = [Ws.WsNew 2 "wss://api.enclave.trade/ws"]
  /\ ~ Forall calm (Ws.trace_of (Ws.step example_runtime (Ws.TimeoutFires 0) s2)).
Proof.
  vm_compute. repeat split; try discriminate.
  intros H. inversion H as [|? ? Hc _]. exact Hc.
Qed.

(** The same on a client that waits for its reconnect timer after the
    socket closed. *)
Lemma disconnect_shuts_down_witness :
  let s :=
    fst (Ws.run example_runtime
           [Ws.CallConnect; Ws.SocketOpen 0 0; Ws.SocketClose 0 1006 ""]
           (Ws.new_WebSocketClient no_config)) in
  Ws.timeouts s = [1%nat]
  /\ Ws.reconnectTimeout s = Some 1%nat
  /\ Ws.timeouts (Ws.state_of (Ws.disconnect s)) = [].
Proof.
  intros s. split; [vm_compute; reflexivity|].
  split; [vm_compute; reflexivity|].
  assert (H : forall t, In t (Ws.timeouts s) -> Ws.reconnectTimeout s = Some t).
  { assert (Et : Ws.timeouts s = [1%nat]) by (vm_compute; reflexivity).
    assert (Er : Ws.reconnectTimeout s = Some 1%nat) by (vm_compute; reflexivity).
    intros t Hin. rewrite Et in Hin. rewrite Er.
    destruct Hin as [<-|[]]. reflexivity. }
  destruct (disconnect_shuts_down example_runtime s H) as (_ & _ & Ht & _).
  exact Ht.
Defined.

(* ===================================================================== *)
(** ** The request executor *)
(* ===================================================================== *)

Lemma append_assoc (a b c : string) : ((a ++ b) ++ c = a ++ (b ++ c))%string.
Proof. induction a as [|x a IH]; simpl; [reflexivity | now rewrite IH]. Qed.

Lemma substring_all (n : nat) (s : string) :
  (String.length s <= n)%nat -> String.substring 0 n s = s.
Proof.
  revert n. induction s as [|c s IH]; intros [|n] H; simpl in *;
    try reflexivity; [lia|].
  rewrite IH by lia. reflexivity.
Qed.

Lemma substring_length (n : nat) (s : string) :
  (n <= String.length s)%nat -> String.length (String.substring 0 n s) = n.
Proof.
  revert n. induction s as [|c s IH]; intros [|n] H; simpl in *;
    try reflexivity; [lia|].
  rewrite IH by lia. reflexivity.
Qed.

(** The excerpt of a body: the body itself up to 200 characters,
    otherwise its first 200 characters and three dots. *)
Lemma response_excerpt_short body :
  (String.length body <= 200)%nat -> response_excerpt body = body.
Proof.
  intros H. unfold response_excerpt.
  rewrite substring_all by assumption.
  destruct (Nat.ltb_spec 200 (String.length body)); [lia|].
  clear. induction body as [|c b IH]; simpl; [reflexivity | now rewrite IH].
Qed.

Lemma response_excerpt_long body :
  (200 < String.length body)%nat ->
  response_excerpt body = String.substring 0 200 body ++ "..."
  /\ String.length (String.substring 0 200 body) = 200%nat.
Proof.
  intros H. unfold response_excerpt.
  destruct (Nat.ltb_spec 200 (String.length body)); [|lia].
  split; [reflexivity | apply substring_length; lia].
Qed.

(** Every error the class builds ends with the [Response:] line. *)
Lemma new_EnclaveApiError_message msg endpoint0 method0 statusCode0 responseBody0 :
  exists front,
    message (new_EnclaveApiError msg endpoint0 method0 statusCode0 responseBody0)
    = front ++ response_line responseBody0.
Proof.
  unfold new_EnclaveApiError. cbn [message].
  eexists.
  repeat rewrite <- append_assoc. reflexivity.
Qed.

Section Executor.
Variable rt : Http.Runtime.
Variable this : Http.EnclaveClient.
Variable remote : Http.Remote.

Abbreviation request := (Http.request rt this remote).
Abbreviation deliver := (Http.deliver rt this).
Abbreviation maxRetries := (Http.client_maxRetries this).

(** *** Termination: the bound of [request] is always enough. *)

Lemma act_settles a p log n :
  match a with Http.DoRetry _ => False | _ => True end ->
  snd (Http.act a (p, log, n)) = n.
Proof. destruct a; simpl; intros H; [reflexivity | reflexivity | destruct H]. Qed.

Lemma on_end_settles method path attempt statusCode data :
  (maxRetries < attempt)%Z ->
  match Http.on_end rt this method path attempt statusCode data with
  | Http.DoRetry _ => False
  | _ => True
  end.
Proof.
  intros Hlt.
  assert (Hle : (attempt <=? maxRetries)%Z = false) by (apply Z.leb_gt; lia).
  unfold Http.on_end, Http.on_end_try.
  destruct statusCode as [st|]; [|exact I].
  destruct (st =? 0)%Z; [exact I|].
  rewrite Hle, andb_false_r.
  destruct (if Js.truthy data then Http.JSON_parse rt data
            else Normal (Js.JObject [])) as [parsed|e]; [|exact I].
  destruct (_ && _); [exact I|].
  destruct (Http.prop parsed "error"); exact I.
Qed.

Lemma on_error_settles attempt e :
  (maxRetries < attempt)%Z ->
  match Http.on_error this attempt e with
  | Http.DoRetry _ => False
  | _ => True
  end.
Proof.
  intros Hlt. unfold Http.on_error.
  destruct (Z.leb_spec attempt maxRetries); [lia | exact I].
Qed.

Lemma deliver_one_no_retry method path attempt ev p log n :
  (maxRetries < attempt)%Z ->
  snd (Http.deliver_one rt this method path attempt ev (p, log, n)) = n.
Proof.
  intros Hlt. destruct ev as [st data|e|]; unfold Http.deliver_one.
  - apply act_settles. now apply on_end_settles.
  - apply act_settles. now apply on_error_settles.
  - apply act_settles. exact I.
Qed.

Lemma deliver_no_retry method path attempt events p log n :
  (maxRetries < attempt)%Z ->
  snd (deliver method path attempt events (p, log, n)) = n.
Proof.
  intros Hlt. revert p log n.
  induction events as [|ev events IH]; intros p log n; simpl; [reflexivity|].
  pose proof (deliver_one_no_retry method path attempt ev p log n Hlt) as H1.
  destruct (Http.deliver_one rt this method path attempt ev (p, log, n))
    as [[p1 log1] n1]. simpl in H1. subst n1. apply IH.
Qed.

(** [request] unfolds as the code reads: the events of this attempt,
    then the retries they scheduled, each a [request] at the next
    attempt number. *)
Lemma request_unfold method path body attempt :
  request method path body attempt =
  match deliver method path attempt (remote attempt)
          (Http.Pending,
           [Http.HttpsRequest method path (Http.bodyString_of rt body) attempt],
           O) with
  | (p, log, retries) =>
      Http.run_retries retries (request method path body (attempt + 1)%Z) p log
  end.
Proof.
  unfold Http.request at 1. cbn [Http.request_fuel].
  destruct (Z_le_gt_dec attempt maxRetries) as [Hle|Hgt].
  - replace (Z.to_nat (maxRetries + 1 - attempt))
      with (S (Z.to_nat (maxRetries + 1 - (attempt + 1)))) by lia.
    reflexivity.
  - pose proof (deliver_no_retry method path attempt (remote attempt)
                  Http.Pending
                  [Http.HttpsRequest method path (Http.bodyString_of rt body) attempt]
                  O ltac:(lia)) as Hn.
    destruct (deliver _ _ _ _ _) as [[p log] n]. simpl in Hn. subst n.
    reflexivity.
Qed.

Lemma run_retries_some n r p log :
  exists r', Http.run_retries n (Some r) p log = Some r'.
Proof.
  revert p log. induction n as [|n IH]; intros p log; simpl.
  - now eexists.
  - destruct r as [pi li]. apply IH.
Qed.

(** [request] returns at every attempt number. *)
Lemma request_total method path body attempt :
  exists r, request method path body attempt = Some r.
Proof.
  remember (Z.to_nat (maxRetries + 1 - attempt)) as k eqn:Hk.
  revert attempt Hk. induction k as [|k IH]; intros attempt Hk;
    rewrite request_unfold.
  - pose proof (deliver_no_retry method path attempt (remote attempt)
                  Http.Pending
                  [Http.HttpsRequest method path (Http.bodyString_of rt body) attempt]
                  O ltac:(lia)) as Hn.
    destruct (deliver _ _ _ _ _) as [[p log] n]. simpl in Hn. subst n.
    simpl. now eexists.
  - destruct (IH (attempt + 1)%Z ltac:(lia)) as [r Hr]. rewrite Hr.
    destruct (deliver _ _ _ _ _) as [[p log] n].
    apply run_retries_some.
Qed.

(** *** A response that is not retried *)

(** The ['end'] listener on a status that is neither of the success
    range nor a rate limit still to be retried: it rejects with an
    [EnclaveApiError] that carries the status, the path, the method and
    the body. *)
Lemma on_end_rejects method path attempt status data :
  is_success status = false ->
  ((status =? 429)%Z && (attempt <=? maxRetries)%Z) = false ->
  exists err,
    Http.on_end rt this method path attempt (Some status) data
    = Http.DoReject (ApiError err)
    /\ statusCode err = Some status
    /\ endpoint err = path
    /\ Errors.method err = method
    /\ responseBody err = Some data
    /\ exists front, message err = front ++ response_line (Some data).
Proof.
  unfold is_success. intros Hs Hr.
  unfold Http.on_end, Http.on_end_try. rewrite Hr, Hs.
  destruct (status =? 0)%Z.
  { eexists. split; [reflexivity|]. repeat split.
    apply new_EnclaveApiError_message. }
  destruct (if Js.truthy data then Http.JSON_parse rt data
            else Normal (Js.JObject [])) as [parsed|e].
  - destruct (Http.prop parsed "error") as [error_|e].
    + eexists. split; [reflexivity|]. repeat split.
      apply new_EnclaveApiError_message.
    + eexists. split; [reflexivity|]. repeat split.
      apply new_EnclaveApiError_message.
  - eexists. split; [reflexivity|]. repeat split.
    apply new_EnclaveApiError_message.
Qed.

(** C7.  At any attempt, a response whose status is outside the success
    range and is not the rate-limit status ends the call at once: the
    trace holds that one request and no timer, and the promise is
    rejected with an [EnclaveApiError] whose fields are the status, the
    path, the method and the body, and whose message ends with the
    [Response:] line, which shows a body of up to 200 characters whole
    and otherwise its first 200 characters followed by three dots. *)
Theorem remote_error_not_retried :
  forall (method path : string) (body : option Js.json) (attempt status : Z)
         (data : string),
    is_success status = false ->
    status <> 429%Z ->
    remote attempt = [Http.ResEnd (Some status) data] ->
    exists err,
      request method path body attempt
      = Some (Http.Rejected (ApiError err),
              [Http.HttpsRequest method path (Http.bodyString_of rt body) attempt])
      /\ statusCode err = Some status
      /\ endpoint err = path
      /\ Errors.method err = method
      /\ responseBody err = Some data
      /\ (exists front, message err = front ++ response_line (Some data))
      /\ (Js.truthy data = true ->
          response_line (Some data) = "  Response: " ++ response_excerpt data)
      /\ ((String.length data <= 200)%nat -> response_excerpt data = data)
      /\ ((200 < String.length data)%nat ->
          response_excerpt data = String.substring 0 200 data ++ "..."
          /\ String.length (String.substring 0 200 data) = 200%nat).
Proof.
  intros method0 path body attempt status data Hs H429 Hremote.
  assert (Hr : ((status =? 429)%Z && (attempt <=? maxRetries)%Z) = false).
  { apply andb_false_iff. left. now apply Z.eqb_neq. }
  destruct (on_end_rejects method0 path attempt status data Hs Hr)
    as (err & Hend & H1 & H2 & H3 & H4 & H5).
  exists err. rewrite request_unfold, Hremote. simpl. rewrite Hend. simpl.
  repeat split; try assumption.
  - intros Ht. unfold response_line. now rewrite Ht.
  - apply response_excerpt_short.
  - now apply response_excerpt_long.
  - now apply response_excerpt_long.
Qed.

(** *** A remote side that keeps answering with the rate-limit status *)

Lemma attempts_rate_limited_log method path bs attempt k :
  Http.attempts (rate_limited_log this method path bs attempt k)
  = zseq attempt (S k).
Proof.
  revert attempt. induction k as [|k IH]; intros attempt; simpl; [reflexivity|].
  now rewrite IH.
Qed.

Lemma delays_rate_limited_log method path bs attempt k :
  Http.delays (rate_limited_log this method path bs attempt k)
  = map (Http.backoff this) (zseq attempt k).
Proof.
  revert attempt. induction k as [|k IH]; intros attempt; simpl; [reflexivity|].
  now rewrite IH.
Qed.

Lemma zseq_length a n : List.length (zseq a n) = n.
Proof. revert a. induction n as [|n IH]; intros a; simpl; [reflexivity | now rewrite IH]. Qed.

Lemma rate_limited_from method path body (data : Z -> string) k :
  (forall a, remote a = [Http.ResEnd (Some 429%Z) (data a)]) ->
  forall attempt,
    (attempt <= maxRetries + 1)%Z ->
    k = Z.to_nat (maxRetries + 1 - attempt) ->
    exists err,
      request method path body attempt
      = Some (Http.Rejected (ApiError err),
              rate_limited_log this method path (Http.bodyString_of rt body)
                               attempt k)
      /\ statusCode err = Some 429%Z
      /\ endpoint err = path
      /\ Errors.method err = method
      /\ responseBody err = Some (data (maxRetries + 1)%Z).
Proof.
  intros Hremote. induction k as [|k IH]; intros attempt Hle Hk;
    rewrite request_unfold, Hremote.
  - assert (attempt = (maxRetries + 1)%Z) by lia. subst attempt.
    assert (Hr : ((429 =? 429)%Z && (maxRetries + 1 <=? maxRetries)%Z) = false).
    { apply andb_false_iff. right. apply Z.leb_gt. lia. }
    destruct (on_end_rejects method path (maxRetries + 1)%Z 429%Z
                (data (maxRetries + 1)%Z) eq_refl Hr)
      as (err & Hend & H1 & H2 & H3 & H4 & _).
    exists err. simpl. rewrite Hend. simpl. now repeat split.
  - destruct (IH (attempt + 1)%Z ltac:(lia) ltac:(lia))
      as (err & Hreq & H1 & H2 & H3 & H4).
    exists err. rewrite Hreq. simpl.
    unfold Http.on_end, Http.on_end_try.
    assert (Hle' : (attempt <=? maxRetries)%Z = true) by (apply Z.leb_le; lia).
    rewrite Hle'. simpl. now repeat split.
Qed.

(** C3.  With a retry ceiling that is not negative, a call whose every
    attempt is answered with status 429 issues the same request
    [maxRetries + 1] times, attempts 1 to [maxRetries + 1]; attempt [a]
    of the first [maxRetries] is followed by a timer of
    [retryDelay * 2^(a - 1)]; the last attempt rejects the promise with
    an [EnclaveApiError] of status 429 that carries the body of that
    last response. *)
Theorem rate_limit_retries_then_fails :
  forall (method path : string) (body : option Js.json) (data : Z -> string),
    (0 <= maxRetries)%Z ->
    (forall a, remote a = [Http.ResEnd (Some 429%Z) (data a)]) ->
    exists err log,
      request method path body 1 = Some (Http.Rejected (ApiError err), log)
      /\ log = rate_limited_log this method path (Http.bodyString_of rt body) 1
                 (Z.to_nat maxRetries)
      /\ Http.attempts log = zseq 1 (S (Z.to_nat maxRetries))
      /\ Z.of_nat (List.length (Http.attempts log)) = (maxRetries + 1)%Z
      /\ Http.delays log
         = map (fun a => (Http.client_retryDelay this * 2 ^ (a - 1))%Z)
               (zseq 1 (Z.to_nat maxRetries))
      /\ statusCode err = Some 429%Z
      /\ endpoint err = path
      /\ Errors.method err = method
      /\ responseBody err = Some (data (maxRetries + 1)%Z).
Proof.
  intros method0 path body data Hmax Hremote.
  destruct (rate_limited_from method0 path body data (Z.to_nat maxRetries)
              Hremote 1%Z ltac:(lia) ltac:(lia))
    as (err & Hreq & H1 & H2 & H3 & H4).
  exists err. eexists. split; [exact Hreq|].
  split; [reflexivity|].
  rewrite attempts_rate_limited_log, delays_rate_limited_log.
  repeat split; try assumption.
  simpl. rewrite zseq_length. lia.
Qed.

(** *** A timeout *)

(** The ['timeout'] listener by itself: the request is destroyed, the
    promise is rejected with the timeout error, and no timer is set. *)
Lemma timeout_alone_fails_fast method path body attempt :
  remote attempt = [Http.ReqTimeout] ->
  request method path body attempt
  = Some (Http.Rejected
            (Error "Error"
               ("Request timeout after "
                ++ Js.string_of_Z (Http.client_timeout this) ++ "ms")),
          [Http.HttpsRequest method path (Http.bodyString_of rt body) attempt;
           Http.ReqDestroy attempt]).
Proof.
  intros Hremote. rewrite request_unfold, Hremote. reflexivity.
Qed.
End Executor.

(** The same, run: three retries after 1000, 2000 and 4000, then the
    rejection. *)
Lemma rate_limit_retries_then_fails_witness :
  exists err log,
    Http.request example_http_runtime default_client
      (fun _ => [Http.ResEnd (Some 429%Z) "slow down"]) "GET" "/v1/markets" None 1
    = Some (Http.Rejected (ApiError err), log)
    /\ Http.attempts log = [1; 2; 3; 4]%Z
    /\ Http.delays log = [1000; 2000; 4000]%Z
    /\ statusCode err = Some 429%Z
    /\ responseBody err = Some "slow down".
Proof.
  destruct (rate_limit_retries_then_fails example_http_runtime default_client
              (fun _ => [Http.ResEnd (Some 429%Z) "slow down"])
              "GET" "/v1/markets" None (fun _ => "slow down"))
    as (err & log & Hreq & Hlog & Ha & _ & Hd & Hs & _ & _ & Hb).
  - vm_compute. discriminate.
  - intros a. reflexivity.
  - exists err, log. repeat split; assumption.
Defined.

(** A 500 with a body that does not parse. *)
Lemma remote_error_not_retried_witness :
  exists err,
    Http.request example_http_runtime default_client
      (fun _ => [Http.ResEnd (Some 500%Z) "<html>"]) "POST" "/v1/orders" None 1
    = Some (Http.Rejected (ApiError err),
            [Http.HttpsRequest "POST" "/v1/orders" "" 1])
    /\ statusCode err = Some 500%Z
    /\ responseBody err = Some "<html>".
Proof.
  destruct (remote_error_not_retried example_http_runtime default_client
              (fun _ => [Http.ResEnd (Some 500%Z) "<html>"])
              "POST" "/v1/orders" None 1 500 "<html>")
    as (err & Hreq & Hs & _ & _ & Hb & _).
  - reflexivity.
  - discriminate.
  - reflexivity.
  - exists err. repeat split; assumption.
Defined.

(** C8, on the failing input.  The first attempt times out before any
    response: the ['timeout'] listener destroys the request and rejects
    the promise, and the destroyed request then raises ['error']
    (socket hang up).  The ['error'] listener finds
    [attempt <= maxRetries], sets the retry timer, and the call is
    issued again as attempt 2, although the promise is already
    rejected with the timeout error. *)
Theorem timeout_then_error_retries :
  let remote := fun a : Z =>
    if (a =? 1)%Z
    then [Http.ReqTimeout; Http.ReqError (Error "Error" "socket hang up")]
    else [Http.ResEnd (Some 200%Z) "{}"] in
  Http.request example_http_runtime default_client remote
    "POST" "/v1/perps/orders" (Some (Js.JObject [])) 1
  = Some (Http.Rejected (Error "Error" "Request timeout after 30000ms"),
          [Http.HttpsRequest "POST" "/v1/perps/orders" "{}" 1;
           Http.ReqDestroy 1;
           Http.SetTimeout 1000;
           Http.HttpsRequest "POST" "/v1/perps/orders" "{}" 2]).
Proof. vm_compute. reflexivity. Qed.

(* ===================================================================== *)
(** ** The close of a socket, the reconnect budget and the heartbeat *)
(* ===================================================================== *)

Lemma heartbeat_stopped_view s :
  Ws.config (heartbeat_stopped s) = Ws.config s
  /\ Ws.reconnectAttempts (heartbeat_stopped s) = Ws.reconnectAttempts s
  /\ Ws.timerCount (heartbeat_stopped s) = Ws.timerCount s
  /\ Ws.timeouts (heartbeat_stopped s) = Ws.timeouts s
  /\ Ws.subscriptions (heartbeat_stopped s) = Ws.subscriptions s
  /\ Ws.ws (heartbeat_stopped s) = Ws.ws s
  /\ Ws.sockets (heartbeat_stopped s) = Ws.sockets s
  /\ Ws.isConnected (heartbeat_stopped s) = Ws.isConnected s
  /\ Ws.heartbeatInterval (heartbeat_stopped s) = None.
Proof.
  unfold heartbeat_stopped.
  destruct (Ws.heartbeatInterval s) eqn:E; repeat split; assumption.
Qed.

Lemma run_scheduleReconnect s :
  Ws.scheduleReconnect s =
  (Normal tt, reconnecting s, [Ws.SetTimeout (Ws.timerCount s) (reconnect_delay s)]).
Proof.
  unfold Ws.scheduleReconnect, Ws.setTimeout.
  rewrite run_modify_bind, run_get_bind, run_bind, run_get_bind, run_modify_bind.
  unfold reconnecting, reconnect_delay.
  cbn [Ws.reconnectAttempts Ws.set_reconnectAttempts Ws.config Ws.timerCount
       Ws.timeouts].
  replace (Ws.reconnectAttempts s + 1 - 1)%Z with (Ws.reconnectAttempts s) by lia.
  reflexivity.
Qed.

(** The ['close'] listener, run. *)
Lemma run_on_close i code reason s :
  Ws.on_close i code reason s =
  (Normal tt, after_close s,
   (match Ws.heartbeatInterval s with
    | Some t => [Ws.ClearInterval t]
    | None => []
    end
    ++ Ws.Emit (Ws.Disconnected code reason)
    :: (if will_reconnect s
        then [Ws.SetTimeout (Ws.timerCount s) (reconnect_delay s)]
        else []))%list).
Proof.
  unfold Ws.on_close.
  rewrite run_modify_bind.
  rewrite run_bind, run_stopHeartbeat. cbv beta iota.
  rewrite run_bind, run_emit_plain by exact I. cbv beta iota.
  rewrite run_get_bind.
  set (s1 := heartbeat_stopped (Ws.set_isConnected false s)).
  destruct (heartbeat_stopped_view (Ws.set_isConnected false s))
    as (Hc & Ha & Ht & _).
  fold s1 in Hc, Ha, Ht.
  assert (Hw : Ws.is_true (Ws.reconnect (Ws.config s1))
               && (Ws.reconnectAttempts s1
                   <? Ws.orElse (Ws.maxReconnectAttempts (Ws.config s1)) 10)%Z
               = will_reconnect s).
  { unfold will_reconnect. now rewrite Hc, Ha. }
  rewrite Hw. unfold after_close. fold s1.
  cbn [Ws.heartbeatInterval Ws.set_isConnected].
  destruct (will_reconnect s); cbn [Ws.when].
  - rewrite run_scheduleReconnect.
    unfold reconnect_delay. rewrite Hc, Ha, Ht. reflexivity.
  - reflexivity.
Qed.

Lemma scheduled_app t1 t2 :
  scheduled (t1 ++ t2) = (scheduled t1 ++ scheduled t2)%list.
Proof.
  induction t1 as [|e t1 IH]; simpl; [reflexivity|].
  destruct e; simpl; now rewrite ?IH.
Qed.

Lemma pow2_min_bounds a : (0 <= a)%Z -> (1 <= 2 ^ Z.min a 5 <= 32)%Z.
Proof.
  intros Ha. split.
  - apply (Z.pow_le_mono_r 2 0 (Z.min a 5)); lia.
  - change 32%Z with (2 ^ 5)%Z. apply Z.pow_le_mono_r; lia.
Qed.

(** X1.  When a socket closes the client is marked disconnected, its
    heartbeat is stopped and ['disconnected'] is emitted with the code
    and reason of the close.  One reconnect timer is set if
    reconnection is enabled and the counter is below
    [maxReconnectAttempts], and none otherwise; the counter then grows
    by one and the delay is [reconnectDelay * 2^min(counter, 5)] for
    the counter before the call, hence between [reconnectDelay] and 32
    times [reconnectDelay]. *)
Theorem close_schedules_backoff :
  forall (i : nat) (code : Z) (reason : string) (s : Ws.WebSocketClient),
    let r := Ws.on_close i code reason s in
    let s' := Ws.state_of r in
    let d := Ws.orElse (Ws.reconnectDelay (Ws.config s)) 5000%Z in
    Ws.completion_of r = Normal tt
    /\ Ws.isConnected s' = false
    /\ Ws.heartbeatInterval s' = None
    /\ In (Ws.Emit (Ws.Disconnected code reason)) (Ws.trace_of r)
    /\ (will_reconnect s = true ->
        scheduled (Ws.trace_of r)
        = [(Ws.timerCount s, (d * 2 ^ Z.min (Ws.reconnectAttempts s) 5)%Z)]
        /\ Ws.reconnectAttempts s' = (Ws.reconnectAttempts s + 1)%Z
        /\ Ws.reconnectTimeout s' = Some (Ws.timerCount s)
        /\ In (Ws.timerCount s) (Ws.timeouts s'))
    /\ (will_reconnect s = false ->
        scheduled (Ws.trace_of r) = []
        /\ Ws.reconnectAttempts s' = Ws.reconnectAttempts s
        /\ Ws.timeouts s' = Ws.timeouts s)
    /\ ((0 <= d)%Z -> (0 <= Ws.reconnectAttempts s)%Z ->
        (d <= reconnect_delay s <= 32 * d)%Z).
Proof.
  intros i code reason s r s' d. subst r s'. rewrite run_on_close.
  unfold Ws.completion_of, Ws.state_of, Ws.trace_of. cbn [fst snd].
  destruct (heartbeat_stopped_view (Ws.set_isConnected false s))
    as (Hc & Ha & Ht & Hto & _ & _ & _ & Hi & Hh).
  assert (Hsched : forall rest,
             scheduled (match Ws.heartbeatInterval s with
                        | Some t => [Ws.ClearInterval t]
                        | None => []
                        end ++ Ws.Emit (Ws.Disconnected code reason) :: rest)
             = scheduled rest).
  { intros rest. destruct (Ws.heartbeatInterval s); reflexivity. }
  split; [reflexivity|].
  split.
  { unfold after_close. destruct (will_reconnect s); [|exact Hi].
    unfold reconnecting. cbn [Ws.isConnected Ws.set_reconnectTimeout
      Ws.set_timerCount Ws.set_timeouts Ws.set_reconnectAttempts]. exact Hi. }
  split.
  { unfold after_close. destruct (will_reconnect s); [|exact Hh].
    unfold reconnecting. cbn [Ws.heartbeatInterval Ws.set_reconnectTimeout
      Ws.set_timerCount Ws.set_timeouts Ws.set_reconnectAttempts]. exact Hh. }
  split.
  { apply in_or_app. right. now left. }
  split; [|split].
  - intros Hw. rewrite Hsched. unfold after_close. rewrite Hw.
    unfold reconnecting.
    cbn [Ws.reconnectAttempts Ws.reconnectTimeout Ws.timeouts
         Ws.set_reconnectTimeout Ws.set_timerCount Ws.set_timeouts
         Ws.set_reconnectAttempts].
    rewrite Ha, Ht. cbn [Ws.reconnectAttempts Ws.timerCount Ws.set_isConnected].
    repeat split. now left.
  - intros Hw. rewrite Hsched. unfold after_close. rewrite Hw.
    rewrite Ha, Hto. repeat split.
  - intros Hd Hatt. unfold reconnect_delay. fold d.
    pose proof (pow2_min_bounds (Ws.reconnectAttempts s) Hatt) as [H1 H2].
    nia.
Qed.

(** On a client that lost its first connection. *)
Lemma close_schedules_backoff_witness :
  let s :=
    fst (Ws.run example_runtime [Ws.CallConnect; Ws.SocketOpen 0 0]
           (Ws.new_WebSocketClient no_config)) in
  scheduled (Ws.trace_of (Ws.on_close 0 1006 "" s)) = [(1%nat, 5000%Z)]
  /\ (5000 <= reconnect_delay s <= 32 * 5000)%Z.
Proof.
  intros s.
  destruct (close_schedules_backoff 0 1006 "" s)
    as (_ & _ & _ & _ & Hy & _ & Hb).
  assert (Hw : will_reconnect s = true) by (vm_compute; reflexivity).
  destruct (Hy Hw) as (Hs & _).
  split.
  - rewrite Hs. vm_compute. reflexivity.
  - assert (Hd : Ws.orElse (Ws.reconnectDelay (Ws.config s)) 5000%Z = 5000%Z)
      by (vm_compute; reflexivity).
    rewrite Hd in Hb. apply Hb; [lia|].
    assert (Ha : Ws.reconnectAttempts s = 0%Z) by (vm_compute; reflexivity).
    rewrite Ha. lia.
Defined.

(** *** Invariants of the timers over every run *)

Section TimerInvariants.
Variable rt : Ws.Runtime.

Lemma keeps_timer_view_step inp :
  match inp with
  | Ws.SocketOpen _ _ | Ws.SocketClose _ _ _ | Ws.CallDisconnect => True
  | _ => keeps timer_view (Ws.step rt inp)
  end.
Proof.
  destruct inp; try exact I;
    unfold Ws.step, Ws.connect, Ws.new_WebSocket, Ws.subscribe, Ws.unsubscribe,
      Ws.sendSubscribe, Ws.sendUnsubscribe, Ws.send, Ws.set_readyState,
      Ws.reconnect_fire, Ws.on_message, Ws.handleMessage, Ws.invoke, Ws.emit,
      Ws.on_error, Ws.on_ping, Ws.ws_pong, Ws.heartbeat_tick;
    keeps_field.
Qed.

Lemma heartbeat_stopped_intervals s :
  heartbeat_ok s -> Ws.intervals (heartbeat_stopped s) = [].
Proof.
  unfold heartbeat_ok, heartbeat_stopped. intros H.
  destruct (Ws.heartbeatInterval s) as [t|]; [|exact H].
  cbn [Ws.intervals Ws.set_heartbeatInterval Ws.set_intervals].
  rewrite H. unfold Ws.remove_timer. simpl. now rewrite Nat.eqb_refl.
Qed.

Lemma timers_ok_view budget s s' :
  timer_view s' = timer_view s -> timers_ok budget s -> timers_ok budget s'.
Proof.
  unfold timer_view, timers_ok, attempts_ok, heartbeat_ok.
  intros H (Hb & Ha & Hh). injection H as H1 H2 H3 H4.
  rewrite H1, H2, H3, H4. now repeat split.
Qed.

Lemma timers_ok_opened budget s :
  timers_ok budget s -> timers_ok budget (opened s).
Proof.
  intros (Hb & Ha & Hh).
  set (s1 := Ws.set_reconnectAttempts 0 (Ws.set_isConnected true s)).
  assert (Hh1 : heartbeat_ok s1) by exact Hh.
  pose proof (heartbeat_stopped_intervals s1 Hh1) as Hi.
  destruct (heartbeat_stopped_view s1) as (Hc & Hat & _).
  unfold opened. fold s1. unfold heartbeat_started, timers_ok, attempts_ok,
    heartbeat_ok.
  cbn [Ws.config Ws.reconnectAttempts Ws.intervals Ws.heartbeatInterval
       Ws.set_heartbeatInterval Ws.set_timerCount Ws.set_intervals].
  rewrite Hc, Hat, Hi. subst s1.
  cbn [Ws.config Ws.reconnectAttempts Ws.set_reconnectAttempts
       Ws.set_isConnected].
  repeat split; [assumption | lia | lia].
Qed.

Lemma timers_ok_after_close budget s :
  timers_ok budget s -> timers_ok budget (after_close s).
Proof.
  intros (Hb & Ha & Hh).
  set (s1 := Ws.set_isConnected false s).
  assert (Hh1 : heartbeat_ok s1) by exact Hh.
  pose proof (heartbeat_stopped_intervals s1 Hh1) as Hi.
  destruct (heartbeat_stopped_view s1)
    as (Hc & Hat & _ & _ & _ & _ & _ & _ & Hn).
  unfold after_close. fold s1.
  unfold timers_ok, attempts_ok, heartbeat_ok in *.
  destruct (will_reconnect s) eqn:Hw.
  - unfold reconnecting.
    cbn [Ws.config Ws.reconnectAttempts Ws.intervals Ws.heartbeatInterval
         Ws.set_reconnectTimeout Ws.set_timerCount Ws.set_timeouts
         Ws.set_reconnectAttempts].
    rewrite Hc, Hat, Hi, Hn. subst s1.
    cbn [Ws.config Ws.reconnectAttempts Ws.set_isConnected].
    unfold will_reconnect in Hw. apply andb_true_iff in Hw.
    destruct Hw as [_ Hlt]. apply Z.ltb_lt in Hlt.
    repeat split; [assumption | lia | lia].
  - rewrite Hc, Hat, Hi, Hn. subst s1.
    cbn [Ws.config Ws.reconnectAttempts Ws.set_isConnected].
    now repeat split.
Qed.

Lemma timers_ok_disconnected budget s :
  timers_ok budget s -> timers_ok budget (disconnected s).
Proof.
  intros (Hb & Ha & Hh).
  unfold timers_ok, attempts_ok, heartbeat_ok, disconnected in *.
  cbn -[Ws.remove_timer closing].
  split; [exact Hb|]. split; [exact Ha|].
  destruct (Ws.heartbeatInterval s) as [t|]; [|exact Hh].
  rewrite Hh. unfold Ws.remove_timer. simpl. now rewrite Nat.eqb_refl.
Qed.

Lemma step_close i code reason s :
  Ws.state_of (Ws.step rt (Ws.SocketClose i code reason) s) =
  match Ws.readyState s i with
  | Some Ws.CLOSED | None => s
  | Some _ =>
      after_close (Ws.set_sockets (Ws.replace_nth i Ws.CLOSED (Ws.sockets s)) s)
  end.
Proof.
  unfold Ws.step. rewrite run_get_bind.
  destruct (Ws.readyState s i) as [[]|]; try reflexivity;
    unfold Ws.set_readyState; rewrite run_modify_bind, run_on_close;
    reflexivity.
Qed.

Lemma step_open_state i now s :
  Ws.state_of (Ws.step rt (Ws.SocketOpen i now) s) =
  match Ws.readyState s i with
  | Some Ws.CONNECTING =>
      opened (Ws.set_sockets (Ws.replace_nth i Ws.OPEN (Ws.sockets s)) s)
  | _ => s
  end.
Proof.
  destruct (Ws.readyState s i) as [[]|] eqn:E;
    try (unfold Ws.step; rewrite run_get_bind, E; reflexivity).
  rewrite (step_open rt i now s E), run_on_open_eq. reflexivity.
Qed.

Lemma step_timers_ok budget inp s :
  timers_ok budget s -> timers_ok budget (Ws.state_of (Ws.step rt inp s)).
Proof.
  intros Hok.
  pose proof (keeps_timer_view_step inp) as Hk.
  destruct inp;
    try (apply (timers_ok_view budget s); [apply Hk | exact Hok]).
  - simpl. rewrite run_disconnect. now apply timers_ok_disconnected.
  - rewrite step_open_state.
    destruct (Ws.readyState s i) as [[]|]; try exact Hok.
    apply timers_ok_opened. exact Hok.
  - rewrite step_close.
    destruct (Ws.readyState s i) as [[]|]; try exact Hok;
      apply timers_ok_after_close; exact Hok.
Qed.

Lemma run_timers_ok budget inputs s :
  timers_ok budget s -> timers_ok budget (fst (Ws.run rt inputs s)).
Proof.
  revert s. induction inputs as [|inp inputs IH]; intros s Hok; simpl.
  - exact Hok.
  - pose proof (step_timers_ok budget inp s Hok) as Hstep.
    unfold Ws.state_of in Hstep.
    destruct (Ws.step rt inp s) as [[r s1] t1]. simpl in Hstep.
    specialize (IH s1 Hstep).
    destruct (Ws.run rt inputs s1) as [s2 t2]. exact IH.
Qed.

Lemma timers_ok_new cfg :
  timers_ok (Some (Ws.orElse (Ws.maxReconnectAttempts cfg) 10%Z))
            (Ws.new_WebSocketClient cfg).
Proof.
  unfold timers_ok, attempts_ok, heartbeat_ok. cbn. repeat split; lia.
Qed.

(** X2.  From the state the constructor builds, whatever calls and
    socket and timer events follow, the reconnect counter is never
    negative and never above the configured [maxReconnectAttempts] (10
    when none is configured), and that budget is never changed: without
    a successful open in between, at most that many reconnects are
    scheduled. *)
Theorem reconnect_attempts_bounded :
  forall (cfg : Ws.WebSocketConfig) (inputs : list Ws.Input),
    let s := fst (Ws.run rt inputs (Ws.new_WebSocketClient cfg)) in
    let budget := Ws.orElse (Ws.maxReconnectAttempts cfg) 10%Z in
    Ws.maxReconnectAttempts (Ws.config s) = Some budget
    /\ (0 <= Ws.reconnectAttempts s <= Z.max 0 budget)%Z
    /\ (will_reconnect s = true -> (Ws.reconnectAttempts s < budget)%Z).
Proof.
  intros cfg inputs s budget.
  destruct (run_timers_ok _ inputs _ (timers_ok_new cfg)) as (Hb & Ha & _).
  fold s in Hb, Ha. unfold attempts_ok in Ha. rewrite Hb in Ha.
  split; [exact Hb|]. split; [exact Ha|].
  unfold will_reconnect. rewrite Hb. intros H.
  apply andb_true_iff in H. destruct H as [_ H]. now apply Z.ltb_lt in H.
Qed.

(** X3.  From the state the constructor builds, whatever calls and
    socket and timer events follow, at most one heartbeat interval is
    live, and it is the one the client remembers in
    [heartbeatInterval]: a new heartbeat never leaves an older one
    running, and a stopped heartbeat leaves none. *)
Theorem heartbeat_single_timer :
  forall (cfg : Ws.WebSocketConfig) (inputs : list Ws.Input),
    let s := fst (Ws.run rt inputs (Ws.new_WebSocketClient cfg)) in
    Ws.intervals s = match Ws.heartbeatInterval s with
                     | Some t => [t]
                     | None => []
                     end
    /\ (List.length (Ws.intervals s) <= 1)%nat.
Proof.
  intros cfg inputs s.
  destruct (run_timers_ok _ inputs _ (timers_ok_new cfg)) as (_ & _ & Hh).
  fold s in Hh. unfold heartbeat_ok in Hh. split; [exact Hh|].
  rewrite Hh. destruct (Ws.heartbeatInterval s); simpl; lia.
Qed.
End TimerInvariants.

(* ===================================================================== *)
(** ** [unsubscribe], and [subscribe] undone *)
(* ===================================================================== *)

Lemma set_delete_nil hs h :
  Js.set_delete hs h = [] <-> forall x, In x hs -> x = h.
Proof.
  unfold Js.set_delete. induction hs as [|y hs IH]; simpl.
  - split; [intros _ x [] | reflexivity].
  - destruct (Nat.eqb_spec h y) as [->|Hne]; simpl.
    + rewrite IH. split.
      * intros H x [<-|Hx]; [reflexivity | now apply H].
      * intros H x Hx. apply H. now right.
    + split; [discriminate|].
      intros H. exfalso. apply Hne. symmetry. apply H. now left.
Qed.

Lemma set_delete_set_add hs h :
  ~ In h hs -> Js.set_delete (Js.set_add hs h) h = hs.
Proof.
  intros Hn. unfold Js.set_add.
  destruct (Js.set_has hs h) eqn:E; [apply set_has_In in E; contradiction|].
  unfold Js.set_delete. rewrite filter_app. simpl. rewrite Nat.eqb_refl. simpl.
  rewrite app_nil_r.
  clear E. induction hs as [|y hs IH]; simpl; [reflexivity|].
  destruct (Nat.eqb_spec h y) as [->|Hne]; simpl.
  - exfalso. apply Hn. now left.
  - rewrite IH; [reflexivity|]. intros Hin. apply Hn. now right.
Qed.

Lemma set_same {V : Type} (m : Js.Map V) k v :
  Js.get m k = Some v -> Js.set m k v = m.
Proof.
  induction m as [|[k' v'] m IH]; simpl; [discriminate|].
  destruct (String.eqb_spec k k') as [->|Hne].
  - intros H. injection H as ->. reflexivity.
  - intros H. now rewrite IH.
Qed.

Lemma delete_absent {V : Type} (m : Js.Map V) k :
  Js.has m k = false -> Js.delete m k = m.
Proof.
  unfold Js.has. induction m as [|[k' v'] m IH]; simpl; [reflexivity|].
  destruct (String.eqb_spec k k') as [->|Hne]; [discriminate|].
  intros H. now rewrite IH.
Qed.

Lemma delete_set_absent {V : Type} (m : Js.Map V) k v :
  Js.has m k = false -> Js.delete (Js.set m k v) k = m.
Proof.
  unfold Js.has. induction m as [|[k' v'] m IH]; simpl.
  - intros _. now rewrite String.eqb_refl.
  - destruct (String.eqb_spec k k') as [->|Hne]; [discriminate|].
    intros H. simpl. destruct (String.eqb_spec k k'); [congruence|].
    now rewrite IH.
Qed.

(** X4.  [unsubscribe] always returns.  It puts one [unsubscribe]
    message on the wire when [isConnected] is set, the socket held is
    open and no entry is left for the key, and nothing otherwise.  No
    entry is left exactly when no handler was given, or the key had no
    entry to begin with (a key never subscribed is still unsubscribed
    on the wire), or every handler of the entry is the one removed. *)
Theorem unsubscribe_sends_when_entry_gone :
  forall (c : Ws.WebSocketChannel) (h : option Ws.MessageHandler)
         (market : option string) (s : Ws.WebSocketClient),
    let r := Ws.unsubscribe c h market s in
    let key := key_of c market in
    let gone := negb (Js.has (Ws.subscriptions (Ws.state_of r)) key) in
    Ws.completion_of r = Normal tt
    /\ Ws.trace_of r =
       (if Ws.isConnected s && gone
        then sends_to (Ws.open_socket s)
                      [Ws.unsubscribe_message (Ws.channel_value c) market]
        else [])
    /\ (gone = true <->
        h = None
        \/ Js.get (Ws.subscriptions s) key = None
        \/ exists h0 hs,
             h = Some h0 /\ Js.get (Ws.subscriptions s) key = Some hs
             /\ forall x, In x hs -> x = h0).
Proof.
  intros c h market s r key gone. subst r gone.
  rewrite run_unsubscribe. cbv zeta.
  unfold Ws.completion_of, Ws.state_of, Ws.trace_of.
  cbn [fst snd Ws.subscriptions Ws.set_subscriptions]. fold key.
  split; [reflexivity|]. split; [reflexivity|].
  rewrite negb_true_iff. unfold unsubscribed.
  destruct h as [h0|].
  - destruct (Js.get (Ws.subscriptions s) key) as [hs|] eqn:Hget.
    + destruct (Nat.eqb_spec (Js.size (Js.set_delete hs h0)) 0) as [Hz|Hnz].
      * split; [|intros _; apply has_delete].
        intros _. right. right. exists h0, hs. repeat split.
        apply set_delete_nil. unfold Js.size in Hz.
        now apply length_zero_iff_nil.
      * split.
        -- unfold Js.has. rewrite get_set_same. discriminate.
        -- intros [H|[H|(h1 & hs1 & H1 & H2 & H3)]]; try discriminate.
           injection H1 as <-. injection H2 as <-.
           exfalso. apply Hnz. apply set_delete_nil in H3.
           unfold Js.size. now rewrite H3.
    + split; [intros _; right; now left|].
      intros _. unfold Js.has. now rewrite Hget.
  - split; [intros _; now left | intros _; apply has_delete].
Qed.

(** X5.  On a registry that satisfies its invariants, subscribing a
    handler that is not yet registered for the key and unsubscribing
    that handler again leaves the registry exactly as it was: the same
    keys in the same order with the same handler sets. *)
Theorem subscribe_unsubscribe_restores :
  forall (c : Ws.WebSocketChannel) (h : Ws.MessageHandler)
         (market : option string) (s : Ws.WebSocketClient),
    registry_ok (Ws.subscriptions s) ->
    ~ In h (Ws.orElse (Js.get (Ws.subscriptions s) (key_of c market)) []) ->
    Ws.subscriptions
      (Ws.state_of
         (Ws.unsubscribe c (Some h) market
            (Ws.state_of (Ws.subscribe c h market s))))
    = Ws.subscriptions s.
Proof.
  intros c h market s Hok Hn.
  rewrite run_subscribe. unfold Ws.state_of at 2. cbn [fst snd].
  rewrite run_unsubscribe. cbv zeta. unfold Ws.state_of.
  cbn [fst snd Ws.subscriptions Ws.set_subscriptions].
  set (key := key_of c market) in *. set (m := Ws.subscriptions s) in *.
  unfold subscribed, unsubscribed.
  destruct (Js.has m key) eqn:Hhas.
  - apply has_get in Hhas. destruct Hhas as [hs Hget].
    rewrite Hget in *. cbn [Ws.orElse] in *.
    rewrite get_set_same, set_delete_set_add by assumption.
    destruct (registry_ok_get _ _ _ Hok Hget) as [Hne _].
    destruct (Nat.eqb_spec (Js.size hs) 0) as [Hz|_].
    + exfalso. apply Hne. unfold Js.size in Hz. now apply length_zero_iff_nil.
    + rewrite set_set. now apply set_same.
  - assert (E : Js.set (Js.set m key []) key
                  (Js.set_add (Ws.orElse (Js.get (Js.set m key []) key) []) h)
                = Js.set m key [h]).
    { rewrite get_set_same, set_set. reflexivity. }
    rewrite E, get_set_same.
    change (Js.set_delete [h] h) with (Js.set_delete (Js.set_add [] h) h).
    rewrite (set_delete_set_add [] h) by (intros []).
    cbn [Js.size List.length Nat.eqb]. rewrite set_set.
    now apply delete_set_absent.
Qed.

(** On the registry of a client with one subscription. *)
Lemma subscribe_unsubscribe_restores_witness :
  let s :=
    fst (Ws.run example_runtime
           [Ws.CallSubscribe Ws.TRADES 5 (Some "BTC-USD.P")]
           (Ws.new_WebSocketClient no_config)) in
  Ws.subscriptions
    (Ws.state_of
       (Ws.unsubscribe Ws.TRADES (Some 6%nat) (Some "BTC-USD.P")
          (Ws.state_of (Ws.subscribe Ws.TRADES 6 (Some "BTC-USD.P") s))))
  = [("tradesPerps:BTC-USD.P", [5%nat])].
Proof.
  intros s.
  assert (Es : Ws.subscriptions s = [("tradesPerps:BTC-USD.P", [5%nat])])
    by (vm_compute; reflexivity).
  assert (Hok : registry_ok (Ws.subscriptions s)).
  { rewrite Es. split.
    - repeat constructor. intros [].
    - intros k hs [H|[]]. injection H as <- <-. split; [discriminate|].
      repeat constructor. intros []. }
  assert (Hn : ~ In 6%nat
                 (Ws.orElse (Js.get (Ws.subscriptions s)
                               (key_of Ws.TRADES (Some "BTC-USD.P"))) [])).
  { rewrite Es. vm_compute. intros [H|[]]. discriminate H. }
  pose proof (subscribe_unsubscribe_restores Ws.TRADES 6 (Some "BTC-USD.P") s
                Hok Hn) as H.
  rewrite <- Es. exact H.
Defined.

(* ===================================================================== *)
(** ** The ['message'] listener and the routing of frames *)
(* ===================================================================== *)

Lemma append_neq (a b : string) (c : ascii) : (a ++ String c b)%string <> a.
Proof.
  intros H.
  assert (L : String.length (a ++ String c b) = String.length a) by now rewrite H.
  clear H. induction a as [|x a IH]; simpl in L; [discriminate|].
  apply IH. now injection L.
Qed.

Lemma key_of_market_neq c q :
  Js.truthy q = true -> key_of c (Some q) <> key_of c None.
Proof.
  intros Hq. unfold key_of, Ws.getSubscriptionKey. simpl.
  rewrite Hq. apply append_neq.
Qed.

Lemma get_subscribed_other m key key' h :
  key' <> key -> Js.get (subscribed m key h) key' = Js.get m key'.
Proof.
  intros Hne. unfold subscribed.
  rewrite get_set_other by assumption.
  destruct (Js.has m key); [reflexivity|].
  now apply get_set_other.
Qed.

Section Frames.
Variable rt : Ws.Runtime.

Lemma dispatch_result_local listeners handlers payload :
  Forall local_only (snd (dispatch_result rt listeners handlers payload)).
Proof.
  induction handlers as [|h rest IH]; simpl; [constructor|].
  destruct (dispatch_result rt listeners rest payload) as [r t]. simpl in IH.
  destruct (Ws.call rt h payload); [destruct (listeners =? 0)%nat|]; simpl;
    repeat constructor; assumption.
Qed.

Lemma handleMessage_local m s :
  Forall local_only (Ws.trace_of (Ws.handleMessage rt m s)).
Proof.
  destruct (is_control m) eqn:Hc.
  - unfold is_control in Hc. unfold Ws.handleMessage, Ws.emit.
    destruct (String.eqb (Ws.type m) "subscribed"); [repeat constructor|].
    destruct (String.eqb (Ws.type m) "unsubscribed"); [repeat constructor|].
    destruct (String.eqb (Ws.type m) "error"); [|discriminate].
    unfold Ws.bind, Ws.get. cbn.
    destruct (Ws.errorListeners s =? 0)%nat; repeat constructor.
  - rewrite (run_handleMessage_data rt m s Hc). cbv zeta.
    pose proof (dispatch_result_local (Ws.errorListeners s)
                  (Ws.orElse (Js.get (Ws.subscriptions s) (routing_key m)) [])
                  (Ws.data m)) as Hl.
    destruct (dispatch_result rt _ _ _) as [[[]|e] t]; simpl in *;
      unfold Ws.trace_of; simpl; [|exact Hl].
    apply Forall_app. split; [exact Hl | repeat constructor].
Qed.

Lemma keeps_forget_sequence_handleMessage m :
  keeps forget_sequence (Ws.handleMessage rt m).
Proof.
  unfold Ws.handleMessage, Ws.invoke, Ws.emit. keeps_field.
Qed.

(** X6.  The ['message'] listener never lets an exception out, whatever
    the frame and whatever the handlers do.  A frame that does not
    parse changes nothing and causes nothing; any other frame changes
    at most the sequence counter, and causes only handler calls and
    events of the emitter: nothing is sent, no socket is opened or
    closed and no timer is set or cleared. *)
Theorem message_listener_contained :
  forall (i : nat) (frame : option Ws.WebSocketMessage) (s : Ws.WebSocketClient),
    let r := Ws.on_message rt i frame s in
    Ws.completion_of r = Normal tt
    /\ forget_sequence (Ws.state_of r) = forget_sequence s
    /\ Forall local_only (Ws.trace_of r)
    /\ Ws.on_message rt i None s = (Normal tt, s, []).
Proof.
  intros i frame s r. subst r.
  split; [|split; [|split]].
  - unfold Ws.on_message, Ws.try_catch, Ws.completion_of.
    destruct frame as [m|].
    + destruct (Ws.handleMessage rt m s) as [[[[]|e] s1] t1] eqn:E; reflexivity.
    + reflexivity.
  - apply (keeps_try_catch forget_sequence).
    + destruct frame as [m|].
      * apply keeps_forget_sequence_handleMessage.
      * apply keeps_throw.
    + intros e. apply keeps_ret.
  - unfold Ws.on_message, Ws.try_catch, Ws.trace_of.
    destruct frame as [m|]; [|constructor].
    pose proof (handleMessage_local m s) as Hl. unfold Ws.trace_of in Hl.
    destruct (Ws.handleMessage rt m s) as [[[[]|e] s1] t1] eqn:E; simpl in *;
      [exact Hl|].
    now rewrite app_nil_r.
  - reflexivity.
Qed.

(** X7.  A handler subscribed for a channel and market is called with
    the data of every data frame of that channel whose [market] is
    that market, and a handler subscribed without a market with the
    data of every data frame of the channel that names no market,
    provided an ['error'] listener is attached. *)
Theorem subscribed_handler_receives :
  forall (c : Ws.WebSocketChannel) (h : Ws.MessageHandler)
         (market : option string) (m : Ws.WebSocketMessage)
         (s : Ws.WebSocketClient),
    Ws.channel m = Ws.channel_value c ->
    Js.opt_prop (Ws.data m) "market" = option_map Js.JString market ->
    is_control m = false ->
    (0 < Ws.errorListeners s)%nat ->
    let s1 := Ws.state_of (Ws.subscribe c h market s) in
    Ws.completion_of (Ws.handleMessage rt m s1) = Normal tt
    /\ In (h, Ws.data m) (Ws.calls (Ws.trace_of (Ws.handleMessage rt m s1))).
Proof.
  intros c h market m s Hch Hmk Hc Hl s1.
  assert (Hkey : routing_key m = key_of c market).
  { unfold routing_key, key_of. now rewrite Hch, Hmk. }
  assert (Hl1 : (0 < Ws.errorListeners s1)%nat).
  { subst s1. rewrite run_subscribe. exact Hl. }
  destruct (dispatch_isolated_with_error_listener rt m s1 Hc Hl1) as [H1 H2].
  split; [exact H1|]. rewrite H2, Hkey.
  subst s1. rewrite run_subscribe. unfold Ws.state_of.
  cbn [fst snd Ws.subscriptions Ws.set_subscriptions].
  unfold subscribed. rewrite get_set_same. cbn [Ws.orElse].
  apply in_map_iff. exists h. split; [reflexivity | apply set_add_In].
Qed.

(** X8.  A handler subscribed to a channel without a market is not
    called for a data frame of that channel whose data names a market:
    the frame is routed by the key of channel and market, and when
    that key has no entry no handler is called at all. *)
Theorem channel_wide_handler_misses_market_frames :
  forall (c : Ws.WebSocketChannel) (h : Ws.MessageHandler) (q : string)
         (m : Ws.WebSocketMessage) (s : Ws.WebSocketClient),
    Js.truthy q = true ->
    Ws.channel m = Ws.channel_value c ->
    Js.opt_prop (Ws.data m) "market" = Some (Js.JString q) ->
    is_control m = false ->
    Js.get (Ws.subscriptions s) (key_of c (Some q)) = None ->
    let s1 := Ws.state_of (Ws.subscribe c h None s) in
    In h (Ws.orElse (Js.get (Ws.subscriptions s1) (key_of c None)) [])
    /\ Ws.completion_of (Ws.handleMessage rt m s1) = Normal tt
    /\ Ws.calls (Ws.trace_of (Ws.handleMessage rt m s1)) = [].
Proof.
  intros c h q m s Hq Hch Hmk Hc Hnone s1.
  assert (Hkey : routing_key m = key_of c (Some q)).
  { unfold routing_key, key_of. now rewrite Hch, Hmk. }
  assert (Hs1 : Ws.subscriptions s1
                = subscribed (Ws.subscriptions s) (key_of c None) h).
  { subst s1. rewrite run_subscribe. reflexivity. }
  split.
  { rewrite Hs1. unfold subscribed. rewrite get_set_same. cbn [Ws.orElse].
    apply set_add_In. }
  rewrite (run_handleMessage_data rt m s1 Hc). cbv zeta.
  rewrite Hkey, Hs1, get_subscribed_other by now apply key_of_market_neq.
  rewrite Hnone. cbn [Ws.orElse dispatch_result].
  split; reflexivity.
Qed.

(** X9.  With no ['error'] listener attached, an inbound frame of type
    [error] has no effect whatever: no event is emitted, nothing is
    logged in the trace, the client is unchanged and the listener
    returns. *)
Theorem error_frame_dropped_without_listener :
  forall (i : nat) (m : Ws.WebSocketMessage) (s : Ws.WebSocketClient),
    Ws.type m = "error" ->
    Ws.errorListeners s = 0%nat ->
    Ws.on_message rt i (Some m) s = (Normal tt, s, []).
Proof.
  intros i m s Ht Hl.
  unfold Ws.on_message, Ws.try_catch, Ws.handleMessage. rewrite Ht.
  cbn [String.eqb Ascii.eqb Bool.eqb].
  unfold Ws.emit. rewrite run_get_bind, Hl. reflexivity.
Qed.
End Frames.

(** A trades frame reaches the handler subscribed to its market. *)
Lemma subscribed_handler_receives_witness :
  let s :=
    fst (Ws.run example_runtime [Ws.CallOnError]
           (Ws.new_WebSocketClient no_config)) in
  let m := data_frame "tradesPerps" "BTC-USD.P" None in
  In (7%nat, Ws.data m)
     (Ws.calls
        (Ws.trace_of
           (Ws.handleMessage example_runtime m
              (Ws.state_of (Ws.subscribe Ws.TRADES 7 (Some "BTC-USD.P") s))))).
Proof.
  intros s m.
  assert (Hl : (0 < Ws.errorListeners s)%nat) by (vm_compute; lia).
  destruct (subscribed_handler_receives example_runtime Ws.TRADES 7
              (Some "BTC-USD.P") m s eq_refl eq_refl eq_refl Hl) as [_ H].
  exact H.
Defined.

(** An orders frame that names its market passes by the handler of
    [ordersPerps]. *)
Lemma channel_wide_handler_misses_market_frames_witness :
  let s := Ws.new_WebSocketClient config_with_auth in
  let m := data_frame "ordersPerps" "BTC-USD.P" None in
  Ws.calls
    (Ws.trace_of
       (Ws.handleMessage example_runtime m
          (Ws.state_of (Ws.subscribe Ws.ORDERS 7 None s)))) = [].
Proof.
  intros s m.
  destruct (channel_wide_handler_misses_market_frames example_runtime
              Ws.ORDERS 7 "BTC-USD.P" m s eq_refl eq_refl eq_refl eq_refl eq_refl)
    as (_ & _ & H).
  exact H.
Defined.

(** An error frame on a client nobody listens to. *)
Lemma error_frame_dropped_without_listener_witness :
  let s :=
    fst (Ws.run example_runtime [Ws.CallConnect; Ws.SocketOpen 0 0]
           (Ws.new_WebSocketClient no_config)) in
  let m := {| Ws.channel := "tradesPerps"; Ws.type := "error";
              Ws.data := Js.JObject [("message", Js.JString "bad channel")];
              Ws.sequence := None; Ws.timestamp := None |} in
  Ws.trace_of (Ws.on_message example_runtime 0 (Some m) s) = [].
Proof.
  intros s m.
  assert (Hl : Ws.errorListeners s = 0%nat) by (vm_compute; reflexivity).
  rewrite (error_frame_dropped_without_listener example_runtime 0 m s eq_refl Hl).
  reflexivity.
Defined.

(* ===================================================================== *)
(** ** A reconnect, from the close to the replay *)
(* ===================================================================== *)

Lemma length_replace_nth {A : Type} (i : nat) (v : A) (l : list A) :
  List.length (Ws.replace_nth i v l) = List.length l.
Proof.
  revert i. induction l as [|x l IH]; intros [|i]; simpl; try reflexivity.
  now rewrite IH.
Qed.

Lemma nth_error_app_last {A : Type} (l : list A) (x : A) :
  nth_error (l ++ [x]) (List.length l) = Some x.
Proof. induction l as [|y l IH]; simpl; [reflexivity | exact IH]. Qed.

Lemma mem_timer_head t l : Ws.mem_timer t (t :: l) = true.
Proof. unfold Ws.mem_timer. simpl. now rewrite Nat.eqb_refl. Qed.

(** [connect()], run: the table of URLs has no empty entry. *)
Lemma run_connect s :
  Ws.connect s =
  (Normal tt,
   Ws.set_ws (Some (List.length (Ws.sockets s)))
     (Ws.set_sockets (Ws.sockets s ++ [Ws.CONNECTING])%list s),
   [Ws.WsNew (List.length (Ws.sockets s))
      (Ws.WS_URLS (Ws.orElse (Ws.environment (Ws.config s))
                             Ws.PROD_PERMISSIONLESS))]).
Proof.
  unfold Ws.connect. rewrite run_get_bind. cbv zeta.
  assert (Ht : forall e, Js.truthy (Ws.WS_URLS e) = true)
    by (intros []; reflexivity).
  rewrite Ht. cbn [negb].
  unfold Ws.new_WebSocket.
  rewrite run_bind, run_get_bind, run_modify_bind.
  reflexivity.
Qed.

Lemma scheduled_sends_to o ms : scheduled (sends_to o ms) = [].
Proof.
  destruct o as [j|]; [|reflexivity].
  induction ms as [|m ms IH]; [reflexivity | exact IH].
Qed.

Section Reconnect.
Variable rt : Ws.Runtime.

Lemma step_close_open i code reason s :
  Ws.readyState s i = Some Ws.OPEN ->
  Ws.step rt (Ws.SocketClose i code reason) s
  = Ws.on_close i code reason
      (Ws.set_sockets (Ws.replace_nth i Ws.CLOSED (Ws.sockets s)) s).
Proof.
  intros Hst. unfold Ws.step. rewrite run_get_bind, Hst.
  unfold Ws.set_readyState. now rewrite run_modify_bind.
Qed.

Lemma step_timeout_pending t s :
  Ws.mem_timer t (Ws.timeouts s) = true ->
  Ws.step rt (Ws.TimeoutFires t) s
  = Ws.connect (Ws.set_timeouts (Ws.remove_timer t (Ws.timeouts s)) s).
Proof.
  intros Hm. unfold Ws.step, Ws.reconnect_fire.
  rewrite run_get_bind, Hm. now rewrite run_modify_bind.
Qed.

Lemma sent_clear (o : option nat) :
  Ws.sent (match o with
           | Some t => [Ws.ClearInterval t]
           | None => []
           end) = [].
Proof. now destruct o. Qed.

Lemma scheduled_clear (o : option nat) :
  scheduled (match o with
             | Some t => [Ws.ClearInterval t]
             | None => []
             end) = [].
Proof. now destruct o. Qed.

(** X10.  When the open socket the client holds closes while
    reconnection is enabled and the budget is not used up, and the
    reconnect timer the close set then fires, and the socket the
    reconnect created opens: the wire carries, on the new socket, the
    [auth] message if credentials are configured and one [subscribe]
    per key of the registry as it was before the close, and nothing
    else; the client is connected again and the registry is
    unchanged. *)
Theorem reconnect_replays_registry :
  forall (i : nat) (code : Z) (reason : string) (now : Z)
         (s : Ws.WebSocketClient),
    Ws.readyState s i = Some Ws.OPEN ->
    will_reconnect s = true ->
    let n := List.length (Ws.sockets s) in
    let r :=
      Ws.run rt [Ws.SocketClose i code reason;
                 Ws.TimeoutFires (Ws.timerCount s);
                 Ws.SocketOpen n now] s in
    Ws.sent (snd r) = map (pair n) (replay rt s now)
    /\ scheduled (snd r) = [(Ws.timerCount s, reconnect_delay s)]
    /\ Ws.isConnected (fst r) = true
    /\ Ws.subscriptions (fst r) = Ws.subscriptions s.
Proof.
  intros i code reason now s Hst Hw n r. subst r.
  cbn [Ws.run].
  (* the close *)
  rewrite (step_close_open i code reason s Hst), run_on_close.
  set (sC := Ws.set_sockets (Ws.replace_nth i Ws.CLOSED (Ws.sockets s)) s).
  assert (HwC : will_reconnect sC = true) by exact Hw.
  rewrite HwC.
  set (s1 := after_close sC).
  destruct (heartbeat_stopped_view (Ws.set_isConnected false sC))
    as (Hc & Ha & Ht & Hto & Hsub & Hws & Hso & _ & _).
  assert (Hs1 : s1 = reconnecting (heartbeat_stopped (Ws.set_isConnected false sC))).
  { unfold s1, after_close. now rewrite HwC. }
  assert (Hto1 : Ws.timeouts s1 = Ws.timerCount s :: Ws.timeouts s).
  { rewrite Hs1. unfold reconnecting.
    cbn [Ws.timeouts Ws.set_reconnectTimeout Ws.set_timerCount Ws.set_timeouts].
    now rewrite Ht, Hto. }
  assert (Hso1 : Ws.sockets s1 = Ws.replace_nth i Ws.CLOSED (Ws.sockets s)).
  { rewrite Hs1. unfold reconnecting.
    cbn [Ws.sockets Ws.set_reconnectTimeout Ws.set_timerCount Ws.set_timeouts
         Ws.set_reconnectAttempts].
    now rewrite Hso. }
  assert (Hc1 : Ws.config s1 = Ws.config s).
  { rewrite Hs1. unfold reconnecting.
    cbn [Ws.config Ws.set_reconnectTimeout Ws.set_timerCount Ws.set_timeouts
         Ws.set_reconnectAttempts].
    now rewrite Hc. }
  assert (Hsub1 : Ws.subscriptions s1 = Ws.subscriptions s).
  { rewrite Hs1. unfold reconnecting.
    cbn [Ws.subscriptions Ws.set_reconnectTimeout Ws.set_timerCount
         Ws.set_timeouts Ws.set_reconnectAttempts].
    now rewrite Hsub. }
  (* the timer *)
  rewrite (step_timeout_pending (Ws.timerCount s) s1)
    by (rewrite Hto1; apply mem_timer_head).
  rewrite run_connect.
  cbn [Ws.sockets Ws.set_timeouts Ws.config]. rewrite Hso1, Hc1.
  rewrite length_replace_nth. fold n.
  set (s2 := Ws.set_ws (Some n) (Ws.set_sockets _ (Ws.set_timeouts _ s1))).
  (* the open *)
  assert (Hst2 : Ws.readyState s2 n = Some Ws.CONNECTING).
  { unfold Ws.readyState, s2. cbn [Ws.sockets Ws.set_ws Ws.set_sockets].
    unfold n. rewrite <- (length_replace_nth i Ws.CLOSED (Ws.sockets s)).
    apply nth_error_app_last. }
  rewrite (step_open rt n now s2 Hst2).
  set (s2' := Ws.set_sockets (Ws.replace_nth n Ws.OPEN (Ws.sockets s2)) s2).
  destruct (run_on_open rt n now s2') as (Hco & Hsent & Hsubs & Hconn).
  unfold Ws.completion_of, Ws.trace_of, Ws.state_of in Hco, Hsent, Hsubs, Hconn.
  destruct (Ws.on_open rt n now s2') as [[r3 s3] t3] eqn:E3.
  cbn [fst snd] in *. subst r3.
  assert (Hopen : Ws.open_socket s2' = Some n).
  { unfold Ws.open_socket, Ws.is_open, Ws.readyState, s2'.
    cbn [Ws.ws Ws.sockets Ws.set_sockets]. unfold s2 at 1. cbn [Ws.ws Ws.set_ws].
    unfold Ws.readyState in Hst2.
    now rewrite (nth_error_replace_nth _ _ _ _ Hst2). }
  assert (Hrep : replay rt s2' now = replay rt s now).
  { unfold replay, auth_messages, s2', s2.
    cbn [Ws.config Ws.subscriptions Ws.set_sockets Ws.set_ws Ws.set_timeouts].
    now rewrite Hc1, Hsub1. }
  assert (Hsched3 : scheduled t3 = []).
  { pose proof (run_on_open_eq rt n now s2') as Heq. rewrite E3 in Heq.
    injection Heq as _ Ht3. rewrite Ht3. cbn [scheduled].
    rewrite scheduled_app. cbn [scheduled app].
    rewrite scheduled_app, scheduled_sends_to. cbn [scheduled app].
    rewrite app_nil_r.
    now destruct (Ws.heartbeatInterval s1). }
  split; [|split; [|split]].
  - cbn [Ws.uncaught app]. rewrite !sent_app, sent_clear.
    cbn [Ws.sent app]. rewrite ?app_nil_r, Hsent, Hopen, Hrep.
    apply sent_sends_to.
  - cbn [Ws.uncaught app].
    repeat (progress (rewrite ?scheduled_app, ?scheduled_clear;
                      cbn [scheduled app])).
    rewrite Hsched3. reflexivity.
  - exact Hconn.
  - rewrite Hsubs. unfold s2', s2.
    cbn [Ws.subscriptions Ws.set_sockets Ws.set_ws Ws.set_timeouts].
    exact Hsub1.
Qed.
End Reconnect.

(** A connected client with credentials and two subscriptions loses
    its socket and comes back on socket 1. *)
Lemma reconnect_replays_registry_witness :
  let s :=
    fst (Ws.run example_runtime
           [Ws.CallSubscribe Ws.TRADES 5 (Some "BTC-USD.P");
            Ws.CallSubscribe Ws.ORDERS 6 None;
            Ws.CallConnect; Ws.SocketOpen 0 7]
           (Ws.new_WebSocketClient config_with_auth)) in
  Ws.sent (snd (Ws.run example_runtime
                  [Ws.SocketClose 0 1006 ""; Ws.TimeoutFires 1;
                   Ws.SocketOpen 1 9] s))
  = [(1%nat, Ws.OpAuth 9 "key" "signature");
     (1%nat, Ws.OpSubscribe "tradesPerps" (Some "BTC-USD.P"));
     (1%nat, Ws.OpSubscribe "ordersPerps" None)].
Proof.
  intros s.
  assert (Hst : Ws.readyState s 0 = Some Ws.OPEN) by (vm_compute; reflexivity).
  assert (Hw : will_reconnect s = true) by (vm_compute; reflexivity).
  destruct (reconnect_replays_registry example_runtime 0 1006 "" 9 s Hst Hw)
    as (H & _).
  assert (Et : Ws.timerCount s = 1%nat) by (vm_compute; reflexivity).
  assert (En : List.length (Ws.sockets s) = 1%nat) by (vm_compute; reflexivity).
  rewrite Et, En in H. rewrite H. vm_compute. reflexivity.
Defined.

(* ===================================================================== *)
(** ** The request executor: retries, settlement and the wrapper *)
(* ===================================================================== *)

Lemma forward_pending (inner : Http.Promise) :
  Http.forward inner Http.Pending = inner.
Proof. now destruct inner. Qed.

Lemma attempts_app l1 l2 :
  Http.attempts (l1 ++ l2) = (Http.attempts l1 ++ Http.attempts l2)%list.
Proof.
  induction l1 as [|e l1 IH]; simpl; [reflexivity|].
  destruct e; simpl; now rewrite ?IH.
Qed.

Lemma delays_app l1 l2 :
  Http.delays (l1 ++ l2) = (Http.delays l1 ++ Http.delays l2)%list.
Proof.
  induction l1 as [|e l1 IH]; simpl; [reflexivity|].
  destruct e; simpl; now rewrite ?IH.
Qed.

Lemma attempts_retry_log this method path bs attempt k :
  Http.attempts (retry_log this method path bs attempt k) = zseq attempt k.
Proof.
  revert attempt. induction k as [|k IH]; intros attempt; simpl; [reflexivity|].
  now rewrite IH.
Qed.

Lemma delays_retry_log this method path bs attempt k :
  Http.delays (retry_log this method path bs attempt k)
  = map (Http.backoff this) (zseq attempt k).
Proof.
  revert attempt. induction k as [|k IH]; intros attempt; simpl; [reflexivity|].
  now rewrite IH.
Qed.

Section Retries.
Variable rt : Http.Runtime.
Variable this : Http.EnclaveClient.
Variable remote : Http.Remote.

Abbreviation request' := (Http.request rt this remote).
Abbreviation maxRetries' := (Http.client_maxRetries this).

(** The listeners on a retryable event, while retries are left. *)
Lemma deliver_one_retryable method path attempt ev p log n :
  (attempt <= maxRetries')%Z ->
  retryable ev = true ->
  Http.deliver_one rt this method path attempt ev (p, log, n)
  = (p, (log ++ [Http.SetTimeout (Http.backoff this attempt)])%list, S n).
Proof.
  intros Hle Hev.
  assert (Hle' : (attempt <=? maxRetries')%Z = true) by (apply Z.leb_le; lia).
  destruct ev as [[st|] data|e|]; try discriminate; cbn [Http.deliver_one].
  - simpl in Hev. apply Z.eqb_eq in Hev. subst st.
    unfold Http.on_end, Http.on_end_try. rewrite Hle'. reflexivity.
  - unfold Http.on_error. rewrite Hle'. reflexivity.
Qed.

(** One retry: the call settles as the next attempt does. *)
Lemma retry_step method path body attempt ev :
  (attempt <= maxRetries')%Z ->
  remote attempt = [ev] ->
  retryable ev = true ->
  forall p log,
    request' method path body (attempt + 1)%Z = Some (p, log) ->
    request' method path body attempt
    = Some (p, Http.HttpsRequest method path (Http.bodyString_of rt body) attempt
               :: Http.SetTimeout (Http.backoff this attempt) :: log).
Proof.
  intros Hle Hremote Hev p log Hnext.
  rewrite request_unfold, Hremote. cbn [Http.deliver].
  rewrite (deliver_one_retryable _ _ _ _ _ _ _ Hle Hev), Hnext.
  cbn [Http.run_retries]. now rewrite forward_pending.
Qed.

Lemma retries_transparent method path body k :
  forall attempt,
    (attempt + Z.of_nat k <= maxRetries' + 1)%Z ->
    (forall a, (attempt <= a < attempt + Z.of_nat k)%Z ->
               exists ev, remote a = [ev] /\ retryable ev = true) ->
    forall p log,
      request' method path body (attempt + Z.of_nat k)%Z = Some (p, log) ->
      request' method path body attempt
      = Some (p, (retry_log this method path (Http.bodyString_of rt body)
                            attempt k ++ log)%list).
Proof.
  induction k as [|k IH]; intros attempt Hle Hev p log Hlast.
  - replace (attempt + Z.of_nat 0)%Z with attempt in Hlast by lia.
    exact Hlast.
  - destruct (Hev attempt ltac:(lia)) as (ev & Hremote & Hr).
    cbn [retry_log app].
    apply (retry_step method path body attempt ev ltac:(lia) Hremote Hr).
    apply IH.
    + lia.
    + intros a Ha. apply Hev. lia.
    + replace (attempt + 1 + Z.of_nat k)%Z with (attempt + Z.of_nat (S k))%Z by lia.
      exact Hlast.
Qed.

(** A single response of the success range. *)
Lemma success_response method path body attempt status data :
  is_success status = true ->
  remote attempt = [Http.ResEnd (Some status) data] ->
  request' method path body attempt
  = Some (match parsed_body rt data with
          | Normal v => Http.Resolved v
          | Throw e =>
              Http.Rejected
                (ApiError
                   (new_EnclaveApiError
                      ("Failed to parse response: " ++ String_of_error e)
                      path method (Some status) (Some data)))
          end,
          [Http.HttpsRequest method path (Http.bodyString_of rt body) attempt]).
Proof.
  unfold is_success. intros Hs Hremote.
  assert (H0 : (status =? 0)%Z = false) by (apply Z.eqb_neq; lia).
  assert (H429 : (status =? 429)%Z = false) by (apply Z.eqb_neq; lia).
  rewrite request_unfold, Hremote. cbn [Http.deliver Http.deliver_one].
  unfold Http.on_end, Http.on_end_try. rewrite H0, H429, Hs. cbn [andb].
  unfold parsed_body.
  destruct (if Js.truthy data then Http.JSON_parse rt data
            else Normal (Js.JObject [])) as [v|e]; reflexivity.
Qed.

(** X11.  When each of the first [k] attempts, [k] at most the retry
    ceiling, ends in a response with status 429 or in a failure of the
    request, and attempt [k + 1] is answered with a status of the
    success range and a body that parses (an empty body stands for the
    empty object), the call resolves with the parsed value after
    exactly the attempts 1 to [k + 1], each of the first [k] followed
    by a timer of [retryDelay * 2^(a - 1)]. *)
Theorem retries_then_success_resolves :
  forall (method path : string) (body : option Js.json) (k : nat)
         (status : Z) (data : string) (v : Js.json),
    (Z.of_nat k <= maxRetries')%Z ->
    (forall a, (1 <= a <= Z.of_nat k)%Z ->
               exists ev, remote a = [ev] /\ retryable ev = true) ->
    remote (1 + Z.of_nat k)%Z = [Http.ResEnd (Some status) data] ->
    is_success status = true ->
    parsed_body rt data = Normal v ->
    exists log,
      request' method path body 1 = Some (Http.Resolved v, log)
      /\ log = (retry_log this method path (Http.bodyString_of rt body) 1 k
                ++ [Http.HttpsRequest method path (Http.bodyString_of rt body)
                      (1 + Z.of_nat k)])%list
      /\ Http.attempts log = zseq 1 (S k)
      /\ Http.delays log
         = map (fun a => (Http.client_retryDelay this * 2 ^ (a - 1))%Z)
               (zseq 1 k).
Proof.
  intros method0 path body k status data v Hk Hev Hlast Hs Hv.
  pose proof (success_response method0 path body _ status data Hs Hlast) as Hreq.
  rewrite Hv in Hreq.
  eexists. split; [|split; [reflexivity|split]].
  - apply (retries_transparent method0 path body k 1%Z); [lia | | exact Hreq].
    intros a Ha. apply Hev. lia.
  - rewrite attempts_app, attempts_retry_log. cbn [Http.attempts].
    clear. generalize 1%Z as a. induction k as [|k IH]; intros a.
    + simpl. now rewrite Z.add_0_r.
    + cbn [zseq app]. f_equal.
      replace (a + Z.of_nat (S k))%Z with (a + 1 + Z.of_nat k)%Z by lia.
      apply IH.
  - rewrite delays_app, delays_retry_log. cbn [Http.delays].
    now rewrite app_nil_r.
Qed.

(** X12.  A response of the success range whose body [JSON.parse]
    refuses is not a success: the promise is rejected, at once and
    without a retry, with an [EnclaveApiError] that carries the 2xx
    status and the body, and whose message reports the parse
    failure. *)
Theorem unparsable_success_rejected :
  forall (method path : string) (body : option Js.json) (attempt status : Z)
         (data : string) (e : JsError),
    is_success status = true ->
    remote attempt = [Http.ResEnd (Some status) data] ->
    parsed_body rt data = Throw e ->
    exists err,
      request' method path body attempt
      = Some (Http.Rejected (ApiError err),
              [Http.HttpsRequest method path (Http.bodyString_of rt body) attempt])
      /\ err = new_EnclaveApiError
                 ("Failed to parse response: " ++ String_of_error e)
                 path method (Some status) (Some data)
      /\ statusCode err = Some status
      /\ responseBody err = Some data
      /\ Js.truthy data = true.
Proof.
  intros method0 path body attempt status data e Hs Hremote He.
  pose proof (success_response method0 path body attempt status data Hs Hremote)
    as Hreq.
  rewrite He in Hreq.
  eexists. split; [exact Hreq|]. repeat split.
  unfold parsed_body in He. destruct (Js.truthy data); [reflexivity | discriminate].
Qed.

(** The last attempt, when the request fails: the raw error. *)
Lemma error_at_last_attempt method path body attempt e :
  (maxRetries' < attempt)%Z ->
  remote attempt = [Http.ReqError e] ->
  request' method path body attempt
  = Some (Http.Rejected e,
          [Http.HttpsRequest method path (Http.bodyString_of rt body) attempt]).
Proof.
  intros Hlt Hremote.
  assert (Hle : (attempt <=? maxRetries')%Z = false) by (apply Z.leb_gt; lia).
  rewrite request_unfold, Hremote. cbn [Http.deliver Http.deliver_one].
  unfold Http.on_error. rewrite Hle. reflexivity.
Qed.

(** X13.  With a retry ceiling that is not negative, a call whose every
    attempt fails at the transport level issues attempts 1 to
    [maxRetries + 1], a timer of [retryDelay * 2^(a - 1)] after each
    attempt [a] but the last, and is rejected with the error of the
    last attempt as it is, not wrapped in an [EnclaveApiError]. *)
Theorem transport_errors_exhaust_retries :
  forall (method path : string) (body : option Js.json) (error : Z -> JsError),
    (0 <= maxRetries')%Z ->
    (forall a, remote a = [Http.ReqError (error a)]) ->
    exists log,
      request' method path body 1
      = Some (Http.Rejected (error (maxRetries' + 1)%Z), log)
      /\ Http.attempts log = zseq 1 (S (Z.to_nat maxRetries'))
      /\ Http.delays log
         = map (fun a => (Http.client_retryDelay this * 2 ^ (a - 1))%Z)
               (zseq 1 (Z.to_nat maxRetries')).
Proof.
  intros method0 path body error Hmax Hremote.
  set (k := Z.to_nat maxRetries').
  assert (Hk : (1 + Z.of_nat k)%Z = (maxRetries' + 1)%Z) by (unfold k; lia).
  pose proof (error_at_last_attempt method0 path body (1 + Z.of_nat k)%Z
                (error (1 + Z.of_nat k)%Z) ltac:(lia) (Hremote _)) as Hlast.
  eexists. split; [|split].
  - rewrite <- Hk.
    apply (retries_transparent method0 path body k 1%Z); [lia | | exact Hlast].
    intros a _. exists (Http.ReqError (error a)). now split.
  - rewrite attempts_app, attempts_retry_log. cbn [Http.attempts].
    clear. generalize 1%Z as a. induction k as [|k IH]; intros a.
    + simpl. now rewrite Z.add_0_r.
    + cbn [zseq app]. f_equal.
      replace (a + Z.of_nat (S k))%Z with (a + 1 + Z.of_nat k)%Z by lia.
      apply IH.
  - rewrite delays_app, delays_retry_log. cbn [Http.delays].
    now rewrite app_nil_r.
Qed.

(** *** The promise settles once *)

Lemma act_keeps_settled a p log n :
  settled p = true ->
  fst (fst (Http.act a (p, log, n))) = p.
Proof. destruct a, p; simpl; intros H; try discriminate; reflexivity. Qed.

Lemma deliver_one_keeps_settled method path attempt ev p log n :
  settled p = true ->
  fst (fst (Http.deliver_one rt this method path attempt ev (p, log, n))) = p.
Proof.
  intros Hp. destruct ev; cbn [Http.deliver_one]; now apply act_keeps_settled.
Qed.

Lemma deliver_keeps_settled method path attempt events :
  forall p log n,
    settled p = true ->
    fst (fst (Http.deliver rt this method path attempt events (p, log, n))) = p.
Proof.
  induction events as [|ev events IH]; intros p log n Hp; [reflexivity|].
  cbn [Http.deliver].
  pose proof (deliver_one_keeps_settled method path attempt ev p log n Hp) as H1.
  destruct (Http.deliver_one rt this method path attempt ev (p, log, n))
    as [[p1 log1] n1]. cbn [fst] in H1. subst p1. now apply IH.
Qed.

Lemma forward_keeps_settled inner p :
  settled p = true -> Http.forward inner p = p.
Proof. destruct inner, p; simpl; intros H; try discriminate; reflexivity. Qed.

Lemma run_retries_keeps_settled n r :
  forall p log,
    settled p = true ->
    exists log', Http.run_retries n (Some r) p log = Some (p, log').
Proof.
  induction n as [|n IH]; intros p log Hp; cbn [Http.run_retries].
  - now eexists.
  - destruct r as [pi li]. rewrite (forward_keeps_settled pi p Hp).
    now apply IH.
Qed.

(** X14.  The first settlement wins.  When the first event of an
    attempt resolves or rejects the promise, the call ends with that
    value or reason, whatever the later events of the attempt are and
    whatever the retries they start do; the later events can add
    requests and timers to the trace but cannot change the result. *)
Theorem first_settlement_wins :
  forall (method path : string) (body : option Js.json) (attempt : Z)
         (ev : Http.ReqEvent) (rest : list Http.ReqEvent)
         (p1 : Http.Promise) (l1 : list Http.Effect) (n1 : nat),
    remote attempt = ev :: rest ->
    Http.deliver_one rt this method path attempt ev
      (Http.Pending,
       [Http.HttpsRequest method path (Http.bodyString_of rt body) attempt], O)
    = (p1, l1, n1) ->
    settled p1 = true ->
    exists log, request' method path body attempt = Some (p1, log).
Proof.
  intros method0 path body attempt ev rest p1 l1 n1 Hremote Hone Hp.
  rewrite request_unfold, Hremote. cbn [Http.deliver]. rewrite Hone.
  pose proof (deliver_keeps_settled method0 path attempt rest p1 l1 n1 Hp) as Hd.
  destruct (Http.deliver rt this method0 path attempt rest (p1, l1, n1))
    as [[p2 l2] n2]. cbn [fst] in Hd. subst p2.
  destruct (request_total rt this remote method0 path body (attempt + 1)%Z)
    as [r Hr].
  rewrite Hr. now apply run_retries_keeps_settled.
Qed.

(** *** The attempt numbers of a call *)

Lemma act_attempts a p log n :
  Http.attempts (snd (fst (Http.act a (p, log, n)))) = Http.attempts log.
Proof.
  destruct a; cbn [Http.act fst snd]; try reflexivity.
  rewrite attempts_app. cbn [Http.attempts]. apply app_nil_r.
Qed.

Lemma deliver_one_attempts method path attempt ev p log n :
  Http.attempts
    (snd (fst (Http.deliver_one rt this method path attempt ev (p, log, n))))
  = Http.attempts log.
Proof.
  destruct ev; cbn [Http.deliver_one]; rewrite act_attempts; try reflexivity.
  rewrite attempts_app. cbn [Http.attempts]. apply app_nil_r.
Qed.

Lemma deliver_attempts method path attempt events :
  forall p log n,
    Http.attempts
      (snd (fst (Http.deliver rt this method path attempt events (p, log, n))))
    = Http.attempts log.
Proof.
  induction events as [|ev events IH]; intros p log n; [reflexivity|].
  cbn [Http.deliver].
  pose proof (deliver_one_attempts method path attempt ev p log n) as H1.
  destruct (Http.deliver_one rt this method path attempt ev (p, log, n))
    as [[p1 log1] n1]. cbn [fst snd] in H1. rewrite IH. exact H1.
Qed.

Lemma run_retries_attempts (P : Z -> Prop) n pi li :
  Forall P (Http.attempts li) ->
  forall p log p' log',
    Forall P (Http.attempts log) ->
    Http.run_retries n (Some (pi, li)) p log = Some (p', log') ->
    Forall P (Http.attempts log').
Proof.
  intros Hli. induction n as [|n IH]; intros p log p' log' Hlog Hrun;
    cbn [Http.run_retries] in Hrun.
  - injection Hrun as _ <-. exact Hlog.
  - eapply IH; [|exact Hrun].
    rewrite attempts_app. apply Forall_app. now split.
Qed.

Lemma attempts_bounded_from method path body k :
  forall attempt,
    k = Z.to_nat (maxRetries' + 1 - attempt) ->
    exists p log,
      request' method path body attempt = Some (p, log)
      /\ Forall (fun a => (attempt <= a)%Z
                          /\ (a <= Z.max attempt (maxRetries' + 1))%Z)
                (Http.attempts log).
Proof.
  induction k as [|k IH]; intros attempt Hk; rewrite request_unfold.
  - pose proof (deliver_no_retry rt this method path attempt (remote attempt)
                  Http.Pending
                  [Http.HttpsRequest method path (Http.bodyString_of rt body) attempt]
                  O ltac:(lia)) as Hn.
    pose proof (deliver_attempts method path attempt (remote attempt)
                  Http.Pending
                  [Http.HttpsRequest method path (Http.bodyString_of rt body) attempt]
                  O) as Ha.
    destruct (Http.deliver _ _ _ _ _ _ _) as [[p log] n].
    cbn [fst snd] in Hn, Ha. subst n. cbn [Http.run_retries].
    exists p, log. split; [reflexivity|]. rewrite Ha. cbn [Http.attempts].
    constructor; [lia | constructor].
  - destruct (IH (attempt + 1)%Z ltac:(lia)) as (pi & li & Hr & Hb).
    rewrite Hr.
    pose proof (deliver_attempts method path attempt (remote attempt)
                  Http.Pending
                  [Http.HttpsRequest method path (Http.bodyString_of rt body) attempt]
                  O) as Ha.
    destruct (Http.deliver _ _ _ _ _ _ _) as [[p log] n].
    cbn [fst snd] in Ha.
    destruct (run_retries_some n (pi, li) p log) as [[p' log'] Hrun].
    exists p', log'. split; [exact Hrun|].
    apply (run_retries_attempts _ n pi li) with (p := p) (log := log) (p' := p');
      [| |exact Hrun].
    + eapply Forall_impl; [|exact Hb]. cbv beta. intros a Hab. lia.
    + rewrite Ha. cbn [Http.attempts]. constructor; [lia | constructor].
Qed.

(** X15.  Whatever the remote side does, a call returns, and every
    request it issued carries an attempt number between 1 and
    [maxRetries + 1] (1 alone when the retry ceiling is negative): the
    executor never goes beyond one attempt more than the ceiling. *)
Theorem attempt_numbers_bounded :
  forall (method path : string) (body : option Js.json),
  exists p log,
    request' method path body 1 = Some (p, log)
    /\ Forall (fun a => (1 <= a)%Z /\ (a <= Z.max 1 (maxRetries' + 1))%Z)
              (Http.attempts log).
Proof.
  intros method0 path body.
  exact (attempts_bounded_from method0 path body _ 1%Z eq_refl).
Qed.

(** *** The wrapper *)

(** X16.  [requestWithWrapper] on a response of the success range whose
    parsed body is not [null] and has no truthy [success] property (an
    empty body among them): the call fails with an [EnclaveApiError]
    built from the path and the method alone, so the status code and
    the body of the response are not on the error, and its message is
    the [error] property of the body or, without one, "Request
    failed". *)
Theorem wrapper_failure_has_no_status :
  forall (method path : string) (body : option Js.json) (status : Z)
         (data : string) (v : Js.json),
    remote 1%Z = [Http.ResEnd (Some status) data] ->
    is_success status = true ->
    parsed_body rt data = Normal v ->
    v <> Js.JNull ->
    success_flag v = false ->
    exists err,
      Http.requestWithWrapper rt this remote method path body
      = Some (Http.Failed (ApiError err),
              [Http.HttpsRequest method path (Http.bodyString_of rt body) 1])
      /\ statusCode err = None
      /\ responseBody err = None
      /\ endpoint err = path
      /\ Errors.method err = method
      /\ message err
         = "Enclave API Error: "
           ++ Js.to_string
                (Ws.orElse (Js.nullish (Js.opt_prop v "error") None)
                           (Js.JString "Request failed"))
           ++ Js.nl ++ "  Endpoint: " ++ method ++ " " ++ path ++ Js.nl.
Proof.
  intros method0 path body status data v Hremote Hs Hv Hnull Hflag.
  pose proof (success_response method0 path body 1%Z status data Hs Hremote)
    as Hreq.
  rewrite Hv in Hreq.
  unfold Http.requestWithWrapper. rewrite Hreq. unfold Http.unwrap.
  assert (Hprop : Http.prop v "success" = Normal (Js.opt_prop v "success")).
  { destruct v; try reflexivity. now destruct Hnull. }
  rewrite Hprop. unfold success_flag in Hflag. rewrite Hflag.
  eexists. split; [reflexivity|]. repeat split.
Qed.
End Retries.

(** A failure of the request, then a rate limit, then an empty 200. *)
Lemma retries_then_success_resolves_witness :
  exists log,
    Http.request example_http_runtime default_client
      (fun a => if (a =? 1)%Z then [Http.ReqError (Error "Error" "ECONNRESET")]
                else if (a =? 2)%Z then [Http.ResEnd (Some 429%Z) "slow down"]
                else [Http.ResEnd (Some 200%Z) ""])
      "GET" "/v1/markets" None 1
    = Some (Http.Resolved (Js.JObject []), log)
    /\ Http.attempts log = [1; 2; 3]%Z
    /\ Http.delays log = [1000; 2000]%Z.
Proof.
  destruct (retries_then_success_resolves example_http_runtime default_client
              (fun a => if (a =? 1)%Z then [Http.ReqError (Error "Error" "ECONNRESET")]
                        else if (a =? 2)%Z then [Http.ResEnd (Some 429%Z) "slow down"]
                        else [Http.ResEnd (Some 200%Z) ""])
              "GET" "/v1/markets" None 2%nat 200%Z "" (Js.JObject []))
    as (log & Hreq & _ & Ha & Hd).
  - vm_compute. discriminate.
  - intros a Ha.
    assert (Hcases : a = 1%Z \/ a = 2%Z) by lia.
    destruct Hcases as [-> | ->]; eexists; split; reflexivity.
  - reflexivity.
  - reflexivity.
  - reflexivity.
  - exists log. repeat split; assumption.
Defined.

(** A 200 that carries a page of markup. *)
Lemma unparsable_success_rejected_witness :
  exists err,
    Http.request example_http_runtime default_client
      (fun _ => [Http.ResEnd (Some 200%Z) "<html>"]) "GET" "/v1/markets" None 1
    = Some (Http.Rejected (ApiError err),
            [Http.HttpsRequest "GET" "/v1/markets" "" 1])
    /\ statusCode err = Some 200%Z
    /\ responseBody err = Some "<html>".
Proof.
  destruct (unparsable_success_rejected example_http_runtime default_client
              (fun _ => [Http.ResEnd (Some 200%Z) "<html>"])
              "GET" "/v1/markets" None 1 200 "<html>"
              (Error "SyntaxError" "Unexpected token <"))
    as (err & Hreq & _ & Hs & Hb & _).
  - reflexivity.
  - reflexivity.
  - reflexivity.
  - exists err. repeat split; assumption.
Defined.

(** The default client against a host that refuses every connection. *)
Lemma transport_errors_exhaust_retries_witness :
  exists log,
    Http.request example_http_runtime default_client
      (fun _ => [Http.ReqError (Error "Error" "ECONNREFUSED")])
      "GET" "/v1/markets" None 1
    = Some (Http.Rejected (Error "Error" "ECONNREFUSED"), log)
    /\ Http.attempts log = [1; 2; 3; 4]%Z
    /\ Http.delays log = [1000; 2000; 4000]%Z.
Proof.
  destruct (transport_errors_exhaust_retries example_http_runtime default_client
              (fun _ => [Http.ReqError (Error "Error" "ECONNREFUSED")])
              "GET" "/v1/markets" None (fun _ => Error "Error" "ECONNREFUSED"))
    as (log & Hreq & Ha & Hd).
  - vm_compute. discriminate.
  - intros a. reflexivity.
  - exists log. repeat split; assumption.
Defined.

(** A timeout followed by the error of the destroyed request: the
    retries run, the result stays the timeout. *)
Lemma first_settlement_wins_witness :
  exists log,
    Http.request example_http_runtime default_client
      (fun a => if (a =? 1)%Z
                then [Http.ReqTimeout; Http.ReqError (Error "Error" "socket hang up")]
                else [Http.ResEnd (Some 200%Z) "{}"])
      "GET" "/v1/markets" None 1
    = Some (Http.Rejected (Error "Error" "Request timeout after 30000ms"), log).
Proof.
  apply (first_settlement_wins example_http_runtime default_client
           (fun a => if (a =? 1)%Z
                     then [Http.ReqTimeout;
                           Http.ReqError (Error "Error" "socket hang up")]
                     else [Http.ResEnd (Some 200%Z) "{}"])
           "GET" "/v1/markets" None 1 Http.ReqTimeout
           [Http.ReqError (Error "Error" "socket hang up")]
           (Http.Rejected (Error "Error" "Request timeout after 30000ms"))
           [Http.HttpsRequest "GET" "/v1/markets" "" 1; Http.ReqDestroy 1] O).
  - reflexivity.
  - vm_compute. reflexivity.
  - reflexivity.
Defined.

(** A 204 with no body, through the wrapper. *)
Lemma wrapper_failure_has_no_status_witness :
  exists err,
    Http.requestWithWrapper example_http_runtime default_client
      (fun _ => [Http.ResEnd (Some 204%Z) ""]) "DELETE" "/v1/perps/orders" None
    = Some (Http.Failed (ApiError err),
            [Http.HttpsRequest "DELETE" "/v1/perps/orders" "" 1])
    /\ statusCode err = None
    /\ responseBody err = None.
Proof.
  destruct (wrapper_failure_has_no_status example_http_runtime default_client
              (fun _ => [Http.ResEnd (Some 204%Z) ""])
              "DELETE" "/v1/perps/orders" None 204 "" (Js.JObject []))
    as (err & Hreq & Hs & Hb & _).
  - reflexivity.
  - reflexivity.
  - reflexivity.
  - discriminate.
  - reflexivity.
  - exists err. repeat split; assumption.
Defined.

(* ===================================================================== *)
(** ** The streaming methods of [EnclaveClient] *)
(* ===================================================================== *)

Lemma In_keys_subscribed (m : Js.Map Js.SetOf) key h k :
  In k (Js.keys (subscribed m key h)) -> k = key \/ In k (Js.keys m).
Proof.
  unfold subscribed. destruct (Js.has m key) eqn:Hhas; cbv zeta.
  - rewrite keys_set_present by assumption. now right.
  - rewrite keys_set_present.
    + rewrite keys_set_absent by assumption.
      rewrite in_app_iff. intros [H|[H|[]]]; [now right | now left].
    + apply has_get. eexists. apply get_set_same.
Qed.

Lemma In_keys_unsubscribed (m : Js.Map Js.SetOf) key h k :
  In k (Js.keys (unsubscribed m key h)) -> In k (Js.keys m).
Proof.
  unfold unsubscribed. destruct h as [h|].
  - destruct (Js.get m key) as [hs|] eqn:Hget; [|trivial].
    assert (Hhas : Js.has m key = true) by (apply has_get; now exists hs).
    cbv zeta. destruct (Js.size (Js.set_delete hs h) =? 0)%nat.
    + intros H. apply In_keys_delete in H. destruct H as [_ H].
      now rewrite keys_set_present in H.
    + now rewrite keys_set_present.
  - intros H. now apply In_keys_delete in H.
Qed.

Lemma public_key_not_private k :
  public_key k ->
  k <> key_of Ws.ORDERS None /\ k <> key_of Ws.POSITIONS None.
Proof.
  intros [market [-> | ->]]; unfold key_of, Ws.getSubscriptionKey; simpl;
    destruct (Js.truthy market); split; discriminate.
Qed.

Section Facade.
Variable rt : Ws.Runtime.

Lemma keeps_facade_view_step inp :
  match inp with
  | Ws.CallOnError => True
  | _ => keeps facade_view (Ws.step rt inp)
  end.
Proof.
  destruct inp; try exact I;
    unfold Ws.step, Ws.connect, Ws.new_WebSocket, Ws.disconnect,
      Ws.clearTimeout, Ws.ws_close, Ws.subscribe, Ws.unsubscribe,
      Ws.sendSubscribe, Ws.sendUnsubscribe, Ws.set_readyState,
      Ws.reconnect_fire, Ws.connect, Ws.new_WebSocket,
      Ws.on_open, Ws.startHeartbeat, Ws.authenticate, Ws.resubscribeAll,
      Ws.sendSubscribe, Ws.on_message, Ws.handleMessage, Ws.invoke,
      Ws.on_error, Ws.on_close, Ws.scheduleReconnect, Ws.setTimeout,
      Ws.setInterval, Ws.stopHeartbeat, Ws.clearInterval, Ws.on_ping,
      Ws.ws_pong, Ws.heartbeat_tick, Ws.send, Ws.emit;
    keeps_field.
Qed.

Lemma on_client_inv {A : Type} (c : Ws.M A) w e :
  keeps facade_view c ->
  (Forall public_key (Js.keys (Ws.subscriptions w)) ->
   Streaming.auth e = None ->
   Forall public_key (Js.keys (Ws.subscriptions (Ws.state_of (c w))))) ->
  facade_view w = (Streaming.auth e, 0%nat) ->
  (Streaming.auth e = None -> Forall public_key (Js.keys (Ws.subscriptions w))) ->
  facade_inv (client_after (Streaming.on_client c w e))
  /\ Streaming.auth (client_after (Streaming.on_client c w e)) = Streaming.auth e.
Proof.
  intros Hk Hkeys Hv Hp. unfold Streaming.on_client, client_after, facade_inv.
  pose proof (Hk w) as Hkw. unfold Ws.state_of in Hkw, Hkeys.
  destruct (c w) as [[r w'] t]. cbn [fst snd] in *.
  cbn [Streaming.wsClient Streaming.auth Streaming.set_wsClient].
  split; [|reflexivity]. split; [congruence|].
  intros Hnone. apply Hkeys; auto.
Qed.

Lemma same_registry_inv {A : Type} (c : Ws.M A) w e :
  keeps facade_view c ->
  keeps Ws.subscriptions c ->
  facade_view w = (Streaming.auth e, 0%nat) ->
  (Streaming.auth e = None -> Forall public_key (Js.keys (Ws.subscriptions w))) ->
  facade_inv (client_after (Streaming.on_client c w e))
  /\ Streaming.auth (client_after (Streaming.on_client c w e)) = Streaming.auth e.
Proof.
  intros Hk Hs. apply on_client_inv; [exact Hk|].
  intros H _. now rewrite Hs.
Qed.

Lemma subscribe_inv ch h market w e :
  (Streaming.auth e = None -> public_key (key_of ch market)) ->
  facade_view w = (Streaming.auth e, 0%nat) ->
  (Streaming.auth e = None -> Forall public_key (Js.keys (Ws.subscriptions w))) ->
  facade_inv (client_after (Streaming.on_client (Ws.subscribe ch h market) w e))
  /\ Streaming.auth (client_after (Streaming.on_client (Ws.subscribe ch h market) w e))
     = Streaming.auth e.
Proof.
  intros Hpk. apply on_client_inv.
  - exact (keeps_facade_view_step (Ws.CallSubscribe ch h market)).
  - intros Hall Hnone. rewrite run_subscribe. unfold Ws.state_of. cbn [fst snd].
    cbn [Ws.subscriptions Ws.set_subscriptions].
    apply Forall_forall. intros k Hin.
    apply In_keys_subscribed in Hin. destruct Hin as [-> | Hin].
    + now apply Hpk.
    + rewrite Forall_forall in Hall. now apply Hall.
Qed.

Lemma unsubscribe_inv ch h market w e :
  facade_view w = (Streaming.auth e, 0%nat) ->
  (Streaming.auth e = None -> Forall public_key (Js.keys (Ws.subscriptions w))) ->
  facade_inv (client_after (Streaming.on_client (Ws.unsubscribe ch h market) w e))
  /\ Streaming.auth
       (client_after (Streaming.on_client (Ws.unsubscribe ch h market) w e))
     = Streaming.auth e.
Proof.
  apply on_client_inv.
  - exact (keeps_facade_view_step (Ws.CallUnsubscribe ch h market)).
  - intros Hall _. rewrite run_unsubscribe. unfold Ws.state_of. cbn [fst snd].
    cbn [Ws.subscriptions Ws.set_subscriptions].
    apply Forall_forall. intros k Hin.
    apply In_keys_unsubscribed in Hin.
    rewrite Forall_forall in Hall. now apply Hall.
Qed.

Lemma act_inv a e :
  facade_inv e ->
  facade_inv (client_after (Streaming.act rt a e))
  /\ Streaming.auth (client_after (Streaming.act rt a e)) = Streaming.auth e.
Proof.
  intros Hinv. unfold facade_inv in Hinv.
  destruct a; cbn [Streaming.act];
    unfold Streaming.connectWebSocket, Streaming.disconnectWebSocket,
      Streaming.subscribeTrades, Streaming.subscribeOrderBook,
      Streaming.subscribeOrders, Streaming.subscribePositions,
      Streaming.unsubscribeTrades, Streaming.unsubscribeOrderBook,
      Streaming.unsubscribeOrders, Streaming.unsubscribePositions,
      Streaming.subscribe_public, Streaming.subscribe_private,
      Streaming.unsubscribe_from, Streaming.not_connected;
    destruct (Streaming.wsClient e) as [w|] eqn:Ew;
    try (split; [unfold facade_inv, client_after; cbn [fst snd];
                 rewrite ?Ew; exact Hinv || exact I
                | reflexivity]).
  - (* connectWebSocket, with a client *)
    destruct Hinv as [Hv Hp].
    apply same_registry_inv; try assumption.
    + exact (keeps_facade_view_step Ws.CallConnect).
    + apply keeps_subscriptions_connect.
  - (* connectWebSocket, first call *)
    apply same_registry_inv.
    + exact (keeps_facade_view_step Ws.CallConnect).
    + apply keeps_subscriptions_connect.
    + reflexivity.
    + intros _. constructor.
  - (* disconnectWebSocket *)
    rewrite run_disconnect. split; [exact I | reflexivity].
  - destruct Hinv as [Hv Hp]. apply subscribe_inv; try assumption.
    intros _. exists market. now left.
  - destruct Hinv as [Hv Hp]. apply subscribe_inv; try assumption.
    intros _. exists market. now right.
  - destruct Hinv as [Hv Hp].
    destruct (Streaming.auth e) as [a|] eqn:Ea.
    + rewrite <- Ea in Hv, Hp |- *.
      destruct (subscribe_inv Ws.ORDERS h None w e) as [H1 H2];
        try assumption; [rewrite Ea; discriminate|].
      split; [exact H1 | now rewrite H2].
    + split; [|exact Ea].
      unfold facade_inv, client_after. cbn [fst snd]. rewrite Ew, Ea.
      now split.
  - destruct Hinv as [Hv Hp].
    destruct (Streaming.auth e) as [a|] eqn:Ea.
    + rewrite <- Ea in Hv, Hp |- *.
      destruct (subscribe_inv Ws.POSITIONS h None w e) as [H1 H2];
        try assumption; [rewrite Ea; discriminate|].
      split; [exact H1 | now rewrite H2].
    + split; [|exact Ea].
      unfold facade_inv, client_after. cbn [fst snd]. rewrite Ew, Ea.
      now split.
  - destruct Hinv as [Hv Hp]. now apply unsubscribe_inv.
  - destruct Hinv as [Hv Hp]. now apply unsubscribe_inv.
  - destruct Hinv as [Hv Hp]. now apply unsubscribe_inv.
  - destruct Hinv as [Hv Hp]. now apply unsubscribe_inv.
  - (* an event of the streaming client *)
    destruct Hinv as [Hv Hp].
    destruct (Streaming.is_event ev) eqn:Hev.
    + pose proof (keeps_facade_view_step ev) as Hk1.
      pose proof (keeps_subscriptions_step rt ev) as Hk2.
      destruct ev; try discriminate; now apply same_registry_inv.
    + split; [|reflexivity].
      unfold facade_inv, client_after. cbn [fst snd]. rewrite Ew. now split.
Qed.

Lemma run_inv actions :
  forall e,
    facade_inv e ->
    facade_inv (fst (Streaming.run rt actions e))
    /\ Streaming.auth (fst (Streaming.run rt actions e)) = Streaming.auth e.
Proof.
  induction actions as [|a actions IH]; intros e Hinv; cbn [Streaming.run].
  - now split.
  - destruct (act_inv a e Hinv) as [H1 H2]. unfold client_after in H1, H2.
    destruct (Streaming.act rt a e) as [[r e1] t1]. cbn [fst snd] in H1, H2.
    destruct (IH e1 H1) as [H3 H4].
    destruct (Streaming.run rt actions e1) as [e2 t2]. cbn [fst] in *.
    split; [exact H3 | congruence].
Qed.

(** X17.  Whatever streaming methods are called on an [EnclaveClient]
    and whatever its sockets and timers do, the streaming client it
    holds carries the credentials the client was built with and has no
    ['error'] listener: the facade never attaches one, and the
    streaming client is not reachable from outside. *)
Theorem facade_attaches_no_error_listener :
  forall (auth0 : option Ws.HmacAuth) (environment0 : option Ws.Environment)
         (debug0 : option bool) (actions : list Streaming.Action),
    match Streaming.wsClient
            (fst (Streaming.run rt actions
                    (Streaming.new_EnclaveClient auth0 environment0 debug0))) with
    | Some w => Ws.errorListeners w = 0%nat /\ Ws.auth (Ws.config w) = auth0
    | None => True
    end.
Proof.
  intros auth0 environment0 debug0 actions.
  destruct (run_inv actions
              (Streaming.new_EnclaveClient auth0 environment0 debug0) I)
    as [Hinv Hauth].
  unfold facade_inv in Hinv.
  destruct (Streaming.wsClient _) as [w|]; [|exact I].
  destruct Hinv as [Hv _]. rewrite Hauth in Hv. cbn [Streaming.auth
    Streaming.new_EnclaveClient] in Hv.
  unfold facade_view in Hv. injection Hv as H1 H2. now split.
Qed.

(** X18.  On an [EnclaveClient] built without credentials, no sequence
    of streaming method calls and socket or timer events registers a
    handler for the order or the position channel: every key of the
    registry is the key of the trade or the order book channel with a
    market, so the keys [ordersPerps] and [positionsPerps] are never
    present. *)
Theorem private_channels_need_credentials :
  forall (environment0 : option Ws.Environment) (debug0 : option bool)
         (actions : list Streaming.Action),
    match Streaming.wsClient
            (fst (Streaming.run rt actions
                    (Streaming.new_EnclaveClient None environment0 debug0))) with
    | Some w =>
        Forall public_key (Js.keys (Ws.subscriptions w))
        /\ Js.has (Ws.subscriptions w) (key_of Ws.ORDERS None) = false
        /\ Js.has (Ws.subscriptions w) (key_of Ws.POSITIONS None) = false
    | None => True
    end.
Proof.
  intros environment0 debug0 actions.
  destruct (run_inv actions
              (Streaming.new_EnclaveClient None environment0 debug0) I)
    as [Hinv Hauth].
  unfold facade_inv in Hinv.
  destruct (Streaming.wsClient _) as [w|]; [|exact I].
  destruct Hinv as [_ Hp]. rewrite Hauth in Hp. specialize (Hp eq_refl).
  split; [exact Hp|].
  rewrite Forall_forall in Hp.
  split.
  - destruct (Js.has (Ws.subscriptions w) (key_of Ws.ORDERS None)) eqn:E;
      [|reflexivity].
    apply has_In_keys, Hp, public_key_not_private in E. now destruct E.
  - destruct (Js.has (Ws.subscriptions w) (key_of Ws.POSITIONS None)) eqn:E;
      [|reflexivity].
    apply has_In_keys, Hp, public_key_not_private in E. now destruct E.
Qed.
End Facade.

Lemma sent_disconnect_trace s : Ws.sent (disconnect_trace s) = [].
Proof.
  unfold disconnect_trace.
  destruct (Ws.reconnectTimeout s), (Ws.heartbeatInterval s), (Ws.ws s);
    reflexivity.
Qed.

Lemma facade_run_cons rt a rest e :
  Streaming.run rt (a :: rest) e
  = match Streaming.act rt a e with
    | (r, e1, t1) =>
        let (e2, t2) := Streaming.run rt rest e1 in
        (e2, (t1 ++ Ws.uncaught r ++ t2)%list)
    end.
Proof. reflexivity. Qed.

Section FacadeReconnect.
Variable rt : Ws.Runtime.

Lemma connectWebSocket_first e :
  Streaming.wsClient e = None ->
  Streaming.connectWebSocket e
  = (Normal tt,
     Streaming.set_wsClient (Some (connecting (new_streaming_client e))) e,
     [Ws.WsNew 0 (Ws.WS_URLS (Streaming.environment e))]).
Proof.
  intros Hw. unfold Streaming.connectWebSocket. rewrite Hw.
  fold (new_streaming_client e).
  unfold Streaming.on_client. rewrite run_connect. reflexivity.
Qed.

Lemma open_first_socket e now :
  let w := Ws.set_sockets [Ws.OPEN] (connecting (new_streaming_client e)) in
  exists r w' t,
    Ws.step rt (Ws.SocketOpen 0 now) (connecting (new_streaming_client e))
    = (r, w', t)
    /\ Ws.sent t = auth_on_first_socket rt (Streaming.auth e) now
    /\ Ws.subscriptions w' = []
    /\ Ws.isConnected w' = true.
Proof.
  intros w.
  assert (Hopen : Ws.step rt (Ws.SocketOpen 0 now)
                    (connecting (new_streaming_client e))
                  = Ws.on_open rt 0 now w)
    by (apply step_open; reflexivity).
  rewrite Hopen.
  destruct (run_on_open rt 0 now w) as (_ & Hsent & Hsubs & Hconn).
  unfold Ws.trace_of, Ws.state_of in Hsent, Hsubs, Hconn.
  destruct (Ws.on_open rt 0 now w) as [[r3 w3] t3].
  cbn [fst snd] in Hsent, Hsubs, Hconn.
  exists r3, w3, t3. split; [reflexivity|]. split; [|split].
  - rewrite Hsent. unfold replay, auth_messages, auth_on_first_socket.
    change (Ws.auth (Ws.config w)) with (Streaming.auth e).
    change (Ws.subscriptions w) with (@nil (string * Js.SetOf)).
    change (Ws.open_socket w) with (Some 0%nat).
    destruct (Streaming.auth e); reflexivity.
  - rewrite Hsubs. reflexivity.
  - exact Hconn.
Qed.

Lemma connect_then_open e now :
  Streaming.wsClient e = None ->
  exists e' t,
    Streaming.run rt
      [Streaming.ConnectWebSocket; Streaming.Deliver (Ws.SocketOpen 0 now)] e
    = (e', t)
    /\ Ws.sent t = auth_on_first_socket rt (Streaming.auth e) now
    /\ exists w,
         Streaming.wsClient e' = Some w
         /\ Ws.subscriptions w = []
         /\ Ws.isConnected w = true.
Proof.
  intros Hw.
  destruct (open_first_socket e now) as (r3 & w3 & t3 & Hopen & Hsent & Hsubs & Hconn).
  rewrite facade_run_cons. cbn [Streaming.act].
  rewrite (connectWebSocket_first e Hw).
  rewrite facade_run_cons. cbn [Streaming.act].
  cbn [Streaming.wsClient Streaming.set_wsClient Streaming.is_event].
  unfold Streaming.on_client. rewrite Hopen.
  cbn [Streaming.run].
  eexists. eexists. split; [reflexivity|]. split.
  - cbn [Ws.uncaught app Ws.sent]. rewrite sent_app, Hsent.
    destruct r3; cbn [Ws.uncaught Ws.sent app]; now rewrite app_nil_r.
  - exists w3. now repeat split.
Qed.

(** X19.  Subscriptions do not survive [disconnectWebSocket()].  From
    any state of an [EnclaveClient], [disconnectWebSocket()] followed by
    [connectWebSocket()] and the open of the new socket leaves a
    connected streaming client with an empty registry, and the only
    message on the wire is the [auth] message when the client has
    credentials: no handler registered before is subscribed again. *)
Theorem disconnect_forgets_subscriptions :
  forall (e : Streaming.EnclaveClient) (now : Z),
    let r :=
      Streaming.run rt
        [Streaming.DisconnectWebSocket; Streaming.ConnectWebSocket;
         Streaming.Deliver (Ws.SocketOpen 0 now)] e in
    Ws.sent (snd r) = auth_on_first_socket rt (Streaming.auth e) now
    /\ Streaming.isWebSocketConnected (fst r) = true
    /\ exists w,
         Streaming.wsClient (fst r) = Some w
         /\ Ws.subscriptions w = []
         /\ Ws.isConnected w = true.
Proof.
  intros e now r. subst r.
  assert (Hflag : forall e',
            (exists w, Streaming.wsClient e' = Some w
                       /\ Ws.subscriptions w = []
                       /\ Ws.isConnected w = true) ->
            Streaming.isWebSocketConnected e' = true).
  { intros e' (w & Hw & _ & Hc). unfold Streaming.isWebSocketConnected.
    now rewrite Hw. }
  rewrite facade_run_cons. cbn [Streaming.act].
  unfold Streaming.disconnectWebSocket.
  destruct (Streaming.wsClient e) as [w|] eqn:Ew.
  - rewrite run_disconnect.
    destruct (connect_then_open (Streaming.set_wsClient None e) now eq_refl)
      as (e' & t & Hrun & Hsent & Hw).
    rewrite Hrun. cbn [fst snd Ws.uncaught app].
    split; [|split; [now apply Hflag | exact Hw]].
    rewrite sent_app, sent_disconnect_trace. exact Hsent.
  - destruct (connect_then_open e now Ew) as (e' & t & Hrun & Hsent & Hw).
    rewrite Hrun. cbn [fst snd Ws.uncaught app].
    split; [exact Hsent | split; [now apply Hflag | exact Hw]].
Qed.
End FacadeReconnect.

(* ===================================================================== *)
(** ** Webhook signatures *)
(* ===================================================================== *)

Lemma bytes_eqb_eq (a b : list N) : Auth.bytes_eqb a b = true <-> a = b.
Proof.
  revert b. induction a as [|x a IH]; intros [|y b]; simpl;
    try (split; [discriminate | discriminate]); [tauto|].
  rewrite andb_true_iff, N.eqb_eq, IH.
  split; [intros [-> ->]; reflexivity | intros H; injection H; auto].
Qed.

Lemma string_ind2 (P : string -> Prop) :
  P EmptyString ->
  (forall a, P (String a EmptyString)) ->
  (forall a b s, P s -> P (String a (String b s))) ->
  forall s, P s.
Proof.
  intros H0 H1 H2.
  assert (H : forall s, P s /\ forall a, P (String a s)).
  { induction s as [|c s [IH1 IH2]]; split; auto. }
  intros s. apply H.
Qed.

(** [Buffer.from(s, 'hex')] gives one byte per two characters on
    hexadecimal digits, and fewer when the string of even length holds
    another character. *)
Lemma hex_decode_full s :
  all_hex s = true ->
  List.length (Auth.hex_decode s) = Nat.div2 (String.length s).
Proof.
  induction s as [|a|a b s IH] using string_ind2; simpl; try reflexivity.
  destruct (Auth.hex_digit a), (Auth.hex_digit b); try discriminate.
  intros H. simpl. now rewrite IH.
Qed.

Lemma hex_decode_cut s :
  Nat.even (String.length s) = true ->
  all_hex s = false ->
  (List.length (Auth.hex_decode s) < Nat.div2 (String.length s))%nat.
Proof.
  induction s as [|a|a b s IH] using string_ind2.
  - intros _ H. discriminate H.
  - intros H _. discriminate H.
  - cbn [String.length Nat.even all_hex Auth.hex_decode Nat.div2].
    intros He Hh.
    destruct (Auth.hex_digit a), (Auth.hex_digit b);
      cbn [List.length]; try apply Nat.lt_0_succ.
    apply -> Nat.succ_lt_mono. now apply IH.
Qed.

Section Webhook.
Variable rt : Ws.Runtime.

(** X20.  [validateWebhookSignature] returns [true] exactly for the
    signatures that have the length of the expected one and decode from
    hexadecimal to the same bytes; the HMAC of the timestamp and the
    body under the secret, as [sign] computes it, is one of them, and
    so is every other spelling of the same bytes. *)
Theorem webhook_signature_accepted_iff :
  forall (a : Ws.HmacAuth) (signature timestamp body : string),
    (Auth.validateWebhookSignature rt a signature timestamp body = Normal true
     <-> String.length signature
         = String.length (expected_signature rt a timestamp body)
         /\ Auth.hex_decode signature
            = Auth.hex_decode (expected_signature rt a timestamp body))
    /\ Auth.validateWebhookSignature rt a
         (expected_signature rt a timestamp body) timestamp body
       = Normal true.
Proof.
  intros a signature timestamp body.
  assert (Hiff : forall sig,
    Auth.validateWebhookSignature rt a sig timestamp body = Normal true
    <-> String.length sig = String.length (expected_signature rt a timestamp body)
        /\ Auth.hex_decode sig
           = Auth.hex_decode (expected_signature rt a timestamp body)).
  { intros sig.
    unfold Auth.validateWebhookSignature, expected_signature, Ws.sign.
    cbv zeta.
    set (expected := Ws.hmac_sha256_hex rt (Ws.apiSecret a) (timestamp ++ body)).
    destruct (Nat.eqb_spec (String.length sig) (String.length expected))
      as [Hlen|Hlen]; cbn [negb].
    - unfold Auth.timingSafeEqual.
      destruct (Nat.eqb_spec (List.length (Auth.hex_decode sig))
                             (List.length (Auth.hex_decode expected)))
        as [Hb|Hb].
      + split.
        * intros H. injection H as H. apply bytes_eqb_eq in H. now split.
        * intros [_ H]. f_equal. now apply bytes_eqb_eq.
      + split; [discriminate|]. intros [_ H]. now rewrite H in Hb.
    - split; [discriminate|]. intros [H _]. contradiction. }
  split; [apply Hiff|].
  apply Hiff. now split.
Qed.

(** X21.  A signature of the expected length that holds a character
    which is not a hexadecimal digit is not answered with [false]:
    when the expected signature is an even number of hexadecimal
    digits, as a digest is, the decoded buffers differ in length and
    the call throws the [RangeError] of [timingSafeEqual]. *)
Theorem webhook_malformed_signature_throws :
  forall (a : Ws.HmacAuth) (signature timestamp body : string),
    all_hex (expected_signature rt a timestamp body) = true ->
    Nat.even (String.length (expected_signature rt a timestamp body)) = true ->
    String.length signature
    = String.length (expected_signature rt a timestamp body) ->
    all_hex signature = false ->
    Auth.validateWebhookSignature rt a signature timestamp body
    = Throw (Error "RangeError" "Input buffers must have the same byte length").
Proof.
  intros a signature timestamp body Hhex Heven Hlen Hbad.
  unfold Auth.validateWebhookSignature. cbv zeta.
  unfold expected_signature, Ws.sign in *.
  set (expected := Ws.hmac_sha256_hex rt (Ws.apiSecret a) (timestamp ++ body)) in *.
  rewrite Hlen, Nat.eqb_refl. cbn [negb].
  unfold Auth.timingSafeEqual.
  pose proof (hex_decode_full expected Hhex) as Hfull.
  pose proof (hex_decode_cut signature ltac:(now rewrite Hlen) Hbad) as Hcut.
  rewrite Hlen in Hcut.
  destruct (Nat.eqb_spec (List.length (Auth.hex_decode signature))
                         (List.length (Auth.hex_decode expected))) as [Hb|Hb];
    [lia | reflexivity].
Qed.
End Webhook.

(** A digest of four digits and a signature with a letter that is not
    one. *)
Lemma webhook_malformed_signature_throws_witness :
  Auth.validateWebhookSignature
    {| Ws.call := fun _ _ => None; Ws.hmac_sha256_hex := fun _ _ => "0a1b" |}
    {| Ws.apiKey := "key"; Ws.apiSecret := "secret" |}
    "0a1z" "1700000000" "{}"
  = Throw (Error "RangeError" "Input buffers must have the same byte length").
Proof.
  apply webhook_malformed_signature_throws; reflexivity.
Defined.

(* ===================================================================== *)
(** ** Decimal places of an increment *)
(* ===================================================================== *)

Lemma split_no_dot s : has_dot s = false -> Js.split Rounding.dot s = [s].
Proof.
  induction s as [|c s IH]; simpl; [reflexivity|].
  destruct (Ascii.eqb c Rounding.dot); simpl; [discriminate|].
  intros H. now rewrite IH.
Qed.

Lemma split_app_dot a b :
  has_dot a = false ->
  Js.split Rounding.dot (a ++ String Rounding.dot b)
  = a :: Js.split Rounding.dot b.
Proof.
  induction a as [|c a IH]; simpl.
  - intros _. reflexivity.
  - destruct (Ascii.eqb c Rounding.dot); simpl; [discriminate|].
    intros H. now rewrite IH.
Qed.

(** X22.  [getDecimalPlaces] of an increment without a dot is 0, and of
    an increment with one dot is the number of characters after it;
    what follows a second dot is not counted. *)
Theorem decimal_places_counts_fraction :
  forall (whole fraction rest : string),
    has_dot whole = false ->
    has_dot fraction = false ->
    Rounding.getDecimalPlaces whole = 0%nat
    /\ Rounding.getDecimalPlaces (whole ++ String Rounding.dot fraction)
       = String.length fraction
    /\ Rounding.getDecimalPlaces
         (whole ++ String Rounding.dot (fraction ++ String Rounding.dot rest))
       = String.length fraction.
Proof.
  intros whole fraction rest Hw Hf. unfold Rounding.getDecimalPlaces. cbv zeta.
  rewrite (split_no_dot whole Hw).
  rewrite !(split_app_dot whole _ Hw).
  rewrite (split_no_dot fraction Hf), (split_app_dot fraction rest Hf).
  repeat split.
Qed.

(** An increment of two decimals, and one in scientific notation. *)
Lemma decimal_places_counts_fraction_witness :
  Rounding.getDecimalPlaces "0.01" = 2%nat
  /\ Rounding.getDecimalPlaces "1e-8" = 0%nat.
Proof.
  split.
  - exact (proj1 (proj2 (decimal_places_counts_fraction "0" "01" ""
                           eq_refl eq_refl))).
  - exact (proj1 (decimal_places_counts_fraction "1e-8" "" ""
                    eq_refl eq_refl)).
Defined.
